(** * Home Canvas: placement geometry and undo/redo history

    A shallow embedding of the pointer-to-image coordinate transform of
    the [ImageUploader] component and of the scene history kept by the
    [App] component, with the properties of both that the design
    document states. *)

From Stdlib Require Import ZArith QArith Lqa PrimFloat String Ascii List Bool Lia.
From Stdlib Require Import DecimalString.
From Stdlib Require Reals Lra.
From Stdlib Require Import SpecFloat FloatOps FloatAxioms.
From stdpp Require Import base option list strings gmap.

Local Open Scope string_scope.
Local Open Scope list_scope.

(** ** JavaScript numbers

    Every quantity the geometry code touches is a JavaScript [number].
    The code is embedded once, over the operations it uses, and read at
    two instances: IEEE-754 binary64 (what the browser computes) and the
    rationals (the arithmetic the design document reasons in). *)

Class JsNumber (num : Type) := {
  js_zero : num;
  js_two : num;
  js_hundred : num;
  js_sub : num -> num -> num;
  js_mul : num -> num -> num;
  js_div : num -> num -> num;
  js_lt : num -> num -> bool
}.

Declare Scope js_scope.
Delimit Scope js_scope with js.
Infix "-" := js_sub : js_scope.
Infix "*" := js_mul : js_scope.
Infix "/" := js_div : js_scope.
Notation "x <? y" := (js_lt x y) : js_scope.
Notation "x >? y" := (js_lt y x) : js_scope.

#[export] Instance float_JsNumber : JsNumber float := {|
  js_zero := 0%float;
  js_two := 2%float;
  js_hundred := 100%float;
  js_sub := PrimFloat.sub;
  js_mul := PrimFloat.mul;
  js_div := PrimFloat.div;
  js_lt := PrimFloat.ltb
|}.

Definition Qltb (x y : Q) : bool := negb (Qle_bool y x).

#[export] Instance Q_JsNumber : JsNumber Q := {|
  js_zero := 0%Q;
  js_two := 2%Q;
  js_hundred := 100%Q;
  js_sub := Qminus;
  js_mul := Qmult;
  js_div := Qdiv;
  js_lt := Qltb
|}.

(** ** Geometry records *)

Section Geometry.
Context {num : Type}.

(** The part of [getBoundingClientRect()] the code reads. *)
Record DOMRect := {
  rect_left : num;
  rect_top : num;
  rect_width : num;
  rect_height : num
}.

(** The part of an [HTMLImageElement] the code reads. *)
Record Img := {
  naturalWidth : num;
  naturalHeight : num
}.

(** [{x, y}] *)
Record Point := { px : num; py : num }.

(** [{xPercent, yPercent}] *)
Record RelativePosition := { xPercent : num; yPercent : num }.
End Geometry.

Arguments DOMRect : clear implicits.
Arguments Img : clear implicits.
Arguments Point : clear implicits.
Arguments RelativePosition : clear implicits.

(** ** The coordinate mapper as the design document words it *)

Inductive MapError := OutOfBounds.

Section CoordinateMapper.
Context {num : Type} {JS : JsNumber num}.
Local Open Scope js_scope.

Definition imageAspect (img : Img num) : num :=
  naturalWidth img / naturalHeight img.

Definition containerAspect (box : DOMRect num) : num :=
  rect_width box / rect_height box.

(** Rendered ("contain" fit) width and height. *)
Definition renderedSize (box : DOMRect num) (img : Img num) : num * num :=
  if imageAspect img >? containerAspect box
  then (rect_width box, rect_width box / imageAspect img)
  else (rect_height box * imageAspect img, rect_height box).

(** Letterbox offsets: half of the space left over on each axis. *)
Definition letterbox (box : DOMRect num) (img : Img num) : num * num :=
  let '(rw, rh) := renderedSize box img in
  ((rect_width box - rw) / js_two, (rect_height box - rh) / js_two).

(** Image-local pixel coordinates of a client point. *)
Definition imageLocal (box : DOMRect num) (img : Img num) (clientX clientY : num)
  : num * num :=
  let '(ox, oy) := letterbox box img in
  ((clientX - rect_left box) - ox, (clientY - rect_top box) - oy).

(** A coordinate lies outside [[0, extent]]. *)
Definition outside (c extent : num) : bool :=
  (c <? js_zero) || (c >? extent).

Definition mapToImageSpace (box : DOMRect num) (img : Img num) (clientX clientY : num)
  : MapError + RelativePosition num :=
  let '(rw, rh) := renderedSize box img in
  let '(ix, iy) := imageLocal box img clientX clientY in
  if outside ix rw || outside iy rh
  then inl OutOfBounds
  else inr {| xPercent := ix / rw * js_hundred; yPercent := iy / rh * js_hundred |}.
End CoordinateMapper.

(** ** Files, thrown values and completions *)

(** A [File] (a [Blob] with a name): name, MIME type and content. *)
Record File := {
  file_name : string;
  file_type : string;
  file_data : string
}.

(** What a [catch (err)] clause can receive: an [Error] instance with
    its message, or any other value. *)
Inductive Thrown :=
| ErrorObject (message : string)
| OtherValue.

(** [err instanceof Error ? err.message : 'An unknown error occurred.'] *)
Definition errorMessage (err : Thrown) : string :=
  match err with
  | ErrorObject message => message
  | OtherValue => "An unknown error occurred."
  end.

(** A computation that returns or throws. *)
Inductive Completion (A : Type) :=
| Normal (a : A)
| Throw (err : Thrown).

Arguments Normal {A} a.
Arguments Throw {A} err.

#[export] Instance Completion_ret : MRet Completion := @Normal.

#[export] Instance Completion_bind : MBind Completion := fun A B k c =>
  match c with
  | Normal a => k a
  | Throw err => Throw err
  end.

(** [xs.map(f)] where [f] may throw: the first throw aborts the map. *)
Fixpoint mapThrowing {A B : Type} (f : A -> Completion B) (xs : list A) : Completion (list B) :=
  match xs with
  | [] => Normal []
  | x :: rest =>
      y ← f x;
      ys ← mapThrowing f rest;
      Normal (y :: ys)
  end.

(** How an awaited promise settles. *)
Inductive Settled (A : Type) :=
| Fulfilled (value : A)
| Rejected (err : Thrown).

Arguments Fulfilled {A} value.
Arguments Rejected {A} err.

(** ** Strings

    A [string] stands for a JavaScript string whose UTF-16 code units
    all lie below 256: each [ascii] is one code unit, read by its
    code.  The string methods below are those of the language on such
    strings. *)

(** [s.split(sep)] for a one-character separator. *)
Fixpoint split (sep : ascii) (s : string) : list string :=
  match s with
  | EmptyString => [EmptyString]
  | String c rest =>
      if Ascii.eqb c sep then EmptyString :: split sep rest
      else match split sep rest with
           | [] => [String c EmptyString]
           | piece :: pieces => String c piece :: pieces
           end
  end.

Definition isLineTerminator (c : ascii) : bool :=
  Ascii.eqb c "010"%char || Ascii.eqb c "013"%char.

(** The shortest run of non-terminator characters up to the next [;]. *)
Fixpoint lazyUntilSemicolon (s : string) : option string :=
  match s with
  | EmptyString => None
  | String c rest =>
      if Ascii.eqb c ";"%char then Some EmptyString
      else if isLineTerminator c then None
      else option_map (String c) (lazyUntilSemicolon rest)
  end.

(** Capture group 1 of [s.match(/:(.*?);/)], when the match succeeds. *)
Fixpoint mimeMatch (s : string) : option string :=
  match s with
  | EmptyString => None
  | String c rest =>
      if Ascii.eqb c ":"%char then
        match lazyUntilSemicolon rest with
        | Some captured => Some captured
        | None => mimeMatch rest
        end
      else mimeMatch rest
  end.

(** What [trim] strips (WhiteSpace and LineTerminator) among the code
    units below 256: tab, line feed, vertical tab, form feed, carriage
    return, space and the no-break space U+00A0. *)
Definition isWhitespace (c : ascii) : bool :=
  let n := nat_of_ascii c in
  ((9 <=? n)%nat && (n <=? 13)%nat) || (n =? 32)%nat || (n =? 160)%nat.

(** [!s.trim()]: the string is empty once trimmed. *)
Definition isBlank (s : string) : bool :=
  forallb isWhitespace (list_ascii_of_string s).




(** [s.lastIndexOf(c)], scanning from [index] with the last hit so far. *)
Fixpoint lastIndexOfFrom (c : ascii) (s : string) (index found : Z) : Z :=
  match s with
  | EmptyString => found
  | String d rest =>
      lastIndexOfFrom c rest (index + 1) (if Ascii.eqb d c then index else found)
  end.

(** [s.lastIndexOf(c)]: the index of the last [c], or -1. *)
Definition lastIndexOf (c : ascii) (s : string) : Z :=
  lastIndexOfFrom c s 0 (-1).

Fixpoint dropChars (n : nat) (s : string) : string :=
  match n, s with
  | O, _ => s
  | S m, String _ rest => dropChars m rest
  | S _, EmptyString => EmptyString
  end.

(** [s.substring(start)]: a negative start counts as 0. *)
Definition substringFrom (start : Z) (s : string) : string :=
  dropChars (Z.to_nat start) s.

(** Template-literal rendering of a non-negative integer. *)
Definition numberToString (n : N) : string :=
  NilZero.string_of_uint (N.to_uint n).

(** A character of the range U+0020..U+007E. *)
Definition isPrintableAscii (c : ascii) : bool :=
  let n := nat_of_ascii c in (32 <=? n)%nat && (n <=? 126)%nat.

Definition isAsciiUpper (c : ascii) : bool :=
  let n := nat_of_ascii c in (65 <=? n)%nat && (n <=? 90)%nat.

Definition toAsciiLower (c : ascii) : ascii :=
  if isAsciiUpper c then ascii_of_nat (nat_of_ascii c + 32) else c.

Fixpoint asciiLowercase (s : string) : string :=
  match s with
  | EmptyString => EmptyString
  | String c rest => String (toAsciiLower c) (asciiLowercase rest)
  end.

(** The [type] of a [new File(bits, name, {type})] (or [Blob]): empty
    when the option holds a character outside U+0020..U+007E, else the
    option in ASCII lower case. *)
Definition blobType (type : string) : string :=
  if forallb isPrintableAscii (list_ascii_of_string type)
  then asciiLowercase type
  else "".

(** ** Browser facilities the code calls *)

Class Browser := {
  (** [atob]: base64 decoding, throws on malformed input *)
  atob : string -> Completion string;
  (** [URL.createObjectURL] *)
  createObjectURL : File -> string;
  (** [await fileToDataURL(file)]: the data URL a [FileReader] gives,
      or what its [onerror] rejects with *)
  fileToDataURL : File -> Completion string
}.

(** Helper to convert a data URL string to a [File] object. *)
Definition dataURLtoFile {B : Browser} (dataurl filename : string) : Completion File :=
  match split ","%char dataurl with
  | arr0 :: arr1 :: _ =>
      match mimeMatch arr0 with
      | Some mime =>
          if String.eqb mime "" then
            Throw (ErrorObject "Could not parse MIME type from data URL")
          else
            bstr ← atob arr1;
            Normal {| file_name := filename; file_type := blobType mime; file_data := bstr |}
      | None => Throw (ErrorObject "Could not parse MIME type from data URL")
      end
  | _ => Throw (ErrorObject "Invalid data URL")
  end.

(** [bstr.charCodeAt(n)] as a [Uint8Array] cell takes it (a missing
    character, NaN, is stored as 0). *)
Definition charCodeAt (bstr : string) (n : nat) : N :=
  match String.get n bstr with
  | Some c => N_of_ascii c
  | None => 0%N
  end.

(** [while(n--){ u8arr[n] = bstr.charCodeAt(n); }] *)
Fixpoint copyCharCodes (bstr : string) (n : nat) (u8arr : list N) : list N :=
  match n with
  | O => u8arr
  | S m => copyCharCodes bstr m (<[m := charCodeAt bstr m]> u8arr)
  end.

(** The byte array [dataURLtoFile] hands to the [File] constructor:
    [new Uint8Array(n)], filled from the decoded string. *)
Definition binaryStringToBytes (bstr : string) : list N :=
  copyCharCodes bstr (String.length bstr) (replicate (String.length bstr) 0%N).

(** ** The [ImageUploader] component *)

Module ImageUploader.
Section Component.
Context {num : Type} {JS : JsNumber num}.
Local Open Scope js_scope.

(** Component state ([useState] hooks). *)
Record State := {
  isDraggingOver : bool;
  orbPosition : option (Point num);
  fileTypeError : option string;
  imageUrlInput : string;
  isFetchingUrl : bool;
  urlError : option string
}.

(** The props the handlers read, with [imgRef.current]. *)
Record Props := {
  isDropZone : bool;
  hasOnProductDrop : bool;
  img : option (Img num)
}.

(** What a handler does to the outside world. *)
Inductive Effect :=
| OnProductDrop (position : Point num) (relativePosition : RelativePosition num)
| OnFileSelect (file : File)
| ConsoleWarn (message : string).

(** The part of a mouse or drag event the handlers read. *)
Record PointerEvent := {
  clientX : num;
  clientY : num;
  currentTarget : DOMRect num;
  files : list File
}.

(** A shared handler for both click and drop placements. *)
Definition handlePlacement (props : Props) (clientX clientY : num)
    (containerRect : DOMRect num) : list Effect :=
  match img props with
  | None => []
  | Some img =>
    if negb (hasOnProductDrop props) then [] else
    let containerWidth := rect_width containerRect in
    let containerHeight := rect_height containerRect in
    let imageAspectRatio := naturalWidth img / naturalHeight img in
    let containerAspectRatio := containerWidth / containerHeight in
    let '(renderedWidth, renderedHeight) :=
      if imageAspectRatio >? containerAspectRatio
      then (containerWidth, containerWidth / imageAspectRatio)
      else (containerHeight * imageAspectRatio, containerHeight) in
    let offsetX := (containerWidth - renderedWidth) / js_two in
    let offsetY := (containerHeight - renderedHeight) / js_two in
    let pointX := clientX - rect_left containerRect in
    let pointY := clientY - rect_top containerRect in
    let imageX := pointX - offsetX in
    let imageY := pointY - offsetY in
    if (imageX <? js_zero) || (imageX >? renderedWidth)
       || (imageY <? js_zero) || (imageY >? renderedHeight)
    then [ConsoleWarn "Action was outside the image boundaries."]
    else
      let xPercent := imageX / renderedWidth * js_hundred in
      let yPercent := imageY / renderedHeight * js_hundred in
      [OnProductDrop {| px := pointX; py := pointY |}
                     {| xPercent := xPercent; yPercent := yPercent |}]
  end.

Definition handleClick (props : Props) (event : PointerEvent) (s : State)
    : State * list Effect :=
  if isDropZone props && hasOnProductDrop props
  then (s, handlePlacement props (clientX event) (clientY event) (currentTarget event))
  else (s, []).

Definition handleDragOver (props : Props) (event : PointerEvent) (s : State) : State :=
  {| isDraggingOver := true;
     orbPosition :=
       if isDropZone props && hasOnProductDrop props
       then Some {| px := clientX event - rect_left (currentTarget event);
                    py := clientY event - rect_top (currentTarget event) |}
       else orbPosition s;
     fileTypeError := fileTypeError s;
     imageUrlInput := imageUrlInput s;
     isFetchingUrl := isFetchingUrl s;
     urlError := urlError s |}.

Definition handleDragLeave (s : State) : State :=
  {| isDraggingOver := false;
     orbPosition := None;
     fileTypeError := fileTypeError s;
     imageUrlInput := imageUrlInput s;
     isFetchingUrl := isFetchingUrl s;
     urlError := urlError s |}.

Definition allowedTypes : list string := ["image/jpeg"; "image/png"].

Definition handleDrop (props : Props) (event : PointerEvent) (s : State)
    : State * list Effect :=
  let cleared :=
    {| isDraggingOver := false;
       orbPosition := None;
       fileTypeError := fileTypeError s;
       imageUrlInput := imageUrlInput s;
       isFetchingUrl := isFetchingUrl s;
       urlError := None |} in
  if isDropZone props && hasOnProductDrop props then
    (cleared, handlePlacement props (clientX event) (clientY event) (currentTarget event))
  else
    match files event with
    | file :: _ =>
        if String.prefix "image/" (file_type file) then
          ({| isDraggingOver := false;
              orbPosition := None;
              fileTypeError :=
                if existsb (String.eqb (file_type file)) allowedTypes then None
                else Some "For best results, please use PNG, JPG, or JPEG formats.";
              imageUrlInput := imageUrlInput s;
              isFetchingUrl := isFetchingUrl s;
              urlError := None |},
           [OnFileSelect file])
        else (cleared, [])
    | [] => (cleared, [])
    end.

(** The file input: unlike a drop, any chosen file is passed on. *)
Definition handleFileChange (chosen : list File) (s : State) : State * list Effect :=
  match chosen with
  | file :: _ =>
      ({| isDraggingOver := isDraggingOver s;
          orbPosition := orbPosition s;
          fileTypeError :=
            if existsb (String.eqb (file_type file)) allowedTypes then None
            else Some "For best results, please use PNG, JPG, or JPEG formats.";
          imageUrlInput := imageUrlInput s;
          isFetchingUrl := isFetchingUrl s;
          urlError := None |},
       [OnFileSelect file])
  | [] =>
      ({| isDraggingOver := isDraggingOver s;
          orbPosition := orbPosition s;
          fileTypeError := fileTypeError s;
          imageUrlInput := imageUrlInput s;
          isFetchingUrl := isFetchingUrl s;
          urlError := None |},
       [])
  end.

(** [imageUrlInput.substring(imageUrlInput.lastIndexOf('/') + 1)
      .split('?')[0] || 'downloaded-image'] *)
Definition filenameFromUrl (url : string) : string :=
  let name := hd "" (split "?"%char (substringFrom (lastIndexOf "/"%char url + 1) url)) in
  if String.eqb name "" then "downloaded-image" else name.




End Component.

Arguments State : clear implicits.
Arguments Props : clear implicits.
Arguments Effect : clear implicits.
Arguments PointerEvent : clear implicits.
End ImageUploader.

(** ** The [App] component *)

Module App.

(** A product of the catalogue ([types.ts]). *)
Record Product := {
  product_id : N;
  product_name : string;
  product_imageUrl : string;
  product_silhouetteUrl : option string
}.

Inductive PlacementStyle := on_surface | against_wall.

Inductive SurfaceKind := color | texture.

(** What [generateCompositeImage] resolves to. *)
Record CompositeResult := {
  finalImageUrl : string;
  resultDebugImageUrl : string;
  finalPrompt : string
}.

Definition loadingMessages : list string :=
  ["Analyzing your product...";
   "Surveying the scene...";
   "Describing placement location with AI...";
   "Crafting the perfect composition prompt...";
   "Generating photorealistic options...";
   "Assembling the final scene..."].

(** The interval tick: [prevIndex => (prevIndex + 1) % loadingMessages.length] *)
Definition nextLoadingMessageIndex (prevIndex : nat) : nat :=
  (prevIndex + 1) mod length loadingMessages.

Section Component.
Context {num : Type} {JS : JsNumber num} {B : Browser}.
Local Open Scope list_scope.

Record ContextMenu := {
  screenX : num;
  screenY : num;
  containerX : num;
  containerY : num;
  relativeX : num;
  relativeY : num
}.

Record SurfaceModification := {
  mod_type : SurfaceKind;
  mod_position : RelativePosition num
}.

(** The component state: the [useState] hooks and, last, the two
    [useRef] history arrays ([undoHistoryRef.current],
    [redoHistoryRef.current]), oldest entry first. *)
Record State := {
  products : list Product;
  productFiles : gmap N File;
  activeProductId : option N;
  sceneImage : option File;
  isLoading : bool;
  error : option string;
  persistedOrbPosition : option (Point num);
  debugImageUrl : option string;
  debugPrompt : option string;
  sceneDesignPrompt : string;
  placementContextMenu : option ContextMenu;
  surfaceModificationState : option SurfaceModification;
  isTouchDragging : bool;
  touchGhostPosition : option (Point num);
  isHoveringDropZone : bool;
  touchOrbPosition : option (Point num);
  canUndo : bool;
  canRedo : bool;
  undoHistory : list File;
  redoHistory : list File
}.

(** The state setters: each replaces one hook's value. *)

Definition setProducts (v : list Product) (s : State) : State :=
  {| products := v;
     productFiles := productFiles s;
     activeProductId := activeProductId s;
     sceneImage := sceneImage s;
     isLoading := isLoading s;
     error := error s;
     persistedOrbPosition := persistedOrbPosition s;
     debugImageUrl := debugImageUrl s;
     debugPrompt := debugPrompt s;
     sceneDesignPrompt := sceneDesignPrompt s;
     placementContextMenu := placementContextMenu s;
     surfaceModificationState := surfaceModificationState s;
     isTouchDragging := isTouchDragging s;
     touchGhostPosition := touchGhostPosition s;
     isHoveringDropZone := isHoveringDropZone s;
     touchOrbPosition := touchOrbPosition s;
     canUndo := canUndo s;
     canRedo := canRedo s;
     undoHistory := undoHistory s;
     redoHistory := redoHistory s |}.

Definition setProductFiles (v : gmap N File) (s : State) : State :=
  {| products := products s;
     productFiles := v;
     activeProductId := activeProductId s;
     sceneImage := sceneImage s;
     isLoading := isLoading s;
     error := error s;
     persistedOrbPosition := persistedOrbPosition s;
     debugImageUrl := debugImageUrl s;
     debugPrompt := debugPrompt s;
     sceneDesignPrompt := sceneDesignPrompt s;
     placementContextMenu := placementContextMenu s;
     surfaceModificationState := surfaceModificationState s;
     isTouchDragging := isTouchDragging s;
     touchGhostPosition := touchGhostPosition s;
     isHoveringDropZone := isHoveringDropZone s;
     touchOrbPosition := touchOrbPosition s;
     canUndo := canUndo s;
     canRedo := canRedo s;
     undoHistory := undoHistory s;
     redoHistory := redoHistory s |}.

Definition setActiveProductId (v : option N) (s : State) : State :=
  {| products := products s;
     productFiles := productFiles s;
     activeProductId := v;
     sceneImage := sceneImage s;
     isLoading := isLoading s;
     error := error s;
     persistedOrbPosition := persistedOrbPosition s;
     debugImageUrl := debugImageUrl s;
     debugPrompt := debugPrompt s;
     sceneDesignPrompt := sceneDesignPrompt s;
     placementContextMenu := placementContextMenu s;
     surfaceModificationState := surfaceModificationState s;
     isTouchDragging := isTouchDragging s;
     touchGhostPosition := touchGhostPosition s;
     isHoveringDropZone := isHoveringDropZone s;
     touchOrbPosition := touchOrbPosition s;
     canUndo := canUndo s;
     canRedo := canRedo s;
     undoHistory := undoHistory s;
     redoHistory := redoHistory s |}.

Definition setSceneImage (v : option File) (s : State) : State :=
  {| products := products s;
     productFiles := productFiles s;
     activeProductId := activeProductId s;
     sceneImage := v;
     isLoading := isLoading s;
     error := error s;
     persistedOrbPosition := persistedOrbPosition s;
     debugImageUrl := debugImageUrl s;
     debugPrompt := debugPrompt s;
     sceneDesignPrompt := sceneDesignPrompt s;
     placementContextMenu := placementContextMenu s;
     surfaceModificationState := surfaceModificationState s;
     isTouchDragging := isTouchDragging s;
     touchGhostPosition := touchGhostPosition s;
     isHoveringDropZone := isHoveringDropZone s;
     touchOrbPosition := touchOrbPosition s;
     canUndo := canUndo s;
     canRedo := canRedo s;
     undoHistory := undoHistory s;
     redoHistory := redoHistory s |}.

Definition setIsLoading (v : bool) (s : State) : State :=
  {| products := products s;
     productFiles := productFiles s;
     activeProductId := activeProductId s;
     sceneImage := sceneImage s;
     isLoading := v;
     error := error s;
     persistedOrbPosition := persistedOrbPosition s;
     debugImageUrl := debugImageUrl s;
     debugPrompt := debugPrompt s;
     sceneDesignPrompt := sceneDesignPrompt s;
     placementContextMenu := placementContextMenu s;
     surfaceModificationState := surfaceModificationState s;
     isTouchDragging := isTouchDragging s;
     touchGhostPosition := touchGhostPosition s;
     isHoveringDropZone := isHoveringDropZone s;
     touchOrbPosition := touchOrbPosition s;
     canUndo := canUndo s;
     canRedo := canRedo s;
     undoHistory := undoHistory s;
     redoHistory := redoHistory s |}.

Definition setError (v : option string) (s : State) : State :=
  {| products := products s;
     productFiles := productFiles s;
     activeProductId := activeProductId s;
     sceneImage := sceneImage s;
     isLoading := isLoading s;
     error := v;
     persistedOrbPosition := persistedOrbPosition s;
     debugImageUrl := debugImageUrl s;
     debugPrompt := debugPrompt s;
     sceneDesignPrompt := sceneDesignPrompt s;
     placementContextMenu := placementContextMenu s;
     surfaceModificationState := surfaceModificationState s;
     isTouchDragging := isTouchDragging s;
     touchGhostPosition := touchGhostPosition s;
     isHoveringDropZone := isHoveringDropZone s;
     touchOrbPosition := touchOrbPosition s;
     canUndo := canUndo s;
     canRedo := canRedo s;
     undoHistory := undoHistory s;
     redoHistory := redoHistory s |}.

Definition setPersistedOrbPosition (v : option (Point num)) (s : State) : State :=
  {| products := products s;
     productFiles := productFiles s;
     activeProductId := activeProductId s;
     sceneImage := sceneImage s;
     isLoading := isLoading s;
     error := error s;
     persistedOrbPosition := v;
     debugImageUrl := debugImageUrl s;
     debugPrompt := debugPrompt s;
     sceneDesignPrompt := sceneDesignPrompt s;
     placementContextMenu := placementContextMenu s;
     surfaceModificationState := surfaceModificationState s;
     isTouchDragging := isTouchDragging s;
     touchGhostPosition := touchGhostPosition s;
     isHoveringDropZone := isHoveringDropZone s;
     touchOrbPosition := touchOrbPosition s;
     canUndo := canUndo s;
     canRedo := canRedo s;
     undoHistory := undoHistory s;
     redoHistory := redoHistory s |}.

Definition setDebugImageUrl (v : option string) (s : State) : State :=
  {| products := products s;
     productFiles := productFiles s;
     activeProductId := activeProductId s;
     sceneImage := sceneImage s;
     isLoading := isLoading s;
     error := error s;
     persistedOrbPosition := persistedOrbPosition s;
     debugImageUrl := v;
     debugPrompt := debugPrompt s;
     sceneDesignPrompt := sceneDesignPrompt s;
     placementContextMenu := placementContextMenu s;
     surfaceModificationState := surfaceModificationState s;
     isTouchDragging := isTouchDragging s;
     touchGhostPosition := touchGhostPosition s;
     isHoveringDropZone := isHoveringDropZone s;
     touchOrbPosition := touchOrbPosition s;
     canUndo := canUndo s;
     canRedo := canRedo s;
     undoHistory := undoHistory s;
     redoHistory := redoHistory s |}.

Definition setDebugPrompt (v : option string) (s : State) : State :=
  {| products := products s;
     productFiles := productFiles s;
     activeProductId := activeProductId s;
     sceneImage := sceneImage s;
     isLoading := isLoading s;
     error := error s;
     persistedOrbPosition := persistedOrbPosition s;
     debugImageUrl := debugImageUrl s;
     debugPrompt := v;
     sceneDesignPrompt := sceneDesignPrompt s;
     placementContextMenu := placementContextMenu s;
     surfaceModificationState := surfaceModificationState s;
     isTouchDragging := isTouchDragging s;
     touchGhostPosition := touchGhostPosition s;
     isHoveringDropZone := isHoveringDropZone s;
     touchOrbPosition := touchOrbPosition s;
     canUndo := canUndo s;
     canRedo := canRedo s;
     undoHistory := undoHistory s;
     redoHistory := redoHistory s |}.

Definition setSceneDesignPrompt (v : string) (s : State) : State :=
  {| products := products s;
     productFiles := productFiles s;
     activeProductId := activeProductId s;
     sceneImage := sceneImage s;
     isLoading := isLoading s;
     error := error s;
     persistedOrbPosition := persistedOrbPosition s;
     debugImageUrl := debugImageUrl s;
     debugPrompt := debugPrompt s;
     sceneDesignPrompt := v;
     placementContextMenu := placementContextMenu s;
     surfaceModificationState := surfaceModificationState s;
     isTouchDragging := isTouchDragging s;
     touchGhostPosition := touchGhostPosition s;
     isHoveringDropZone := isHoveringDropZone s;
     touchOrbPosition := touchOrbPosition s;
     canUndo := canUndo s;
     canRedo := canRedo s;
     undoHistory := undoHistory s;
     redoHistory := redoHistory s |}.

Definition setPlacementContextMenu (v : option ContextMenu) (s : State) : State :=
  {| products := products s;
     productFiles := productFiles s;
     activeProductId := activeProductId s;
     sceneImage := sceneImage s;
     isLoading := isLoading s;
     error := error s;
     persistedOrbPosition := persistedOrbPosition s;
     debugImageUrl := debugImageUrl s;
     debugPrompt := debugPrompt s;
     sceneDesignPrompt := sceneDesignPrompt s;
     placementContextMenu := v;
     surfaceModificationState := surfaceModificationState s;
     isTouchDragging := isTouchDragging s;
     touchGhostPosition := touchGhostPosition s;
     isHoveringDropZone := isHoveringDropZone s;
     touchOrbPosition := touchOrbPosition s;
     canUndo := canUndo s;
     canRedo := canRedo s;
     undoHistory := undoHistory s;
     redoHistory := redoHistory s |}.

Definition setSurfaceModificationState (v : option SurfaceModification) (s : State) : State :=
  {| products := products s;
     productFiles := productFiles s;
     activeProductId := activeProductId s;
     sceneImage := sceneImage s;
     isLoading := isLoading s;
     error := error s;
     persistedOrbPosition := persistedOrbPosition s;
     debugImageUrl := debugImageUrl s;
     debugPrompt := debugPrompt s;
     sceneDesignPrompt := sceneDesignPrompt s;
     placementContextMenu := placementContextMenu s;
     surfaceModificationState := v;
     isTouchDragging := isTouchDragging s;
     touchGhostPosition := touchGhostPosition s;
     isHoveringDropZone := isHoveringDropZone s;
     touchOrbPosition := touchOrbPosition s;
     canUndo := canUndo s;
     canRedo := canRedo s;
     undoHistory := undoHistory s;
     redoHistory := redoHistory s |}.

Definition setIsTouchDragging (v : bool) (s : State) : State :=
  {| products := products s;
     productFiles := productFiles s;
     activeProductId := activeProductId s;
     sceneImage := sceneImage s;
     isLoading := isLoading s;
     error := error s;
     persistedOrbPosition := persistedOrbPosition s;
     debugImageUrl := debugImageUrl s;
     debugPrompt := debugPrompt s;
     sceneDesignPrompt := sceneDesignPrompt s;
     placementContextMenu := placementContextMenu s;
     surfaceModificationState := surfaceModificationState s;
     isTouchDragging := v;
     touchGhostPosition := touchGhostPosition s;
     isHoveringDropZone := isHoveringDropZone s;
     touchOrbPosition := touchOrbPosition s;
     canUndo := canUndo s;
     canRedo := canRedo s;
     undoHistory := undoHistory s;
     redoHistory := redoHistory s |}.

Definition setTouchGhostPosition (v : option (Point num)) (s : State) : State :=
  {| products := products s;
     productFiles := productFiles s;
     activeProductId := activeProductId s;
     sceneImage := sceneImage s;
     isLoading := isLoading s;
     error := error s;
     persistedOrbPosition := persistedOrbPosition s;
     debugImageUrl := debugImageUrl s;
     debugPrompt := debugPrompt s;
     sceneDesignPrompt := sceneDesignPrompt s;
     placementContextMenu := placementContextMenu s;
     surfaceModificationState := surfaceModificationState s;
     isTouchDragging := isTouchDragging s;
     touchGhostPosition := v;
     isHoveringDropZone := isHoveringDropZone s;
     touchOrbPosition := touchOrbPosition s;
     canUndo := canUndo s;
     canRedo := canRedo s;
     undoHistory := undoHistory s;
     redoHistory := redoHistory s |}.

Definition setIsHoveringDropZone (v : bool) (s : State) : State :=
  {| products := products s;
     productFiles := productFiles s;
     activeProductId := activeProductId s;
     sceneImage := sceneImage s;
     isLoading := isLoading s;
     error := error s;
     persistedOrbPosition := persistedOrbPosition s;
     debugImageUrl := debugImageUrl s;
     debugPrompt := debugPrompt s;
     sceneDesignPrompt := sceneDesignPrompt s;
     placementContextMenu := placementContextMenu s;
     surfaceModificationState := surfaceModificationState s;
     isTouchDragging := isTouchDragging s;
     touchGhostPosition := touchGhostPosition s;
     isHoveringDropZone := v;
     touchOrbPosition := touchOrbPosition s;
     canUndo := canUndo s;
     canRedo := canRedo s;
     undoHistory := undoHistory s;
     redoHistory := redoHistory s |}.

Definition setTouchOrbPosition (v : option (Point num)) (s : State) : State :=
  {| products := products s;
     productFiles := productFiles s;
     activeProductId := activeProductId s;
     sceneImage := sceneImage s;
     isLoading := isLoading s;
     error := error s;
     persistedOrbPosition := persistedOrbPosition s;
     debugImageUrl := debugImageUrl s;
     debugPrompt := debugPrompt s;
     sceneDesignPrompt := sceneDesignPrompt s;
     placementContextMenu := placementContextMenu s;
     surfaceModificationState := surfaceModificationState s;
     isTouchDragging := isTouchDragging s;
     touchGhostPosition := touchGhostPosition s;
     isHoveringDropZone := isHoveringDropZone s;
     touchOrbPosition := v;
     canUndo := canUndo s;
     canRedo := canRedo s;
     undoHistory := undoHistory s;
     redoHistory := redoHistory s |}.

Definition setCanUndo (v : bool) (s : State) : State :=
  {| products := products s;
     productFiles := productFiles s;
     activeProductId := activeProductId s;
     sceneImage := sceneImage s;
     isLoading := isLoading s;
     error := error s;
     persistedOrbPosition := persistedOrbPosition s;
     debugImageUrl := debugImageUrl s;
     debugPrompt := debugPrompt s;
     sceneDesignPrompt := sceneDesignPrompt s;
     placementContextMenu := placementContextMenu s;
     surfaceModificationState := surfaceModificationState s;
     isTouchDragging := isTouchDragging s;
     touchGhostPosition := touchGhostPosition s;
     isHoveringDropZone := isHoveringDropZone s;
     touchOrbPosition := touchOrbPosition s;
     canUndo := v;
     canRedo := canRedo s;
     undoHistory := undoHistory s;
     redoHistory := redoHistory s |}.

Definition setCanRedo (v : bool) (s : State) : State :=
  {| products := products s;
     productFiles := productFiles s;
     activeProductId := activeProductId s;
     sceneImage := sceneImage s;
     isLoading := isLoading s;
     error := error s;
     persistedOrbPosition := persistedOrbPosition s;
     debugImageUrl := debugImageUrl s;
     debugPrompt := debugPrompt s;
     sceneDesignPrompt := sceneDesignPrompt s;
     placementContextMenu := placementContextMenu s;
     surfaceModificationState := surfaceModificationState s;
     isTouchDragging := isTouchDragging s;
     touchGhostPosition := touchGhostPosition s;
     isHoveringDropZone := isHoveringDropZone s;
     touchOrbPosition := touchOrbPosition s;
     canUndo := canUndo s;
     canRedo := v;
     undoHistory := undoHistory s;
     redoHistory := redoHistory s |}.

Definition setUndoHistory (v : list File) (s : State) : State :=
  {| products := products s;
     productFiles := productFiles s;
     activeProductId := activeProductId s;
     sceneImage := sceneImage s;
     isLoading := isLoading s;
     error := error s;
     persistedOrbPosition := persistedOrbPosition s;
     debugImageUrl := debugImageUrl s;
     debugPrompt := debugPrompt s;
     sceneDesignPrompt := sceneDesignPrompt s;
     placementContextMenu := placementContextMenu s;
     surfaceModificationState := surfaceModificationState s;
     isTouchDragging := isTouchDragging s;
     touchGhostPosition := touchGhostPosition s;
     isHoveringDropZone := isHoveringDropZone s;
     touchOrbPosition := touchOrbPosition s;
     canUndo := canUndo s;
     canRedo := canRedo s;
     undoHistory := v;
     redoHistory := redoHistory s |}.

Definition setRedoHistory (v : list File) (s : State) : State :=
  {| products := products s;
     productFiles := productFiles s;
     activeProductId := activeProductId s;
     sceneImage := sceneImage s;
     isLoading := isLoading s;
     error := error s;
     persistedOrbPosition := persistedOrbPosition s;
     debugImageUrl := debugImageUrl s;
     debugPrompt := debugPrompt s;
     sceneDesignPrompt := sceneDesignPrompt s;
     placementContextMenu := placementContextMenu s;
     surfaceModificationState := surfaceModificationState s;
     isTouchDragging := isTouchDragging s;
     touchGhostPosition := touchGhostPosition s;
     isHoveringDropZone := isHoveringDropZone s;
     touchOrbPosition := touchOrbPosition s;
     canUndo := canUndo s;
     canRedo := canRedo s;
     undoHistory := undoHistory s;
     redoHistory := v |}.

Notation "s |> f" := (f s) (at level 45, left associativity, only parsing).

Definition initialState : State :=
  {| products := [];
     productFiles := ∅;
     activeProductId := None;
     sceneImage := None;
     isLoading := false;
     error := None;
     persistedOrbPosition := None;
     debugImageUrl := None;
     debugPrompt := None;
     sceneDesignPrompt := "";
     placementContextMenu := None;
     surfaceModificationState := None;
     isTouchDragging := false;
     touchGhostPosition := None;
     isHoveringDropZone := false;
     touchOrbPosition := None;
     canUndo := false;
     canRedo := false;
     undoHistory := [];
     redoHistory := [] |}.

(** [products.find(p => p.id === activeProductId) || null] *)
Definition activeProduct (s : State) : option Product :=
  find (fun p => bool_decide (Some (product_id p) = activeProductId s)) (products s).

(** *** The external generation service *)

Inductive GeneratorCall :=
| GenerateCompositeImage (productFile : File) (productName : string)
    (scene : File) (sceneName : string)
    (relativePosition : RelativePosition num) (placementStyle : PlacementStyle)
| GenerateInteriorDesign (scene : File) (instruction : string)
| ModifySurface (scene : File) (position : RelativePosition num)
    (kind : SurfaceKind) (description : string)
| GenerateProductSilhouette (file : File)
| FetchDefaultImages.

(** What a handler suspended at an [await] still holds in its closure. *)
Inductive Pending :=
| AwaitComposite (previousScene : File)
| AwaitRedesign (previousScene : File)
| AwaitSurface (previousScene : File)
| AwaitSilhouette (newProductId : N)
| AwaitDefaultImages.

(** A call sent out, with the continuation waiting for it. *)
Record Issued := {
  call : GeneratorCall;
  continuation : Pending
}.

(** *** History *)

(** [undoHistoryRef.current.push(previousScene)] followed by the
    size limit: [if (length > 10) shift()]. *)
Definition pushLimited (previousScene : File) (history : list File) : list File :=
  let pushed := history ++ [previousScene] in
  if (10 <? length pushed)%nat then tail pushed else pushed.

(** The success path shared, line for line, by the three mutation
    handlers: replace the scene, record the previous one for undo,
    clear the redo history. *)
Definition commit (previousScene newSceneFile : File) (s : State) : State :=
  s |> setSceneImage (Some newSceneFile)
    |> setUndoHistory (pushLimited previousScene (undoHistory s))
    |> setRedoHistory []
    |> setCanUndo true
    |> setCanRedo false.

(** [array.pop()]: the last element and the array without it. *)
Definition pop (history : list File) : option File * list File :=
  (last history, removelast history).

Definition handleUndo (s : State) : State :=
  match sceneImage s with
  | None => s
  | Some current =>
      if (length (undoHistory s) =? 0)%nat then s else
      let '(previousScene, undo) := pop (undoHistory s) in
      let s1 := setUndoHistory undo s in
      let s2 :=
        match previousScene with
        | Some previousScene =>
            s1 |> setRedoHistory (redoHistory s1 ++ [current])
               |> setSceneImage (Some previousScene)
        | None => s1
        end in
      s2 |> setCanUndo (0 <? length (undoHistory s2))%nat
         |> setCanRedo true
  end.

Definition handleRedo (s : State) : State :=
  match sceneImage s with
  | None => s
  | Some current =>
      if (length (redoHistory s) =? 0)%nat then s else
      let '(nextScene, redo) := pop (redoHistory s) in
      let s1 := setRedoHistory redo s in
      let s2 :=
        match nextScene with
        | Some nextScene =>
            s1 |> setUndoHistory (undoHistory s1 ++ [current])
               |> setSceneImage (Some nextScene)
        | None => s1
        end in
      s2 |> setCanRedo (0 <? length (redoHistory s2))%nat
         |> setCanUndo true
  end.

Definition handleReset (s : State) : State :=
  s |> setProducts []
    |> setProductFiles ∅
    |> setActiveProductId None
    |> setSceneImage None
    |> setError None
    |> setIsLoading false
    |> setPersistedOrbPosition None
    |> setDebugImageUrl None
    |> setDebugPrompt None
    |> setSceneDesignPrompt ""
    |> setPlacementContextMenu None
    |> setSurfaceModificationState None
    |> setUndoHistory []
    |> setRedoHistory []
    |> setCanUndo false
    |> setCanRedo false.

Definition handleChangeScene (s : State) : State :=
  s |> setSceneImage None
    |> setPersistedOrbPosition None
    |> setDebugImageUrl None
    |> setDebugPrompt None
    |> setSceneDesignPrompt ""
    |> setPlacementContextMenu None
    |> setSurfaceModificationState None
    |> setUndoHistory []
    |> setRedoHistory []
    |> setCanUndo false
    |> setCanRedo false.

(** *** Mutations through the generation service

    Each asynchronous handler is split at its [await]: the part that
    runs at once returns the state it leaves and the call it sends out;
    the part that runs when the call settles is the [resume] function
    of the same handler, applied to the state of that later moment. *)

Definition handleProductDrop (position : Point num)
    (relativePosition : RelativePosition num) (placementStyle : PlacementStyle)
    (s : State) : State * list Issued :=
  let currentActiveProduct :=
    find (fun p => bool_decide (Some (product_id p) = activeProductId s)) (products s) in
  let currentActiveProductFile :=
    match activeProductId s with
    | Some i => if (i =? 0)%N then None else productFiles s !! i
    | None => None
    end in
  match currentActiveProductFile, sceneImage s, currentActiveProduct with
  | Some productFile, Some scene, Some product =>
      (s |> setPersistedOrbPosition (Some position)
         |> setIsLoading true
         |> setError None,
       [{| call := GenerateCompositeImage productFile (product_name product)
                     scene (file_name scene) relativePosition placementStyle;
           continuation := AwaitComposite scene |}])
  | _, _, _ =>
      (setError (Some "Please select a product before placing it.") s, [])
  end.

Definition resumeProductDrop (previousScene : File)
    (reply : Settled CompositeResult) (now : N) (s : State) : State :=
  let caught err s :=
    setError (Some ("Failed to generate the image. " +:+ errorMessage err)) s in
  let finally s := s |> setIsLoading false |> setPersistedOrbPosition None in
  match reply with
  | Fulfilled result =>
      let s1 := s |> setDebugImageUrl (Some (resultDebugImageUrl result))
                  |> setDebugPrompt (Some (finalPrompt result)) in
      match dataURLtoFile (finalImageUrl result)
              ("generated-scene-" +:+ numberToString now +:+ ".jpeg") with
      | Normal newSceneFile => finally (commit previousScene newSceneFile s1)
      | Throw err => finally (caught err s1)
      end
  | Rejected err => finally (caught err s)
  end.

Definition handleSceneDesignGeneration (s : State) : State * list Issued :=
  match sceneImage s with
  | Some scene =>
      if isBlank (sceneDesignPrompt s) then
        (setError (Some "Please provide a scene image and a design instruction.") s, [])
      else
        (s |> setIsLoading true
           |> setError None
           |> setPersistedOrbPosition None,
         [{| call := GenerateInteriorDesign scene (sceneDesignPrompt s);
             continuation := AwaitRedesign scene |}])
  | None =>
      (setError (Some "Please provide a scene image and a design instruction.") s, [])
  end.

Definition resumeSceneDesignGeneration (previousScene : File)
    (reply : Settled string) (now : N) (s : State) : State :=
  let caught err s :=
    setError (Some ("Failed to generate the design. " +:+ errorMessage err)) s in
  let finally s := setIsLoading false s in
  match reply with
  | Fulfilled generatedImageUrl =>
      match dataURLtoFile generatedImageUrl
              ("redesigned-scene-" +:+ numberToString now +:+ ".jpeg") with
      | Normal newSceneFile =>
          finally (commit previousScene newSceneFile s |> setSceneDesignPrompt "")
      | Throw err => finally (caught err s)
      end
  | Rejected err => finally (caught err s)
  end.

Definition handleSurfaceModificationSubmit (modificationValue : string)
    (s : State) : State * list Issued :=
  match surfaceModificationState s, sceneImage s with
  | Some modification, Some scene =>
      (s |> setSurfaceModificationState None
         |> setIsLoading true
         |> setError None
         |> setPersistedOrbPosition None,
       [{| call := ModifySurface scene (mod_position modification)
                     (mod_type modification) modificationValue;
           continuation := AwaitSurface scene |}])
  | _, _ => (s, [])
  end.

Definition resumeSurfaceModificationSubmit (previousScene : File)
    (reply : Settled string) (now : N) (s : State) : State :=
  let caught err s :=
    setError (Some ("Failed to modify the surface. " +:+ errorMessage err)) s in
  let finally s := setIsLoading false s in
  match reply with
  | Fulfilled generatedImageUrl =>
      match dataURLtoFile generatedImageUrl
              ("modified-scene-" +:+ numberToString now +:+ ".jpeg") with
      | Normal newSceneFile => finally (commit previousScene newSceneFile s)
      | Throw err => finally (caught err s)
      end
  | Rejected err => finally (caught err s)
  end.

(** *** Products *)

Definition handleAddProduct (file : File) (now : N) (s : State) : State * list Issued :=
  let newProduct :=
    {| product_id := now;
       product_name := file_name file;
       product_imageUrl := createObjectURL file;
       product_silhouetteUrl := None |} in
  (s |> setError None
     |> setProducts (products s ++ [newProduct])
     |> setProductFiles (<[product_id newProduct := file]> (productFiles s))
     |> setActiveProductId (Some (product_id newProduct)),
   [{| call := GenerateProductSilhouette file;
       continuation := AwaitSilhouette (product_id newProduct) |}]).

Definition resumeAddProduct (newProductId : N) (reply : Settled string) (s : State) : State :=
  match reply with
  | Fulfilled silhouetteUrl =>
      setProducts
        (map (fun p =>
                if (product_id p =? newProductId)%N
                then {| product_id := product_id p;
                        product_name := product_name p;
                        product_imageUrl := product_imageUrl p;
                        product_silhouetteUrl := Some silhouetteUrl |}
                else p)
             (products s)) s
  | Rejected _ => s
  end.

Definition handleInstantStart (s : State) : State * list Issued :=
  (setError None s, [{| call := FetchDefaultImages; continuation := AwaitDefaultImages |}]).

Definition resumeInstantStart (reply : Settled (File * File)) (now : N) (s : State)
    : State * list Issued :=
  match reply with
  | Fulfilled (objectFile, sceneFile) =>
      handleAddProduct objectFile now
        (s |> setUndoHistory []
           |> setRedoHistory []
           |> setCanUndo false
           |> setCanRedo false
           |> setProducts []
           |> setProductFiles ∅
           |> setActiveProductId None
           |> setSceneImage (Some sceneFile))
  | Rejected err =>
      (setError (Some ("Could not load default images. Details: " +:+ errorMessage err)) s,
       [])
  end.

(** *** Placement requests and the context menu *)

Record RequestPosition := {
  req_clientX : num;
  req_clientY : num;
  req_containerX : num;
  req_containerY : num
}.

Definition handlePlacementRequest (position : RequestPosition)
    (relativePosition : RelativePosition num) (s : State) : State :=
  if isLoading s then s else
  s |> setPlacementContextMenu
         (Some {| screenX := req_clientX position;
                  screenY := req_clientY position;
                  containerX := req_containerX position;
                  containerY := req_containerY position;
                  relativeX := xPercent relativePosition;
                  relativeY := yPercent relativePosition |})
    |> setPersistedOrbPosition
         (Some {| px := req_containerX position; py := req_containerY position |}).

Definition closeContextMenu (s : State) : State :=
  s |> setPlacementContextMenu None |> setPersistedOrbPosition None.

Definition handlePlaceProductAction (placementStyle : PlacementStyle) (s : State)
    : State * list Issued :=
  match placementContextMenu s, activeProduct s with
  | Some menu, Some _ =>
      let '(s1, issued) :=
        handleProductDrop
          {| px := containerX menu; py := containerY menu |}
          {| xPercent := relativeX menu; yPercent := relativeY menu |}
          placementStyle s in
      (setPlacementContextMenu None s1, issued)
  | _, _ => (s, [])
  end.

Definition handleModifySurfaceRequest (kind : SurfaceKind) (s : State) : State :=
  match placementContextMenu s with
  | Some menu =>
      s |> setSurfaceModificationState
             (Some {| mod_type := kind;
                      mod_position := {| xPercent := relativeX menu;
                                         yPercent := relativeY menu |} |})
        |> closeContextMenu
  | None => s
  end.

(** *** Touch drag *)

Definition handleTouchStart (touch : Point num) (s : State) : State :=
  match activeProduct s, placementContextMenu s with
  | Some _, None =>
      s |> setIsTouchDragging true
        |> setTouchGhostPosition (Some {| px := px touch; py := py touch |})
  | _, _ => s
  end.

(** [dropZone] is the bounding box of the scene uploader when the
    element under the touch lies inside it. *)
Definition handleTouchMove (touch : Point num) (dropZone : option (DOMRect num))
    (s : State) : State :=
  if negb (isTouchDragging s) then s else
  let s1 := setTouchGhostPosition (Some {| px := px touch; py := py touch |}) s in
  match dropZone with
  | Some rect =>
      s1 |> setTouchOrbPosition
              (Some {| px := (px touch - rect_left rect)%js;
                       py := (py touch - rect_top rect)%js |})
         |> setIsHoveringDropZone true
  | None =>
      s1 |> setIsHoveringDropZone false
         |> setTouchOrbPosition None
  end.

(** [sceneImg] is [sceneImgRef.current]. *)
Definition handleTouchEnd (touch : Point num) (dropZone : option (DOMRect num))
    (sceneImg : option (Img num)) (s : State) : State :=
  if negb (isTouchDragging s) then s else
  let s1 :=
    match dropZone, sceneImg with
    | Some containerRect, Some img =>
        (let containerWidth := rect_width containerRect in
         let containerHeight := rect_height containerRect in
         let imageAspectRatio := naturalWidth img / naturalHeight img in
         let containerAspectRatio := containerWidth / containerHeight in
         let '(renderedWidth, renderedHeight) :=
           if imageAspectRatio >? containerAspectRatio
           then (containerWidth, containerWidth / imageAspectRatio)
           else (containerHeight * imageAspectRatio, containerHeight) in
         let offsetX := (containerWidth - renderedWidth) / js_two in
         let offsetY := (containerHeight - renderedHeight) / js_two in
         let dropX := px touch - rect_left containerRect in
         let dropY := py touch - rect_top containerRect in
         let imageX := dropX - offsetX in
         let imageY := dropY - offsetY in
         if negb ((imageX <? js_zero) || (imageX >? renderedWidth)
                  || (imageY <? js_zero) || (imageY >? renderedHeight))
         then
           let xPercent := imageX / renderedWidth * js_hundred in
           let yPercent := imageY / renderedHeight * js_hundred in
           handlePlacementRequest
             {| req_clientX := px touch; req_clientY := py touch;
                req_containerX := dropX; req_containerY := dropY |}
             {| xPercent := xPercent; yPercent := yPercent |} s
         else s)%js
    | _, _ => s
    end in
  s1 |> setIsTouchDragging false
     |> setTouchGhostPosition None
     |> setIsHoveringDropZone false
     |> setTouchOrbPosition None.

(** *** Saved state ([localStorage]) *)

Record SavedFile := {
  saved_dataUrl : string;
  saved_name : string
}.

(** A saved product: the product without its blob URL, and its image. *)
Record SavedProduct := {
  saved_id : N;
  saved_productName : string;
  saved_silhouetteUrl : option string;
  saved_productDataUrl : string
}.

(** The parsed JSON; [None] stands for a missing (or non-array) field. *)
Record SavedState := {
  saved_products : option (list SavedProduct);
  saved_scene : option SavedFile;
  saved_undoHistory : option (list SavedFile);
  saved_redoHistory : option (list SavedFile);
  saved_activeProductId : option N
}.

Definition restoreFile (item : SavedFile) : Completion File :=
  dataURLtoFile (saved_dataUrl item) (saved_name item).

Fixpoint restoreProductItems (items : list SavedProduct)
    (loadedProducts : list Product) (loadedFiles : gmap N File)
    : Completion (list Product * gmap N File) :=
  match items with
  | [] => Normal (loadedProducts, loadedFiles)
  | item :: rest =>
      if String.eqb (saved_productDataUrl item) "" then
        restoreProductItems rest loadedProducts loadedFiles
      else
        productFile ← dataURLtoFile (saved_productDataUrl item) (saved_productName item);
        restoreProductItems rest
          (loadedProducts ++
             [{| product_id := saved_id item;
                 product_name := saved_productName item;
                 product_imageUrl := createObjectURL productFile;
                 product_silhouetteUrl := saved_silhouetteUrl item |}])
          (<[saved_id item := productFile]> loadedFiles)
  end.

Definition restoreProducts (saved : SavedState) (s : State) : Completion State :=
  match saved_products saved with
  | Some items =>
      '(loadedProducts, loadedFiles) ← restoreProductItems items [] ∅;
      let s1 := s |> setProducts loadedProducts |> setProductFiles loadedFiles in
      Normal
        match saved_activeProductId saved with
        | Some savedActiveId =>
            if negb (savedActiveId =? 0)%N
               && existsb (fun p => (product_id p =? savedActiveId)%N) loadedProducts
            then setActiveProductId (Some savedActiveId) s1
            else s1
        | None => s1
        end
  | None => Normal s
  end.

Definition restoreScene (saved : SavedState) (s : State) : Completion State :=
  match saved_scene saved with
  | Some scene =>
      sceneFile ← restoreFile scene;
      Normal (setSceneImage (Some sceneFile) s)
  | None => Normal s
  end.

Definition restoreUndoHistory (saved : SavedState) (s : State) : Completion State :=
  match saved_undoHistory saved with
  | Some (item :: items) =>
      historyFiles ← mapThrowing restoreFile (item :: items);
      Normal (s |> setUndoHistory historyFiles |> setCanUndo true)
  | _ => Normal s
  end.

Definition restoreRedoHistory (saved : SavedState) (s : State) : Completion State :=
  match saved_redoHistory saved with
  | Some (item :: items) =>
      historyFiles ← mapThrowing restoreFile (item :: items);
      Normal (s |> setRedoHistory historyFiles |> setCanRedo true)
  | _ => Normal s
  end.

(** One step of the [try] block: when it throws, the [catch] keeps
    what the earlier steps have set. *)
Definition attempt (stage : State -> Completion State) (continue : State -> State)
    (s : State) : State :=
  match stage s with
  | Normal s1 => continue s1
  | Throw _ => s
  end.

(** On mount: load the saved state. *)
Definition loadSavedState (saved : SavedState) : State -> State :=
  attempt (restoreProducts saved)
    (attempt (restoreScene saved)
       (attempt (restoreUndoHistory saved)
          (attempt (restoreRedoHistory saved) id))).

(** The state after the first render and its load effect; [stored] is
    [None] when [localStorage] has no parsable entry. *)
Definition mount (stored : option SavedState) : State :=
  match stored with
  | Some saved => loadSavedState saved initialState
  | None => initialState
  end.

Definition saveFile (file : File) : Completion SavedFile :=
  dataUrl ← fileToDataURL file;
  Normal {| saved_dataUrl := dataUrl; saved_name := file_name file |}.

Fixpoint saveProducts (files : gmap N File) (ps : list Product)
    : Completion (list SavedProduct) :=
  match ps with
  | [] => Normal []
  | product :: rest =>
      match files !! product_id product with
      | None => saveProducts files rest
      | Some file =>
          dataUrl ← fileToDataURL file;
          others ← saveProducts files rest;
          Normal ({| saved_id := product_id product;
                     saved_productName := product_name product;
                     saved_silhouetteUrl := product_silhouetteUrl product;
                     saved_productDataUrl := dataUrl |} :: others)
      end
  end.

(** [localStorage.setItem('homeCanvasState', JSON.stringify(state))]:
    throws when the storage has no room for the entry. *)
Class LocalStorage := {
  setItem : SavedState -> Completion ()
}.

Context {L : LocalStorage}.

(** On change: the [saveState] the save effect runs after its delay
    (the effect is skipped during the first render and while
    [isLoading]).  [s] is the render the effect closed over: it gives
    the products, their files, the scene and the selection.  The two
    history refs are read later, each after the awaits that precede
    it: [atUndoRead] and [atRedoRead] are the component states of
    those two moments.  The result is what was written; a file read or
    the write that throws ends the [try] (the [catch] logs it). *)
Definition saveState (s atUndoRead atRedoRead : State) : Completion SavedState :=
  productData ← saveProducts (productFiles s) (products s);
  scene ← match sceneImage s with
          | Some file => saved ← saveFile file; Normal (Some saved)
          | None => Normal None
          end;
  undoHistory ← mapThrowing saveFile (undoHistory atUndoRead);
  redoHistory ← mapThrowing saveFile (redoHistory atRedoRead);
  let stateToSave :=
    {| saved_products := Some productData;
       saved_scene := scene;
       saved_undoHistory := Some undoHistory;
       saved_redoHistory := Some redoHistory;
       saved_activeProductId := activeProductId s |} in
  setItem stateToSave;;
  Normal stateToSave.

(** *** Controls the render enables

    The conditions the JSX puts on the controls that start or step
    through mutations. *)

(** [isDropZone={!!sceneImage && !isLoading}] *)
Definition sceneIsDropZone (s : State) : bool :=
  match sceneImage s with
  | Some _ => negb (isLoading s)
  | None => false
  end.

(** [{sceneImage && !isLoading && (...redesign panel...)}] *)
Definition redesignPanelShown (s : State) : bool :=
  match sceneImage s with
  | Some _ => negb (isLoading s)
  | None => false
  end.

(** [disabled={isLoading || !sceneDesignPrompt.trim()}] *)
Definition redesignDisabled (s : State) : bool :=
  isLoading s || isBlank (sceneDesignPrompt s).

(** [disabled={!canUndo || isLoading}] *)
Definition undoDisabled (s : State) : bool :=
  negb (canUndo s) || isLoading s.

(** [disabled={!canRedo || isLoading}] *)
Definition redoDisabled (s : State) : bool :=
  negb (canRedo s) || isLoading s.

(** *** A mutation that runs to a successful end

    [Commits s newScene s']: one of the three mutation handlers,
    started in state [s], sent its call out, the call was fulfilled
    with an image that decodes to [newScene], and the handler resumed
    right away, leaving state [s']. *)
Inductive Commits (s : State) (newScene : File) : State -> Prop :=
| Commits_place position relativePosition placementStyle s1 c previousScene result now :
    handleProductDrop position relativePosition placementStyle s =
      (s1, [{| call := c; continuation := AwaitComposite previousScene |}]) ->
    dataURLtoFile (finalImageUrl result)
      ("generated-scene-" +:+ numberToString now +:+ ".jpeg") = Normal newScene ->
    Commits s newScene (resumeProductDrop previousScene (Fulfilled result) now s1)
| Commits_surface modificationValue s1 c previousScene generatedImageUrl now :
    handleSurfaceModificationSubmit modificationValue s =
      (s1, [{| call := c; continuation := AwaitSurface previousScene |}]) ->
    dataURLtoFile generatedImageUrl
      ("modified-scene-" +:+ numberToString now +:+ ".jpeg") = Normal newScene ->
    Commits s newScene
      (resumeSurfaceModificationSubmit previousScene (Fulfilled generatedImageUrl) now s1)
| Commits_redesign s1 c previousScene generatedImageUrl now :
    handleSceneDesignGeneration s =
      (s1, [{| call := c; continuation := AwaitRedesign previousScene |}]) ->
    dataURLtoFile generatedImageUrl
      ("redesigned-scene-" +:+ numberToString now +:+ ".jpeg") = Normal newScene ->
    Commits s newScene
      (resumeSceneDesignGeneration previousScene (Fulfilled generatedImageUrl) now s1).

(** *** The component as a transition system *)

(** The component state together with the calls still in flight. *)
Record World := {
  app : State;
  inflight : list Issued
}.

Inductive Event :=
| AddProduct (file : File) (now : N)
| SelectProduct (productId : N)
| SelectSceneFile (file : File)
| InstantStart
| PlacementRequest (position : RequestPosition) (relativePosition : RelativePosition num)
| PlaceProductAction (placementStyle : PlacementStyle)
| ModifySurfaceRequest (kind : SurfaceKind)
| CloseContextMenu
| CloseSurfaceModal
| SurfaceModificationSubmit (modificationValue : string)
| EditSceneDesignPrompt (text : string)
| SceneDesignGeneration
| Reset
| Undo
| Redo
| ChangeScene
| TouchStart (touch : Point num)
| TouchMove (touch : Point num) (dropZone : option (DOMRect num))
| TouchEnd (touch : Point num) (dropZone : option (DOMRect num))
    (sceneImg : option (Img num))
| CompositeSettled (i : nat) (reply : Settled CompositeResult) (now : N)
| ImageSettled (i : nat) (reply : Settled string) (now : N)
| DefaultImagesSettled (i : nat) (reply : Settled (File * File)) (now : N).

Definition sync (f : State -> State) (w : World) : World :=
  {| app := f (app w); inflight := inflight w |}.

Definition async (f : State -> State * list Issued) (w : World) : World :=
  let '(s, issued) := f (app w) in
  {| app := s; inflight := inflight w ++ issued |}.

(** The [i]-th call in flight settles and its continuation runs. *)
Definition settle (i : nat) (resume : Pending -> option (State -> State * list Issued))
    (w : World) : World :=
  match inflight w !! i with
  | Some issued =>
      match resume (continuation issued) with
      | Some k =>
          let '(s, more) := k (app w) in
          {| app := s; inflight := delete i (inflight w) ++ more |}
      | None => w
      end
  | None => w
  end.

Definition step (w : World) (e : Event) : World :=
  match e with
  | AddProduct file now => async (handleAddProduct file now) w
  | SelectProduct productId => sync (setActiveProductId (Some productId)) w
  | SelectSceneFile file => sync (setSceneImage (Some file)) w
  | InstantStart => async handleInstantStart w
  | PlacementRequest position relativePosition =>
      sync (handlePlacementRequest position relativePosition) w
  | PlaceProductAction placementStyle => async (handlePlaceProductAction placementStyle) w
  | ModifySurfaceRequest kind => sync (handleModifySurfaceRequest kind) w
  | CloseContextMenu => sync closeContextMenu w
  | CloseSurfaceModal => sync (setSurfaceModificationState None) w
  | SurfaceModificationSubmit value => async (handleSurfaceModificationSubmit value) w
  | EditSceneDesignPrompt text => sync (setSceneDesignPrompt text) w
  | SceneDesignGeneration => async handleSceneDesignGeneration w
  | Reset => sync handleReset w
  | Undo => sync handleUndo w
  | Redo => sync handleRedo w
  | ChangeScene => sync handleChangeScene w
  | TouchStart touch => sync (handleTouchStart touch) w
  | TouchMove touch dropZone => sync (handleTouchMove touch dropZone) w
  | TouchEnd touch dropZone sceneImg => sync (handleTouchEnd touch dropZone sceneImg) w
  | CompositeSettled i reply now =>
      settle i (fun pending =>
                  match pending with
                  | AwaitComposite previousScene =>
                      Some (fun s => (resumeProductDrop previousScene reply now s, []))
                  | _ => None
                  end) w
  | ImageSettled i reply now =>
      settle i (fun pending =>
                  match pending with
                  | AwaitRedesign previousScene =>
                      Some (fun s => (resumeSceneDesignGeneration previousScene reply now s, []))
                  | AwaitSurface previousScene =>
                      Some (fun s => (resumeSurfaceModificationSubmit previousScene reply now s, []))
                  | AwaitSilhouette newProductId =>
                      Some (fun s => (resumeAddProduct newProductId reply s, []))
                  | _ => None
                  end) w
  | DefaultImagesSettled i reply now =>
      settle i (fun pending =>
                  match pending with
                  | AwaitDefaultImages => Some (resumeInstantStart reply now)
                  | _ => None
                  end) w
  end.

(** A session: the events in the order they are handled. *)
Definition run (events : list Event) (w : World) : World :=
  fold_left step events w.

(** The component right after mounting, nothing in flight. *)
Definition start (stored : option SavedState) : World :=
  {| app := mount stored; inflight := [] |}.

End Component.

Arguments ContextMenu : clear implicits.
Arguments SurfaceModification : clear implicits.
Arguments State : clear implicits.
Arguments RequestPosition : clear implicits.
Arguments GeneratorCall : clear implicits.
Arguments Issued : clear implicits.
Arguments World : clear implicits.
Arguments Event : clear implicits.

(** A browser stand-in for worked examples: its base64 is the
    identity and its blob URLs are the file names. *)
Definition plainBrowser : Browser :=
  {| atob := fun encoded => Normal encoded;
     createObjectURL := fun file => "blob:" +:+ file_name file;
     fileToDataURL := fun file =>
       Normal ("data:" +:+ file_type file +:+ ";base64," +:+ file_data file) |}.

(** A storage with room for whatever is written. *)
Definition plainStorage : LocalStorage :=
  {| setItem := fun _ => Normal () |}.
End App.

(** ** The [InteriorDesigner] component *)

Module InteriorDesigner.
Section Component.
Context {B : Browser}.

Record State := {
  roomImage : option File;
  designPrompt : string;
  isLoading : bool;
  error : option string;
  resultImageUrl : option string
}.

Definition initialState : State :=
  {| roomImage := None;
     designPrompt := "";
     isLoading := false;
     error := None;
     resultImageUrl := None |}.

(** [roomImage ? URL.createObjectURL(roomImage) : null] *)
Definition roomImageUrl (s : State) : option string :=
  option_map createObjectURL (roomImage s).

(** [resultImageUrl || roomImageUrl]: an empty result string is falsy. *)
Definition displayImageUrl (s : State) : option string :=
  match resultImageUrl s with
  | Some url => if String.eqb url "" then roomImageUrl s else Some url
  | None => roomImageUrl s
  end.

Definition handleImageUpload (file : File) (s : State) : State :=
  {| roomImage := Some file;
     designPrompt := "";
     isLoading := isLoading s;
     error := None;
     resultImageUrl := None |}.

Definition handleReset (s : State) : State :=
  {| roomImage := None;
     designPrompt := "";
     isLoading := false;
     error := None;
     resultImageUrl := None |}.

(** [handleGenerate] up to its [await]: the state it leaves and the
    arguments of [generateInteriorDesign], if it calls. *)
Definition handleGenerate (s : State) : State * option (File * string) :=
  match roomImage s with
  | Some room =>
      if isBlank (designPrompt s) then
        ({| roomImage := roomImage s;
            designPrompt := designPrompt s;
            isLoading := isLoading s;
            error := Some "Please provide a room image and a design instruction.";
            resultImageUrl := resultImageUrl s |},
         None)
      else
        ({| roomImage := roomImage s;
            designPrompt := designPrompt s;
            isLoading := true;
            error := None;
            resultImageUrl := resultImageUrl s |},
         Some (room, designPrompt s))
  | None =>
      ({| roomImage := roomImage s;
          designPrompt := designPrompt s;
          isLoading := isLoading s;
          error := Some "Please provide a room image and a design instruction.";
          resultImageUrl := resultImageUrl s |},
       None)
  end.

(** [handleGenerate] from the moment the call settles. *)
Definition resumeGenerate (reply : Settled string) (s : State) : State :=
  match reply with
  | Fulfilled generatedImageUrl =>
      {| roomImage := roomImage s;
         designPrompt := designPrompt s;
         isLoading := false;
         error := error s;
         resultImageUrl := Some generatedImageUrl |}
  | Rejected err =>
      {| roomImage := roomImage s;
         designPrompt := designPrompt s;
         isLoading := false;
         error := Some ("Failed to generate the design. " +:+ errorMessage err);
         resultImageUrl := resultImageUrl s |}
  end.

(** [disabled={isLoading || !designPrompt.trim()}] *)
Definition generateDisabled (s : State) : bool :=
  isLoading s || isBlank (designPrompt s).

End Component.
End InteriorDesigner.

(** ** The [SurfaceModificationModal] component *)

Module SurfaceModificationModal.



End SurfaceModificationModal.

(** * Vocabulary of the properties *)

Section Vocabulary.
Context {num : Type} {JS : JsNumber num} {B : Browser}.
Import App.

Implicit Types s : State num.

(** The props of an uploader that shows [img] and raises drops. *)
Definition dropZoneProps (img : Img num) : ImageUploader.Props num :=
  {| ImageUploader.isDropZone := true;
     ImageUploader.hasOnProductDrop := true;
     ImageUploader.img := Some img |}.

(** What the end of a touch drag always does, drop or no drop. *)
Definition endTouchDrag (s : App.State num) : App.State num :=
  App.setTouchOrbPosition None
    (App.setIsHoveringDropZone false
       (App.setTouchGhostPosition None
          (App.setIsTouchDragging false s))).

(** [setUrlError(null)] *)
Definition clearUrlError (s : ImageUploader.State num) : ImageUploader.State num :=
  {| ImageUploader.isDraggingOver := ImageUploader.isDraggingOver s;
     ImageUploader.orbPosition := ImageUploader.orbPosition s;
     ImageUploader.fileTypeError := ImageUploader.fileTypeError s;
     ImageUploader.imageUrlInput := ImageUploader.imageUrlInput s;
     ImageUploader.isFetchingUrl := ImageUploader.isFetchingUrl s;
     ImageUploader.urlError := None |}.

(** The scene and the two stacks: what the history consists of. *)
Definition history s : option File * list File * list File :=
  (sceneImage s, undoHistory s, redoHistory s).

(** The availability flags shown to the user. *)
Definition flags s : bool * bool := (canUndo s, canRedo s).

(** A mutation that resumes after its call failed, or after the image
    it got back does not decode, reports the error and touches nothing
    of the history. *)
Definition reportsOnly (message : string) (s s' : State num) : Prop :=
  history s' = history s /\ flags s' = flags s /\
  error s' = Some message /\ isLoading s' = false.

(** What a successful resumption leaves of the history. *)
Definition committed (previousScene newScene : File) (s s' : State num) : Prop :=
  history s' = (Some newScene, pushLimited previousScene (undoHistory s), []) /\
  flags s' = (true, false).

(** The five ways an event handler treats the two stacks and the flags. *)
Inductive StackChange s s' : Prop :=
| Untouched :
    undoHistory s' = undoHistory s ->
    redoHistory s' = redoHistory s ->
    flags s' = flags s ->
    StackChange s s'
| Pushed previousScene :
    undoHistory s' = pushLimited previousScene (undoHistory s) ->
    redoHistory s' = [] ->
    flags s' = (true, false) ->
    StackChange s s'
| Undone rest previousScene current :
    undoHistory s = rest ++ [previousScene] ->
    undoHistory s' = rest ->
    redoHistory s' = redoHistory s ++ [current] ->
    flags s' = ((0 <? length rest)%nat, true) ->
    StackChange s s'
| Redone rest nextScene current :
    redoHistory s = rest ++ [nextScene] ->
    redoHistory s' = rest ->
    undoHistory s' = undoHistory s ++ [current] ->
    flags s' = (true, (0 <? length rest)%nat) ->
    StackChange s s'
| Cleared :
    undoHistory s' = [] ->
    redoHistory s' = [] ->
    flags s' = (false, false) ->
    StackChange s s'.

(** Each flag tells whether its stack holds an entry. *)
Definition flagsAgree s : Prop :=
  canUndo s = (0 <? length (undoHistory s))%nat /\
  canRedo s = (0 <? length (redoHistory s))%nat.



(** What the load effect leaves in the stacks: each is empty with its
    flag down, or as long as the saved one with its flag up. *)
Definition loadedStack (flag : bool) (stack : list File) (saved : option (list SavedFile))
    : Prop :=
  (stack = [] /\ flag = false) \/
  (flag = true /\ length stack <> 0 /\ length stack = length (default [] saved)).

End Vocabulary.

Section ExactGeometry.
Local Open Scope Q_scope.

(** A well-formed geometry: a container and an image with positive sides. *)
Definition validGeometry (box : DOMRect Q) (img : Img Q) : Prop :=
  0 < rect_width box /\ 0 < rect_height box /\
  0 < naturalWidth img /\ 0 < naturalHeight img.

(** The point lies on the rendered image, border included. *)
Definition withinRendered (box : DOMRect Q) (img : Img Q) (clientX clientY : Q) : Prop :=
  let '(rw, rh) := renderedSize box img in
  let '(ix, iy) := imageLocal box img clientX clientY in
  (0 <= ix <= rw) /\ (0 <= iy <= rh).

End ExactGeometry.

(** ** Binary64 arithmetic

    The value of a finite number [S754_finite s m e] of the format is
    [F2R m e], taken negative when [s] is set. *)

Section BinaryFormat.
Import Reals.
Local Open Scope R_scope.

Definition bpow (e : Z) : R := powerRZ 2 e.

Definition F2R (m e : Z) : R := IZR m * bpow e.

(** The record holds no round or sticky bit. *)
Definition exactRecord (mrs : shr_record) : Prop :=
  shr_r mrs = false /\ shr_s mrs = false.

(** [mrs'] is [mrs] shifted right by [k] bits. *)
Definition Shifted (k : Z) (mrs mrs' : shr_record) : Prop :=
  shr_m mrs' = (shr_m mrs / 2 ^ k)%Z /\
  (exactRecord mrs' <-> exactRecord mrs /\ shr_m mrs = (shr_m mrs' * 2 ^ k)%Z).

End BinaryFormat.

(** The geometry as the browser computes it. *)

(** The computed rendered size is positive and finite on both axes. *)
Definition validRendering (box : DOMRect float) (img : Img float) : Prop :=
  let '(rw, rh) := renderedSize box img in
  (PrimFloat.ltb 0 rw = true /\ PrimFloat.ltb rw infinity = true) /\
  (PrimFloat.ltb 0 rh = true /\ PrimFloat.ltb rh infinity = true).

(** The computed image-local coordinates lie on the computed rendered
    image, border included. *)
Definition insideRendered (box : DOMRect float) (img : Img float)
    (clientX clientY : float) : Prop :=
  let '(rw, rh) := renderedSize box img in
  let '(ix, iy) := imageLocal box img clientX clientY in
  (PrimFloat.leb 0 ix = true /\ PrimFloat.leb ix rw = true) /\
  (PrimFloat.leb 0 iy = true /\ PrimFloat.leb iy rh = true).

(** Neither computed image-local coordinate is NaN. *)
Definition areNumbers (box : DOMRect float) (img : Img float)
    (clientX clientY : float) : Prop :=
  let '(ix, iy) := imageLocal box img clientX clientY in
  PrimFloat.eqb ix ix = true /\ PrimFloat.eqb iy iy = true.

(** * Worked examples *)

(** The first fixture: container 800x400 at the origin, image 900x900. *)
Definition wideBox : DOMRect float :=
  {| rect_left := 0%float; rect_top := 0%float;
     rect_width := 800%float; rect_height := 400%float |}.

Definition squareImage : Img float :=
  {| naturalWidth := 900%float; naturalHeight := 900%float |}.

(** The second fixture: container 800x450, image 1600x900. *)
Definition videoBox : DOMRect float :=
  {| rect_left := 0%float; rect_top := 0%float;
     rect_width := 800%float; rect_height := 450%float |}.

Definition videoImage : Img float :=
  {| naturalWidth := 1600%float; naturalHeight := 900%float |}.

(** A container 1280x720 with an image 700x500: in exact arithmetic the
    rendered image is 1008x720 and starts at x = 136. *)
Definition hdBox : DOMRect float :=
  {| rect_left := 0%float; rect_top := 0%float;
     rect_width := 1280%float; rect_height := 720%float |}.

Definition photoImage : Img float :=
  {| naturalWidth := 700%float; naturalHeight := 500%float |}.

(** A container 100x100 with an image of natural size 2^1000 x 2^-1000:
    both sides positive and finite, the aspect ratio beyond the range of
    the format. *)
Definition squareBox : DOMRect float :=
  {| rect_left := 0%float; rect_top := 0%float;
     rect_width := 100%float; rect_height := 100%float |}.

Definition stripImage : Img float :=
  {| naturalWidth := 0x1p+1000%float; naturalHeight := 0x1p-1000%float |}.

(** An instance in binary64: point (150,0) of the first fixture. *)
Definition letterboxDrop : ImageUploader.PointerEvent float :=
  {| ImageUploader.clientX := 150%float;
     ImageUploader.clientY := 0%float;
     ImageUploader.currentTarget := wideBox;
     ImageUploader.files := [] |}.

Definition idleUploader : ImageUploader.State float :=
  {| ImageUploader.isDraggingOver := true;
     ImageUploader.orbPosition := Some {| px := 150%float; py := 0%float |};
     ImageUploader.fileTypeError := None;
     ImageUploader.imageUrlInput := "";
     ImageUploader.isFetchingUrl := false;
     ImageUploader.urlError := None |}.

Definition roomPhoto : File :=
  {| file_name := "room.jpeg"; file_type := "image/jpeg"; file_data := "room" |}.

(** A data URL as the generation service returns it. *)
Definition jpegUrl (content : string) : string :=
  "data:image/jpeg;base64," +:+ content.

(** Ask for a redesign and receive it at time [now]. *)
Definition redesign (instruction content : string) (now : N) : list (App.Event Q) :=
  [App.EditSceneDesignPrompt instruction;
   App.SceneDesignGeneration;
   App.ImageSettled 0 (Fulfilled (jpegUrl content)) now].

(** Upload a scene, redesign it once, undo. *)
Definition sessionWithRedo : App.World Q :=
  App.run (B := App.plainBrowser)
    ([App.SelectSceneFile roomPhoto] ++ redesign "sage green walls" "green" 1 ++ [App.Undo])
    (App.start (B := App.plainBrowser) None).

(** A redesign of the uploaded room, a recolouring of a surface of
    the result, then two undos. *)
Definition uploadedRoom : App.State Q :=
  App.setSurfaceModificationState
    (Some {| App.mod_type := App.color;
             App.mod_position := {| xPercent := 50%Q; yPercent := 50%Q |} |})
    (App.setSceneDesignPrompt "first"
       (App.setSceneImage (Some roomPhoto) App.initialState)).

Definition firstScene : File :=
  {| file_name := "redesigned-scene-1.jpeg"; file_type := "image/jpeg"; file_data := "one" |}.

Definition secondScene : File :=
  {| file_name := "modified-scene-2.jpeg"; file_type := "image/jpeg"; file_data := "two" |}.

Definition afterRedesign : App.State Q :=
  App.resumeSceneDesignGeneration (B := App.plainBrowser) roomPhoto
    (Fulfilled (jpegUrl "one")) 1 (fst (App.handleSceneDesignGeneration uploadedRoom)).

Definition afterRecolour : App.State Q :=
  App.resumeSurfaceModificationSubmit (B := App.plainBrowser) firstScene
    (Fulfilled (jpegUrl "two")) 2
    (fst (App.handleSurfaceModificationSubmit "matte beige" afterRedesign)).

(** A saved state with one history entry and no scene. *)
Definition orphanHistory : App.SavedState :=
  {| App.saved_products := None;
     App.saved_scene := None;
     App.saved_undoHistory :=
       Some [{| App.saved_dataUrl := jpegUrl "old"; App.saved_name := "old.jpeg" |}];
     App.saved_redoHistory := None;
     App.saved_activeProductId := None |}.


(** Twelve redesigns in a row of an uploaded room. *)
Definition twelveRedesigns : list (App.Event Q) :=
  App.SelectSceneFile roomPhoto ::
  flat_map (fun t => redesign "repaint" "paint" (N.of_nat t)) (seq 1 12).

(** The state after them: ten snapshots to undo. *)
Definition tenRedesigned : App.State Q :=
  App.app (App.run (B := App.plainBrowser) twelveRedesigns
             (App.start (B := App.plainBrowser) None)).

(** A session that has a redesign in flight. *)
Definition busySession : App.World Q :=
  App.run (B := App.plainBrowser)
    [App.SelectSceneFile roomPhoto;
     App.EditSceneDesignPrompt "sage green walls";
     App.SceneDesignGeneration]
    (App.start (B := App.plainBrowser) None).

(** A session in which a placement menu was opened, on a room with a
    product, before a redesign was asked for. *)
Definition busyWithMenu : App.World Q :=
  App.run (B := App.plainBrowser)
    [App.SelectSceneFile roomPhoto;
     App.AddProduct
       {| file_name := "sofa.png"; file_type := "image/png"; file_data := "sofa" |} 1700;
     App.PlacementRequest
       {| App.req_clientX := 500%Q; App.req_clientY := 300%Q;
          App.req_containerX := 400%Q; App.req_containerY := 200%Q |}
       {| xPercent := 50%Q; yPercent := 50%Q |};
     App.EditSceneDesignPrompt "sage green walls";
     App.SceneDesignGeneration]
    (App.start (B := App.plainBrowser) None).

(** * Vocabulary of the further properties *)

(** The string has no occurrence of [c]. *)
Fixpoint lacks (c : ascii) (s : string) : bool :=
  match s with
  | EmptyString => true
  | String d rest => negb (Ascii.eqb d c) && lacks c rest
  end.

(** A MIME type as a data URL can carry it: not empty, and free of
    the characters that end it ([;]), split the URL ([,]) or stop the
    pattern (line terminators). *)
Definition wellFormedMime (mime : string) : bool :=
  negb (String.eqb mime "") && lacks ","%char mime && lacks ";"%char mime
  && lacks "010"%char mime && lacks "013"%char mime.

(** A type as a [File] keeps it: printable ASCII without capitals. *)
Definition canonicalType (type : string) : bool :=
  forallb (fun c => isPrintableAscii c && negb (isAsciiUpper c)) (list_ascii_of_string type).


Section SessionVocabulary.
Context {num : Type} {JS : JsNumber num} {B : Browser}.
Import App.

Implicit Types s : State num.
Implicit Types w : World num.

(** A product as the silhouette update leaves it. *)
Definition withSilhouette (newProductId : N) (silhouetteUrl : string) (p p' : Product)
    : Prop :=
  product_id p' = product_id p /\ product_name p' = product_name p /\
  product_imageUrl p' = product_imageUrl p /\
  product_silhouetteUrl p' =
    if (product_id p =? newProductId)%N then Some silhouetteUrl
    else product_silhouetteUrl p.

(** An event leaves a scene, or leaves both stacks empty, or leaves
    the scene and the stacks as they were. *)
Definition SceneKept s s' : Prop :=
  sceneImage s' <> None \/
  (undoHistory s' = [] /\ redoHistory s' = []) \/
  history s' = history s.

(** Without a scene there is no history. *)
Definition sceneBacksHistory s : Prop :=
  sceneImage s = None -> undoHistory s = [] /\ redoHistory s = [].

(** Every listed product has its file. *)
Definition productsHaveFiles s : Prop :=
  Forall (fun p => is_Some (productFiles s !! product_id p)) (products s).

(** The calls whose handler raises the busy flag while it waits. *)
Definition raisesBusy (pending : Pending) : bool :=
  match pending with
  | AwaitComposite _ | AwaitRedesign _ | AwaitSurface _ => true
  | AwaitSilhouette _ | AwaitDefaultImages => false
  end.

(** Some call among these raises the busy flag. *)
Definition generating (calls : list (Issued num)) : Prop :=
  Exists (fun issued => raisesBusy (continuation issued) = true) calls.

(** The busy flag is backed by a call in flight. *)
Definition busyBacked w : Prop :=
  isLoading (app w) = true -> generating (inflight w).

(** The file can be stored: reading it gives a data URL, and that
    data URL decodes to its type and content, under any name. *)
Definition survivesStorage (file : File) : Prop :=
  exists dataUrl,
    fileToDataURL file = Normal dataUrl /\
    forall filename,
      dataURLtoFile dataUrl filename =
      Normal {| file_name := filename;
                file_type := file_type file;
                file_data := file_data file |}.

(** The product is listed with a file that can be stored. *)
Definition storable (files : gmap N File) (product : Product) : Prop :=
  exists file, files !! product_id product = Some file /\ survivesStorage file.

(** The two maps hold a file of the same type and content at [i]. *)
Definition sameContentAt (files files' : gmap N File) (i : N) : Prop :=
  exists file file',
    files !! i = Some file /\ files' !! i = Some file' /\
    file_type file' = file_type file /\ file_data file' = file_data file.

End SessionVocabulary.

(** An uploader that takes files (no drop zone), at rest. *)
Definition uploadProps : ImageUploader.Props Q :=
  {| ImageUploader.isDropZone := false;
     ImageUploader.hasOnProductDrop := false;
     ImageUploader.img := None |}.

Definition restingUploader : ImageUploader.State Q :=
  {| ImageUploader.isDraggingOver := false;
     ImageUploader.orbPosition := None;
     ImageUploader.fileTypeError := None;
     ImageUploader.imageUrlInput := "https://example.com/rooms/sofa.png?w=800";
     ImageUploader.isFetchingUrl := false;
     ImageUploader.urlError := None |}.

Definition manualPdf : File :=
  {| file_name := "manual.pdf"; file_type := "application/pdf"; file_data := "%PDF" |}.

Definition webpPhoto : File :=
  {| file_name := "room.webp"; file_type := "image/webp"; file_data := "RIFF" |}.

(** A drop of [dropped] at the origin of a 800x400 uploader. *)
Definition fileDrop (dropped : list File) : ImageUploader.PointerEvent Q :=
  {| ImageUploader.clientX := 0%Q;
     ImageUploader.clientY := 0%Q;
     ImageUploader.currentTarget :=
       {| rect_left := 0%Q; rect_top := 0%Q; rect_width := 800%Q; rect_height := 400%Q |};
     ImageUploader.files := dropped |}.

Definition sofaFile : File :=
  {| file_name := "sofa.png"; file_type := "image/png"; file_data := "sofa" |}.

(** An uploaded room with one product, added at time 1700. *)
Definition roomWithSofa : App.State Q :=
  fst (App.handleAddProduct (B := App.plainBrowser) sofaFile 1700
         (App.setSceneImage (Some roomPhoto) App.initialState)).

(** A click in the middle of the scene. *)
Definition centreClick : App.RequestPosition Q :=
  {| App.req_clientX := 500%Q; App.req_clientY := 300%Q;
     App.req_containerX := 400%Q; App.req_containerY := 200%Q |}.

Definition centre : RelativePosition Q :=
  {| xPercent := 50%Q; yPercent := 50%Q |}.

(** A room redesigned twice, the second redesign undone, and a sofa
    added whose silhouette is still being made. *)
Definition furnishedSession : App.State Q :=
  App.app
    (App.run (B := App.plainBrowser)
       ([App.SelectSceneFile roomPhoto]
          ++ redesign "sage green walls" "green" 1
          ++ redesign "oak floor" "oak" 2
          ++ [App.Undo; App.AddProduct sofaFile 1700])
       (App.start (B := App.plainBrowser) None)).

(** * Properties *)

Ltac break_match :=
  match goal with
  | |- context [match ?x with _ => _ end] => destruct x eqn:?
  end.

(** ** Coordinate mapper *)

Section MapperFacts.
Context {num : Type} {JS : JsNumber num}.
Local Open Scope js_scope.

Lemma handlePlacement_mapToImageSpace (props : ImageUploader.Props num) (img : Img num)
    (clientX clientY : num) (box : DOMRect num) :
  ImageUploader.img props = Some img ->
  ImageUploader.hasOnProductDrop props = true ->
  ImageUploader.handlePlacement props clientX clientY box =
  match mapToImageSpace box img clientX clientY with
  | inl OutOfBounds =>
      [ImageUploader.ConsoleWarn "Action was outside the image boundaries."]
  | inr rel =>
      [ImageUploader.OnProductDrop
         {| px := clientX - rect_left box; py := clientY - rect_top box |} rel]
  end.
Proof.
  intros Himg Hcb.
  unfold ImageUploader.handlePlacement, mapToImageSpace, imageLocal, letterbox,
    renderedSize, outside, imageAspect, containerAspect.
  rewrite Himg, Hcb. cbn [negb].
  destruct (js_lt _ _); cbn zeta iota beta;
    rewrite <- !orb_assoc;
    destruct (_ || _); reflexivity.
Qed.

Lemma handleTouchEnd_mapToImageSpace (touch : Point num)
    (box : DOMRect num) (img : Img num) (s : App.State num) :
  App.handleTouchEnd touch (Some box) (Some img) s =
  if App.isTouchDragging s then
    endTouchDrag
      match mapToImageSpace box img (px touch) (py touch) with
      | inl OutOfBounds => s
      | inr rel =>
          App.handlePlacementRequest
            {| App.req_clientX := px touch;
               App.req_clientY := py touch;
               App.req_containerX := px touch - rect_left box;
               App.req_containerY := py touch - rect_top box |} rel s
      end
  else s.
Proof.
  unfold App.handleTouchEnd, mapToImageSpace, imageLocal, letterbox,
    renderedSize, outside, imageAspect, containerAspect, endTouchDrag.
  destruct (App.isTouchDragging s); cbn [negb]; [|reflexivity].
  destruct (js_lt _ _); cbn zeta iota beta;
    rewrite <- !orb_assoc;
    destruct (_ || _); reflexivity.
Qed.

End MapperFacts.

Example fixture_wide_rendered :
  renderedSize wideBox squareImage = (400%float, 400%float) /\
  letterbox wideBox squareImage = (200%float, 0%float).
Proof. split; vm_compute; reflexivity. Qed.

Example fixture_video_rendered :
  renderedSize videoBox videoImage = (800%float, 450%float) /\
  letterbox videoBox videoImage = (0%float, 0%float).
Proof. split; vm_compute; reflexivity. Qed.

(** The far corner of the rendered image is still inside. *)
Example fixture_wide_far_corner :
  mapToImageSpace wideBox squareImage 600%float 400%float =
  inr {| xPercent := 100%float; yPercent := 100%float |}.
Proof. vm_compute. reflexivity. Qed.

(** An image that has not loaded has natural size 0x0: its aspect
    ratio is NaN, every comparison with NaN is false, so the drop is
    raised, with a NaN horizontal percentage. *)
Example unloaded_image_maps_to_nan :
  ImageUploader.handlePlacement
    (dropZoneProps {| naturalWidth := 0%float; naturalHeight := 0%float |})
    100%float 100%float wideBox =
  [ImageUploader.OnProductDrop {| px := 100%float; py := 100%float |}
     {| xPercent := nan; yPercent := 25%float |}].
Proof. vm_compute. reflexivity. Qed.

(** C1. For every container box, natural image size and pointer point
    (over any arithmetic, binary64 included), both placement paths -
    [handlePlacement] of the uploader and the drop computation of
    [handleTouchEnd] - compute exactly [mapToImageSpace]: rendered size
    [(width, width / imageAspect)] when [imageAspect > containerAspect]
    and [(height * imageAspect, height)] otherwise, letterbox offsets
    of half the leftover space, and for a point inside the percentages
    [(imageX / renderedWidth * 100, imageY / renderedHeight * 100)].
    In binary64: with an 800x400 container and a 900x900 image the
    rendered image is 400x400 with offsets (200,0), point (200,0) maps
    to (0,0) and point (150,0), at image-local x = -50, is out of
    bounds; with an 800x450 container and a 1600x900 image there is no
    letterbox and point (400,225) maps to (50,50). *)
Theorem coordinate_mapper_exact :
  (forall (num : Type) (JS : JsNumber num) (box : DOMRect num) (img : Img num)
          (clientX clientY : num),
      ImageUploader.handlePlacement (dropZoneProps img) clientX clientY box =
      match mapToImageSpace box img clientX clientY with
      | inl OutOfBounds =>
          [ImageUploader.ConsoleWarn "Action was outside the image boundaries."]
      | inr rel =>
          [ImageUploader.OnProductDrop
             {| px := js_sub clientX (rect_left box);
                py := js_sub clientY (rect_top box) |} rel]
      end) /\
  (forall (num : Type) (JS : JsNumber num) (box : DOMRect num)
          (img : Img num) (touch : Point num) (s : App.State num),
      App.handleTouchEnd touch (Some box) (Some img) s =
      if App.isTouchDragging s then
        endTouchDrag
          match mapToImageSpace box img (px touch) (py touch) with
          | inl OutOfBounds => s
          | inr rel =>
              App.handlePlacementRequest
                {| App.req_clientX := px touch;
                   App.req_clientY := py touch;
                   App.req_containerX := js_sub (px touch) (rect_left box);
                   App.req_containerY := js_sub (py touch) (rect_top box) |} rel s
          end
      else s) /\
  renderedSize wideBox squareImage = (400%float, 400%float) /\
  letterbox wideBox squareImage = (200%float, 0%float) /\
  imageLocal wideBox squareImage 200%float 0%float = (0%float, 0%float) /\
  imageLocal wideBox squareImage 150%float 0%float = ((-50)%float, 0%float) /\
  ImageUploader.handlePlacement (dropZoneProps squareImage) 200%float 0%float wideBox =
    [ImageUploader.OnProductDrop {| px := 200%float; py := 0%float |}
       {| xPercent := 0%float; yPercent := 0%float |}] /\
  ImageUploader.handlePlacement (dropZoneProps squareImage) 150%float 0%float wideBox =
    [ImageUploader.ConsoleWarn "Action was outside the image boundaries."] /\
  mapToImageSpace wideBox squareImage 150%float 0%float = inl OutOfBounds /\
  renderedSize videoBox videoImage = (800%float, 450%float) /\
  letterbox videoBox videoImage = (0%float, 0%float) /\
  ImageUploader.handlePlacement (dropZoneProps videoImage) 400%float 225%float videoBox =
    [ImageUploader.OnProductDrop {| px := 400%float; py := 225%float |}
       {| xPercent := 50%float; yPercent := 50%float |}].
Proof.
  split; [|split].
  - intros. now apply handlePlacement_mapToImageSpace.
  - intros. apply handleTouchEnd_mapToImageSpace.
  - repeat apply conj; vm_compute; reflexivity.
Qed.

(** ** The mapper over exact arithmetic *)

Section ExactMapper.
Local Open Scope Q_scope.

Lemma Qltb_lt (x y : Q) : Qltb x y = true <-> x < y.
Proof.
  unfold Qltb. rewrite negb_true_iff, <- not_true_iff_false, Qle_bool_iff.
  split; [apply Qnot_le_lt | apply Qlt_not_le].
Qed.

Lemma Qltb_ge (x y : Q) : Qltb x y = false <-> y <= x.
Proof.
  unfold Qltb. rewrite negb_false_iff. apply Qle_bool_iff.
Qed.

Lemma outside_false (c extent : Q) :
  outside c extent = false <-> 0 <= c <= extent.
Proof.
  unfold outside. cbn [js_lt js_zero Q_JsNumber].
  rewrite orb_false_iff, !Qltb_ge. reflexivity.
Qed.

Lemma Qdiv_pos (a b : Q) : 0 < a -> 0 < b -> 0 < a / b.
Proof.
  intros Ha Hb. apply Qlt_shift_div_l; [exact Hb|]. now rewrite Qmult_0_l.
Qed.

Lemma renderedSize_pos (box : DOMRect Q) (img : Img Q) :
  validGeometry box img ->
  0 < fst (renderedSize box img) /\ 0 < snd (renderedSize box img).
Proof.
  intros (Hw & Hh & Hnw & Hnh).
  assert (Ha : 0 < imageAspect img) by now apply Qdiv_pos.
  unfold renderedSize.
  destruct (js_lt _ _); cbn [fst snd js_mul js_div Q_JsNumber]; split; trivial.
  - now apply Qdiv_pos.
  - now apply Qmult_lt_0_compat.
Qed.

Lemma percent_range (x r : Q) :
  0 < r -> 0 <= x <= r -> 0 <= x / r * 100 <= 100.
Proof.
  intros Hr [H0 H1].
  assert (Hlo : 0 <= x / r).
  { apply Qle_shift_div_l; [exact Hr|]. now rewrite Qmult_0_l. }
  assert (Hhi : x / r <= 1).
  { apply Qle_shift_div_r; [exact Hr|]. now rewrite Qmult_1_l. }
  split; lra.
Qed.

End ExactMapper.

(** Over exact rationals, for every container and image with positive
    sides: a point on the rendered image (border included) maps to
    percentages in [0, 100], any other point is rejected. *)
Lemma exact_mapper_percent_range (box : DOMRect Q) (img : Img Q) (clientX clientY : Q) :
  validGeometry box img ->
  (withinRendered box img clientX clientY ->
     exists rel : RelativePosition Q,
       ImageUploader.handlePlacement (dropZoneProps img) clientX clientY box =
         [ImageUploader.OnProductDrop
            {| px := (clientX - rect_left box)%Q;
               py := (clientY - rect_top box)%Q |} rel] /\
       mapToImageSpace box img clientX clientY = inr rel /\
       (0 <= xPercent rel <= 100)%Q /\ (0 <= yPercent rel <= 100)%Q) /\
  (~ withinRendered box img clientX clientY ->
     ImageUploader.handlePlacement (dropZoneProps img) clientX clientY box =
       [ImageUploader.ConsoleWarn "Action was outside the image boundaries."] /\
     mapToImageSpace box img clientX clientY = inl OutOfBounds).
Proof.
  intros Hvalid.
  destruct (renderedSize_pos box img Hvalid) as [Hrw Hrh].
  rewrite (handlePlacement_mapToImageSpace (dropZoneProps img) img) by reflexivity.
  unfold withinRendered, mapToImageSpace.
  destruct (renderedSize box img) as [rw rh].
  destruct (imageLocal box img clientX clientY) as [ix iy].
  cbn [fst snd] in Hrw, Hrh.
  destruct (outside ix rw || outside iy rh) eqn:Hout.
  - split.
    + intros [Hx Hy]. apply outside_false in Hx, Hy.
      rewrite Hx, Hy in Hout. discriminate.
    + intros _. split; reflexivity.
  - apply orb_false_iff in Hout. destruct Hout as [Hx Hy].
    apply outside_false in Hx, Hy.
    split.
    + intros _. eexists. split; [reflexivity|]. split; [reflexivity|].
      cbn [xPercent yPercent]. split; now apply percent_range.
    + intros Hn. exfalso. apply Hn. split; assumption.
Qed.

(** ** The mapper in binary64

    The browser computes the mapper in IEEE-754 binary64.  The bounds on
    the percentages rest on two facts of rounding to nearest: [x / w]
    does not exceed 1 when [0 <= x <= w], and a number of at most 1
    times 100 does not exceed 100. *)

Section FloatRounding.
Import Reals.
Local Open Scope R_scope.

Lemma bpow_pos (e : Z) : 0 < bpow e.
Proof. apply powerRZ_lt. Lra.lra. Qed.

Lemma bpow_add (a b : Z) : bpow (a + b) = bpow a * bpow b.
Proof. apply powerRZ_add. Lra.lra. Qed.

Lemma bpow_IZR (n : Z) : (0 <= n)%Z -> bpow n = IZR (2 ^ n).
Proof.
  intros Hn. unfold bpow. rewrite <- (Z2Nat.id n Hn) at 1.
  rewrite <- pow_powerRZ, pow_IZR. now rewrite Z2Nat.id.
Qed.

Lemma bpow_le (a b : Z) : (a <= b)%Z -> bpow a <= bpow b.
Proof.
  intros Hab. replace b with (a + (b - a))%Z by lia. rewrite bpow_add.
  rewrite (bpow_IZR (b - a)) by lia.
  assert (H1 : (1 <= 2 ^ (b - a))%Z).
  { assert (0 < 2 ^ (b - a))%Z by (apply Z.pow_pos_nonneg; lia). lia. }
  apply IZR_le in H1. pose proof (bpow_pos a). Lra.nra.
Qed.

Lemma bpow_lt (a b : Z) : (a < b)%Z -> bpow a < bpow b.
Proof.
  intros Hab. replace b with (a + (b - a))%Z by lia. rewrite bpow_add.
  rewrite (bpow_IZR (b - a)) by lia.
  assert (H2 : (2 <= 2 ^ (b - a))%Z).
  { replace (b - a)%Z with (Z.succ (b - a - 1)) by lia. rewrite Z.pow_succ_r by lia.
    assert (0 < 2 ^ (b - a - 1))%Z by (apply Z.pow_pos_nonneg; lia). lia. }
  apply IZR_le in H2. pose proof (bpow_pos a). Lra.nra.
Qed.

Lemma F2R_shift (m e n : Z) : (0 <= n)%Z -> F2R (m * 2 ^ n) e = F2R m (e + n).
Proof.
  intros Hn. unfold F2R. rewrite mult_IZR, bpow_add, (bpow_IZR n Hn). Lra.lra.
Qed.

Lemma F2R_le (m1 m2 e : Z) : (m1 <= m2)%Z -> F2R m1 e <= F2R m2 e.
Proof. intros H. apply IZR_le in H. unfold F2R. pose proof (bpow_pos e). Lra.nra. Qed.

Lemma F2R_lt (m1 m2 e : Z) : (m1 < m2)%Z -> F2R m1 e < F2R m2 e.
Proof. intros H. apply IZR_lt in H. unfold F2R. pose proof (bpow_pos e). Lra.nra. Qed.

Lemma F2R_lt_inv (m1 m2 e : Z) : F2R m1 e < F2R m2 e -> (m1 < m2)%Z.
Proof.
  intros H. apply lt_IZR. unfold F2R in H. pose proof (bpow_pos e). Lra.nra.
Qed.

Lemma F2R_le_inv (m1 m2 e : Z) : F2R m1 e <= F2R m2 e -> (m1 <= m2)%Z.
Proof.
  intros H. apply le_IZR. unfold F2R in H. pose proof (bpow_pos e). Lra.nra.
Qed.

Lemma digits2_size (p : positive) : digits2_pos p = Pos.size p.
Proof. induction p; cbn; congruence. Qed.

Lemma digits2_bounds (p : positive) :
  (2 ^ (Z.pos (digits2_pos p) - 1) <= Z.pos p < 2 ^ Z.pos (digits2_pos p))%Z.
Proof.
  rewrite digits2_size. split.
  - pose proof (Pos.size_le p) as Hle.
    apply Pos2Z.pos_le_pos in Hle. rewrite Pos2Z.inj_pow in Hle.
    assert (E : (2 ^ Z.pos (Pos.size p) = 2 * 2 ^ (Z.pos (Pos.size p) - 1))%Z).
    { rewrite <- Z.pow_succ_r by lia. f_equal. lia. }
    lia.
  - pose proof (Pos.size_gt p) as Hgt.
    apply Pos2Z.pos_lt_pos in Hgt. now rewrite Pos2Z.inj_pow in Hgt.
Qed.


Lemma Shifted_trans (a b : Z) (x y z : shr_record) :
  (0 <= a)%Z -> (0 <= b)%Z ->
  Shifted a x y -> Shifted b y z -> Shifted (a + b) x z.
Proof.
  intros Ha Hb [Hy Hxy] [Hz Hyz].
  assert (Hpa : (0 < 2 ^ a)%Z) by (apply Z.pow_pos_nonneg; lia).
  assert (Hpb : (0 < 2 ^ b)%Z) by (apply Z.pow_pos_nonneg; lia).
  split.
  - rewrite Hz, Hy, Z.pow_add_r by assumption. apply Z.div_div; lia.
  - rewrite Hyz, Hxy, Z.pow_add_r by assumption. split.
    + intros [[Hex Hxm] Hym]. split; [exact Hex|]. rewrite Hxm, Hym. ring.
    + intros [Hex Hxm]. 
      assert (Hym : shr_m y = (shr_m z * 2 ^ b)%Z).
      { rewrite Hy, Hxm.
        replace (shr_m z * (2 ^ a * 2 ^ b))%Z with (shr_m z * 2 ^ b * 2 ^ a)%Z by ring.
        apply Z.div_mul. lia. }
      split; [split; [exact Hex|] | exact Hym].
      rewrite Hxm, Hym. ring.
Qed.

Lemma shr_1_Shifted (mrs : shr_record) :
  (0 <= shr_m mrs)%Z -> Shifted 1 mrs (shr_1 mrs).
Proof.
  destruct mrs as [m r s]. cbn [shr_m]. intros Hm.
  unfold Shifted, exactRecord. change (2 ^ 1)%Z with 2%Z.
  destruct m as [|[p|p|]|p]; cbn [shr_1 shr_m shr_r shr_s]; try lia.
  - split; [reflexivity|]. rewrite orb_false_iff. tauto.
  - split; [apply (Z.div_unique _ _ _ 1); lia|]. split; [intros [Hr _]; discriminate | lia].
  - split; [apply (Z.div_unique _ _ _ 0); lia|]. rewrite orb_false_iff.
    split; [intros [_ Hrs]; split; [exact Hrs | lia] | tauto].
  - split; [reflexivity|]. split; [intros [Hr _]; discriminate | lia].
Qed.

Lemma Shifted_nonneg (k : Z) (mrs mrs' : shr_record) :
  (0 <= k)%Z -> (0 <= shr_m mrs)%Z -> Shifted k mrs mrs' -> (0 <= shr_m mrs')%Z.
Proof.
  intros Hk Hm [-> _]. apply Z.div_pos; [exact Hm | apply Z.pow_pos_nonneg; lia].
Qed.

Lemma iter_shr_1_Shifted (p : positive) (mrs : shr_record) :
  (0 <= shr_m mrs)%Z -> Shifted (Z.pos p) mrs (SpecFloat.iter_pos shr_1 p mrs).
Proof.
  revert mrs. induction p as [p IH|p IH|]; intros mrs Hm; cbn [SpecFloat.iter_pos].
  - replace (Z.pos p~1) with (1 + (Z.pos p + Z.pos p))%Z by lia.
    pose proof (shr_1_Shifted mrs Hm) as H1.
    assert (Hm1 : (0 <= shr_m (shr_1 mrs))%Z)
      by (apply (Shifted_nonneg 1 mrs); [lia | exact Hm | exact H1]).
    pose proof (IH _ Hm1) as H2.
    assert (Hm2 : (0 <= shr_m (SpecFloat.iter_pos shr_1 p (shr_1 mrs)))%Z)
      by (apply (Shifted_nonneg (Z.pos p) (shr_1 mrs)); [lia | exact Hm1 | exact H2]).
    pose proof (IH _ Hm2) as H3.
    apply (Shifted_trans _ _ _ (shr_1 mrs)); [lia | lia | exact H1|].
    apply (Shifted_trans _ _ _ (SpecFloat.iter_pos shr_1 p (shr_1 mrs)));
      [lia | lia | exact H2 | exact H3].
  - replace (Z.pos p~0) with (Z.pos p + Z.pos p)%Z by lia.
    pose proof (IH _ Hm) as H2.
    assert (Hm2 : (0 <= shr_m (SpecFloat.iter_pos shr_1 p mrs))%Z)
      by (apply (Shifted_nonneg (Z.pos p) mrs); [lia | exact Hm | exact H2]).
    pose proof (IH _ Hm2) as H3.
    apply (Shifted_trans _ _ _ (SpecFloat.iter_pos shr_1 p mrs));
      [lia | lia | exact H2 | exact H3].
  - now apply shr_1_Shifted.
Qed.

Lemma loc_of_record_exact (mrs : shr_record) :
  loc_of_shr_record mrs = loc_Exact <-> exactRecord mrs.
Proof.
  destruct mrs as [m [] []]; unfold exactRecord; cbn; split;
    try discriminate; try (intros [? ?]; discriminate); auto.
Qed.

Lemma record_of_loc_exact (m : Z) (l : location) :
  exactRecord (shr_record_of_loc m l) <-> l = loc_Exact.
Proof.
  destruct l as [|[]]; unfold exactRecord; cbn; split;
    try discriminate; try (intros [? ?]; discriminate); auto.
Qed.

Lemma shr_m_record_of_loc (m : Z) (l : location) : shr_m (shr_record_of_loc m l) = m.
Proof. now destruct l as [|[]]. Qed.


Lemma loc_of_record_of_loc (m : Z) (l : location) :
  loc_of_shr_record (shr_record_of_loc m l) = l.
Proof. now destruct l as [|[]]. Qed.

Lemma fexp_binary64 (e : Z) : fexp prec emax e = Z.max (e - 53) (-1074).
Proof. reflexivity. Qed.

Lemma canonical_binary64 (m : positive) (e : Z) :
  canonical_mantissa prec emax m e = true ->
  (-1074 <= e)%Z /\ (Z.pos m < 2 ^ 53)%Z /\ ((-1074 < e)%Z -> (2 ^ 52 <= Z.pos m)%Z).
Proof.
  unfold canonical_mantissa. rewrite fexp_binary64. intros Hc%Z.eqb_eq.
  pose proof (digits2_bounds m) as [Hlow Hhigh].
  assert (Hd : (Z.pos (digits2_pos m) <= 53)%Z) by lia.
  split; [lia|]. split.
  - apply (Z.lt_le_trans _ _ _ Hhigh). apply Z.pow_le_mono_r; lia.
  - intros He. assert (Hd53 : Z.pos (digits2_pos m) = 53%Z) by lia.
    rewrite Hd53 in Hlow. exact Hlow.
Qed.

(** What the first [shr_fexp] of [binary_round_aux] leaves: a
    truncation of the value, strictly below it when not exact, with a
    full mantissa when the exponent is above the least one. *)
Lemma shr_fexp_truncates (mx ex : Z) (lx : location) :
  (0 <= mx)%Z ->
  let '(mrs, e) := shr_fexp prec emax mx ex lx in
  (0 <= shr_m mrs)%Z /\
  F2R (shr_m mrs) e <= F2R mx ex /\
  (loc_of_shr_record mrs <> loc_Exact ->
   lx <> loc_Exact \/ F2R (shr_m mrs) e < F2R mx ex) /\
  ((ex <= fexp prec emax (Zdigits2 mx + ex))%Z ->
   (-1074 < e)%Z -> (2 ^ 52 <= shr_m mrs)%Z) /\
  ((fexp prec emax (Zdigits2 mx + ex) <= ex)%Z -> loc_of_shr_record mrs = lx).
Proof.
  intros Hmx. unfold shr_fexp, shr. rewrite fexp_binary64.
  remember (Z.max (Zdigits2 mx + ex - 53) (-1074) - ex)%Z as n eqn:Hn.
  assert (Hdigits : (0 < mx)%Z -> (2 ^ (Zdigits2 mx - 1) <= mx)%Z).
  { destruct mx as [|p|p]; try lia. intros _. apply digits2_bounds. }
  assert (Hzero : Zdigits2 0 = 0%Z) by reflexivity.
  destruct n as [|p|p].
  - rewrite shr_m_record_of_loc, loc_of_record_of_loc.
    split; [exact Hmx|]. split; [Lra.lra|]. split; [tauto|].
    split; [|reflexivity].
    intros _ He. destruct mx as [|q|q]; try lia.
    specialize (Hdigits ltac:(lia)).
    replace (Zdigits2 (Z.pos q)) with 53%Z in Hdigits by lia. exact Hdigits.
  - pose proof (iter_shr_1_Shifted p (shr_record_of_loc mx lx)) as [Hm Hexact].
    { now rewrite shr_m_record_of_loc. }
    rewrite shr_m_record_of_loc in Hm, Hexact.
    set (mrs := SpecFloat.iter_pos shr_1 p (shr_record_of_loc mx lx)) in *.
    assert (Hpow : (0 < 2 ^ Z.pos p)%Z) by (apply Z.pow_pos_nonneg; lia).
    assert (Hfloor : (shr_m mrs * 2 ^ Z.pos p <= mx)%Z).
    { rewrite Hm. pose proof (Z.mul_div_le mx (2 ^ Z.pos p) Hpow). lia. }
    split; [rewrite Hm; apply Z.div_pos; lia|].
    split; [rewrite <- F2R_shift by lia; now apply F2R_le|].
    split.
    + intros Hinexact. rewrite loc_of_record_exact in Hinexact.
      destruct lx as [|c]; [|left; discriminate]. right.
      rewrite <- F2R_shift by lia. apply F2R_lt.
      destruct (Z.eq_dec mx (shr_m mrs * 2 ^ Z.pos p)) as [Heq|Hne]; [|lia].
      destruct Hinexact. apply Hexact. split; [|exact Heq].
      now apply record_of_loc_exact.
    + split; [|lia]. intros _ He.
      assert (Hd : (Zdigits2 mx = Z.pos p + 53)%Z) by lia.
      assert (Hpos : (0 < mx)%Z).
      { destruct mx as [|q|q]; [rewrite Hzero in Hd|..]; lia. }
      specialize (Hdigits Hpos). rewrite Hd in Hdigits.
      replace (Z.pos p + 53 - 1)%Z with (52 + Z.pos p)%Z in Hdigits by lia.
      rewrite Z.pow_add_r in Hdigits by lia.
      rewrite Hm. apply Z.div_le_lower_bound; lia.
  - rewrite shr_m_record_of_loc, loc_of_record_of_loc.
    split; [exact Hmx|]. split; [Lra.lra|]. split; [tauto|].
    split; [|reflexivity].
    intros Hprec He. lia.
Qed.


Lemma round_nearest_even_cases (m : Z) (l : location) :
  round_nearest_even m l = m \/
  (round_nearest_even m l = (m + 1)%Z /\ l <> loc_Exact).
Proof.
  destruct l as [|[]]; cbn; auto.
  all: try destruct (Z.even m); auto.
  all: right; split; [reflexivity | discriminate].
Qed.

(** Rounding to nearest does not step over a number of the format:
    if the value that [binary_round_aux] is given is at most [B], so
    is what it returns. *)
Lemma binary_round_aux_bound (mx ex : Z) (lx : location) (mb : positive) (eb : Z) :
  (0 <= mx)%Z ->
  canonical_mantissa prec emax mb eb = true ->
  (lx <> loc_Exact -> (ex <= fexp prec emax (Zdigits2 mx + ex))%Z) ->
  F2R mx ex <= F2R (Z.pos mb) eb ->
  (lx <> loc_Exact -> F2R mx ex < F2R (Z.pos mb) eb) ->
  match binary_round_aux prec emax false mx ex lx with
  | S754_zero false => True
  | S754_finite false m e => F2R (Z.pos m) e <= F2R (Z.pos mb) eb
  | S754_infinity false => bpow 972 <= F2R (Z.pos mb) eb
  | _ => False
  end.
Proof.
  intros Hmx Hcanonical Hprec Hle Hlt.
  apply canonical_binary64 in Hcanonical as (Heb & Hmb & _).
  unfold binary_round_aux.
  pose proof (shr_fexp_truncates mx ex lx Hmx) as H1.
  destruct (shr_fexp prec emax mx ex lx) as [mrs1 e1].
  destruct H1 as (Hm1 & Hle1 & Hinexact1 & Hfull1 & Hsame1).
  set (m1 := shr_m mrs1) in *. set (l1 := loc_of_shr_record mrs1) in *.
  assert (Hm2 : (0 <= round_nearest_even m1 l1)%Z /\
                F2R (round_nearest_even m1 l1) e1 <= F2R (Z.pos mb) eb).
  { destruct (round_nearest_even_cases m1 l1) as [->|[-> Hl1]]; [split; [lia | Lra.lra]|].
    split; [lia|].
    assert (Hbelow : F2R m1 e1 < F2R (Z.pos mb) eb).
    { destruct (Hinexact1 Hl1) as [Hlx|Hstrict]; [specialize (Hlt Hlx)|]; Lra.lra. }
    destruct (Z.le_gt_cases e1 eb) as [He|He].
    - replace eb with (e1 + (eb - e1))%Z in Hbelow |- * by lia.
      rewrite <- F2R_shift in Hbelow |- * by lia.
      apply F2R_lt_inv in Hbelow. apply F2R_le. lia.
    - exfalso.
      assert (Hlx : lx <> loc_Exact \/ lx = loc_Exact) by (destruct lx; [right|left]; easy).
      assert (Hfull : (2 ^ 52 <= m1)%Z).
      { destruct (Z.le_gt_cases ex (fexp prec emax (Zdigits2 mx + ex))) as [Hp|Hp];
          [apply Hfull1; [exact Hp | lia]|].
        destruct Hlx as [Hlx|Hlx]; [specialize (Hprec Hlx); lia|].
        exfalso. apply Hl1. rewrite <- Hlx. apply Hsame1. lia. }
      assert (Hbig : F2R (2 ^ 53) eb <= F2R m1 e1).
      { replace e1 with (eb + (e1 - eb))%Z by lia. rewrite <- F2R_shift by lia.
        apply F2R_le.
        assert (2 <= 2 ^ (e1 - eb))%Z.
        { replace (e1 - eb)%Z with (Z.succ (e1 - eb - 1)) by lia.
          rewrite Z.pow_succ_r by lia.
          assert (0 < 2 ^ (e1 - eb - 1))%Z by (apply Z.pow_pos_nonneg; lia). lia. }
        change (2 ^ 53)%Z with (2 ^ 52 * 2)%Z. nia. }
      assert (Hsmall : F2R (Z.pos mb) eb < F2R (2 ^ 53) eb) by (apply F2R_lt; exact Hmb).
      Lra.lra. }
  destruct Hm2 as [Hm2 Hle2].
  pose proof (shr_fexp_truncates (round_nearest_even m1 l1) e1 loc_Exact Hm2) as H3.
  destruct (shr_fexp prec emax (round_nearest_even m1 l1) e1 loc_Exact) as [mrs3 e3].
  destruct H3 as (Hm3 & Hle3 & _).
  destruct (shr_m mrs3) as [|m3|m3]; [exact I| |lia].
  destruct (Z.leb_spec e3 (emax - prec)) as [He3|He3]; [Lra.lra|].
  change (emax - prec)%Z with 971%Z in He3.
  assert (Hone : F2R 1 e3 <= F2R (Z.pos m3) e3) by (apply F2R_le; lia).
  unfold F2R at 1 in Hone. pose proof (bpow_le 972 e3 ltac:(lia)). Lra.lra.
Qed.


(** Order of two positive numbers of the format, by their values. *)
Lemma SFleb_of_value (m1 m2 : positive) (e1 e2 : Z) :
  canonical_mantissa prec emax m1 e1 = true ->
  canonical_mantissa prec emax m2 e2 = true ->
  F2R (Z.pos m1) e1 <= F2R (Z.pos m2) e2 ->
  SFleb (S754_finite false m1 e1) (S754_finite false m2 e2) = true.
Proof.
  intros (He1 & Hm1 & Hfull1)%canonical_binary64 (He2 & Hm2 & Hfull2)%canonical_binary64 Hle.
  unfold SFleb, SFcompare.
  destruct (Z.compare_spec e1 e2) as [->|Hlt|Hgt]; [|reflexivity|exfalso].
  - apply F2R_le_inv in Hle. change (Pos.compare_cont Eq m1 m2) with (m1 ?= m2)%positive.
    destruct (Pos.compare_spec m1 m2); [reflexivity | reflexivity | lia].
  - specialize (Hfull1 ltac:(lia)).
    assert (Hbig : F2R (2 ^ 53) e2 <= F2R (Z.pos m1) e1).
    { replace e1 with (e2 + (e1 - e2))%Z by lia. rewrite <- F2R_shift by lia.
      apply F2R_le.
      assert (2 <= 2 ^ (e1 - e2))%Z.
      { replace (e1 - e2)%Z with (Z.succ (e1 - e2 - 1)) by lia.
        rewrite Z.pow_succ_r by lia.
        assert (0 < 2 ^ (e1 - e2 - 1))%Z by (apply Z.pow_pos_nonneg; lia). lia. }
      change (2 ^ 53)%Z with (2 ^ 52 * 2)%Z. nia. }
    assert (Hsmall : F2R (Z.pos m2) e2 < F2R (2 ^ 53) e2) by (apply F2R_lt; exact Hm2).
    Lra.lra.
Qed.

Lemma value_of_SFleb (m1 m2 : positive) (e1 e2 : Z) :
  canonical_mantissa prec emax m1 e1 = true ->
  canonical_mantissa prec emax m2 e2 = true ->
  SFleb (S754_finite false m1 e1) (S754_finite false m2 e2) = true ->
  F2R (Z.pos m1) e1 <= F2R (Z.pos m2) e2.
Proof.
  intros (He1 & Hm1 & Hfull1)%canonical_binary64 (He2 & Hm2 & Hfull2)%canonical_binary64.
  unfold SFleb, SFcompare.
  destruct (Z.compare_spec e1 e2) as [->|Hlt|Hgt]; [| |discriminate].
  - change (Pos.compare_cont Eq m1 m2) with (m1 ?= m2)%positive.
    destruct (Pos.compare_spec m1 m2); try discriminate; intros _; apply F2R_le; lia.
  - intros _. specialize (Hfull2 ltac:(lia)).
    replace e2 with (e1 + (e2 - e1))%Z by lia. rewrite <- F2R_shift by lia.
    apply F2R_le.
    assert (2 <= 2 ^ (e2 - e1))%Z.
    { replace (e2 - e1)%Z with (Z.succ (e2 - e1 - 1)) by lia.
      rewrite Z.pow_succ_r by lia.
      assert (0 < 2 ^ (e2 - e1 - 1))%Z by (apply Z.pow_pos_nonneg; lia). lia. }
    change (2 ^ 53)%Z with (2 ^ 52 * 2)%Z in Hm1. nia.
Qed.

Lemma Zdigits2_lower (q k : Z) : (0 <= k)%Z -> (2 ^ k <= q)%Z -> (k < Zdigits2 q)%Z.
Proof.
  intros Hk Hq.
  assert (Hpos : (0 < 2 ^ k)%Z) by (apply Z.pow_pos_nonneg; lia).
  destruct q as [|p|p]; try lia. cbn [Zdigits2].
  pose proof (digits2_bounds p) as [_ Hhigh].
  apply (Z.pow_lt_mono_r_iff 2); lia.
Qed.

Lemma Zdigits2_nonneg (q : Z) : (0 <= Zdigits2 q)%Z.
Proof. destruct q; cbn; lia. Qed.

Lemma new_location_exact (nb_steps k : Z) :
  new_location nb_steps k = loc_Exact <-> k = 0%Z.
Proof.
  unfold new_location, new_location_even, new_location_odd.
  destruct (Z.even nb_steps); destruct (Z.eqb_spec k 0); split;
    try discriminate; try easy.
Qed.

Lemma F2R_one : F2R (2 ^ 52) (-52) = 1.
Proof.
  unfold F2R. rewrite <- (bpow_IZR 52) by lia. rewrite <- bpow_add. reflexivity.
Qed.

(** The quotient that [SFdiv] hands to the rounding, for a dividend
    that is at most the divisor: not negative, with enough digits, at
    most one, and strictly below one when it is not exact. *)
Lemma SFdiv_core_below_one (mx mw : positive) (ex ew : Z) :
  F2R (Z.pos mx) ex <= F2R (Z.pos mw) ew ->
  let '(q, e, l) := SFdiv_core_binary prec emax (Z.pos mx) ex (Z.pos mw) ew in
  (0 <= q)%Z /\
  (e <= fexp prec emax (Zdigits2 q + e))%Z /\
  F2R q e <= 1 /\
  (l <> loc_Exact -> F2R q e < 1).
Proof.
  intros Hle. unfold SFdiv_core_binary. rewrite fexp_binary64.
  cbn [Zdigits2].
  set (d1 := Z.pos (digits2_pos mx)). set (d2 := Z.pos (digits2_pos mw)).
  set (e := Z.min (Z.max (d1 + ex - (d2 + ew) - 53) (-1074)) (ex - ew)).
  set (s := (ex - ew - e)%Z).
  assert (Hs : (0 <= s)%Z) by (unfold s, e; lia).
  assert (Hm' : match s with
                | Z.pos _ => Z.shiftl (Z.pos mx) s
                | 0%Z => Z.pos mx
                | Z.neg _ => 0%Z
                end = (Z.pos mx * 2 ^ s)%Z).
  { destruct s as [|p|p] eqn:Es; [lia | | lia]. now rewrite Z.shiftl_mul_pow2. }
  rewrite Hm'. clear Hm'.
  assert (Hpow : (0 < 2 ^ s)%Z) by (apply Z.pow_pos_nonneg; lia).
  pose proof (Z.div_eucl_eq (Z.pos mx * 2 ^ s) (Z.pos mw) ltac:(lia)) as Heucl.
  pose proof (Z.mod_pos_bound (Z.pos mx * 2 ^ s) (Z.pos mw) ltac:(lia)) as Hmod.
  unfold Z.modulo in Hmod.
  pose proof (Z.div_pos (Z.pos mx * 2 ^ s) (Z.pos mw) ltac:(lia) ltac:(lia)) as Hq.
  unfold Z.div in Hq.
  destruct (Z.div_eucl (Z.pos mx * 2 ^ s) (Z.pos mw)) as [q r]. cbn [fst snd] in *.
  rewrite fexp_binary64.
  pose proof (digits2_bounds mx) as [Hmx_low Hmx_high].
  pose proof (digits2_bounds mw) as [Hmw_low Hmw_high].
  fold d1 in Hmx_low, Hmx_high. fold d2 in Hmw_low, Hmw_high.
  assert (Hd1 : (1 <= d1)%Z) by (unfold d1; lia).
  assert (Hd2 : (1 <= d2)%Z) by (unfold d2; lia).
  split; [exact Hq|]. split.
  - assert (Hdq : (d1 + s - d2 <= Zdigits2 q)%Z).
    { destruct (Z.le_gt_cases 0 (d1 + s - 1 - d2)) as [Hk|Hk];
        [|pose proof (Zdigits2_nonneg q); lia].
      assert (Hqk : (2 ^ (d1 + s - 1 - d2) <= q)%Z).
      { assert (Hm'low : (2 ^ (d1 + s - 1 - d2) * 2 ^ d2 <= Z.pos mx * 2 ^ s)%Z).
        { rewrite <- Z.pow_add_r by lia.
          replace (d1 + s - 1 - d2 + d2)%Z with ((d1 - 1) + s)%Z by lia.
          rewrite Z.pow_add_r by lia. nia. }
        assert (Hkpos : (0 < 2 ^ (d1 + s - 1 - d2))%Z) by (apply Z.pow_pos_nonneg; lia).
        nia. }
      pose proof (Zdigits2_lower q _ Hk Hqk). lia. }
    unfold e in *. lia.
  - assert (Hvalue : F2R q e * F2R (Z.pos mw) ew <= F2R (Z.pos mx) ex /\
                     (r <> 0%Z -> F2R q e * F2R (Z.pos mw) ew < F2R (Z.pos mx) ex)).
    { assert (Hex : F2R (Z.pos mx) ex = IZR (Z.pos mx * 2 ^ s) * (bpow e * bpow ew)).
      { rewrite <- bpow_add. replace (e + ew)%Z with (ex - s)%Z by (unfold s; lia).
        change (IZR (Z.pos mx * 2 ^ s) * bpow (ex - s)) with (F2R (Z.pos mx * 2 ^ s) (ex - s)).
        rewrite F2R_shift by lia. f_equal. lia. }
      assert (Hq' : F2R q e * F2R (Z.pos mw) ew = IZR (Z.pos mw * q) * (bpow e * bpow ew)).
      { unfold F2R. rewrite mult_IZR. Lra.lra. }
      rewrite Hex, Hq'.
      pose proof (bpow_pos e). pose proof (bpow_pos ew).
      assert (0 < bpow e * bpow ew) by Lra.nra.
      split.
      - apply Rmult_le_compat_r; [Lra.lra|]. apply IZR_le. lia.
      - intros Hr. apply Rmult_lt_compat_r; [Lra.lra|]. apply IZR_lt. lia. }
    destruct Hvalue as [Hv Hvstrict].
    assert (Hw : 0 < F2R (Z.pos mw) ew).
    { unfold F2R. pose proof (bpow_pos ew). assert (0 < IZR (Z.pos mw)) by (apply IZR_lt; lia).
      Lra.nra. }
    split.
    + apply (Rmult_le_reg_r (F2R (Z.pos mw) ew)); [exact Hw|]. Lra.lra.
    + intros Hl. rewrite new_location_exact in Hl. specialize (Hvstrict Hl).
      apply (Rmult_lt_reg_r (F2R (Z.pos mw) ew)); [exact Hw|]. Lra.lra.
Qed.


Lemma F2R_pos (m : positive) (e : Z) : 0 < F2R (Z.pos m) e.
Proof.
  unfold F2R. pose proof (bpow_pos e).
  assert (0 < IZR (Z.pos m)) by (apply IZR_lt; lia). Lra.nra.
Qed.

Lemma F2R_mult (m1 m2 e1 e2 : Z) : F2R (m1 * m2) (e1 + e2) = F2R m1 e1 * F2R m2 e2.
Proof. unfold F2R. rewrite mult_IZR, bpow_add. Lra.lra. Qed.

Lemma F2R_hundred : F2R 7036874417766400 (-46) = 100.
Proof.
  change 7036874417766400%Z with (100 * 2 ^ 46)%Z. rewrite F2R_shift by lia.
  change (-46 + 46)%Z with 0%Z. unfold F2R, bpow. cbn [powerRZ]. Lra.lra.
Qed.

Lemma bpow_972 : 128 < bpow 972.
Proof.
  pose proof (bpow_lt 7 972 ltac:(lia)) as H. rewrite (bpow_IZR 7) in H by lia.
  exact H.
Qed.

(** [x / w] for positive numbers [x <= w] of the format is zero or a
    positive number of value at most one. *)
Lemma SFdiv_below_one (mx mw : positive) (ex ew : Z) :
  canonical_mantissa prec emax mx ex = true ->
  canonical_mantissa prec emax mw ew = true ->
  SFleb (S754_finite false mx ex) (S754_finite false mw ew) = true ->
  match SF64div (S754_finite false mx ex) (S754_finite false mw ew) with
  | S754_zero false => True
  | S754_finite false m e => F2R (Z.pos m) e <= 1
  | _ => False
  end.
Proof.
  intros Hcx Hcw Hle.
  pose proof (value_of_SFleb mx mw ex ew Hcx Hcw Hle) as Hv.
  pose proof (SFdiv_core_below_one mx mw ex ew Hv) as Hcore.
  unfold SF64div, SFdiv. cbn [xorb].
  destruct (SFdiv_core_binary prec emax (Z.pos mx) ex (Z.pos mw) ew) as [[q e] l].
  destruct Hcore as (Hq & Hprec & Hle1 & Hlt1).
  rewrite <- F2R_one in Hle1, Hlt1.
  pose proof (binary_round_aux_bound q e l 4503599627370496 (-52) Hq eq_refl
                (fun _ => Hprec) Hle1 Hlt1) as Hround.
  change (Z.pos 4503599627370496) with (2 ^ 52)%Z in Hround.
  rewrite F2R_one in Hround.
  destruct (binary_round_aux prec emax false q e l) as [[]|[]| |[] m e']; try exact Hround.
  pose proof bpow_972. Lra.lra.
Qed.

(** A positive number of value at most one, times 100, is zero or a
    positive number of value at most 100. *)
Lemma SFmul_hundred (mq : positive) (eq : Z) :
  F2R (Z.pos mq) eq <= 1 ->
  match SF64mul (S754_finite false mq eq) (S754_finite false 7036874417766400 (-46)) with
  | S754_zero false => True
  | S754_finite false m e => F2R (Z.pos m) e <= F2R 7036874417766400 (-46)
  | _ => False
  end.
Proof.
  intros Hq. unfold SF64mul, SFmul. cbn [xorb].
  assert (Hvalue : F2R (Z.pos (mq * 7036874417766400)) (eq + -46) <=
                   F2R (Z.pos 7036874417766400) (-46)).
  { rewrite Pos2Z.inj_mul, F2R_mult. pose proof (F2R_pos 7036874417766400 (-46)).
    pose proof (F2R_pos mq eq). Lra.nra. }
  pose proof (binary_round_aux_bound (Z.pos (mq * 7036874417766400)) (eq + -46) loc_Exact
                7036874417766400 (-46) ltac:(lia) eq_refl
                ltac:(intros H; now destruct H) Hvalue
                ltac:(intros H; now destruct H)) as Hround.
  destruct (binary_round_aux prec emax false _ _ loc_Exact) as [[]|[]| |[] m e'];
    try exact Hround.
  rewrite F2R_hundred in Hround. pose proof bpow_972. Lra.lra.
Qed.

Lemma valid_canonical (s : bool) (m : positive) (e : Z) :
  valid_binary (S754_finite s m e) = true -> canonical_mantissa prec emax m e = true.
Proof. cbn. unfold bounded. now intros [H _]%andb_true_iff. Qed.

(** In binary64: a coordinate between 0 and a positive finite
    extent is, as a percentage of the extent, between 0 and 100. *)
Lemma float_percent_range (x w : float) :
  PrimFloat.leb 0 x = true ->
  PrimFloat.leb x w = true ->
  PrimFloat.ltb 0 w = true ->
  PrimFloat.ltb w infinity = true ->
  PrimFloat.leb 0 (x / w * 100)%float = true /\
  PrimFloat.leb (x / w * 100)%float 100 = true.
Proof.
  rewrite !leb_spec, !ltb_spec, mul_spec, div_spec.
  pose proof (Prim2SF_valid x) as Hvx. pose proof (Prim2SF_valid w) as Hvw.
  pose proof (Prim2SF_valid (x / w)) as Hvq. rewrite div_spec in Hvq.
  pose proof (Prim2SF_valid (x / w * 100)) as Hvr. rewrite mul_spec, div_spec in Hvr.
  change (Prim2SF 0) with (S754_zero false).
  change (Prim2SF infinity) with (S754_infinity false).
  change (Prim2SF 100) with (S754_finite false 7036874417766400 (-46)) in *.
  destruct (Prim2SF w) as [sw|sw| |sw mw ew]; try discriminate.
  { destruct sw; discriminate. }
  destruct sw; [discriminate|].
  destruct (Prim2SF x) as [sx|sx| |sx mx ex]; try discriminate.
  { intros _ _ _ _. now destruct sx. }
  { destruct sx; discriminate. }
  destruct sx; [discriminate|].
  intros _ Hxw _ _.
  pose proof (SFdiv_below_one mx mw ex ew (valid_canonical _ _ _ Hvx)
                (valid_canonical _ _ _ Hvw) Hxw) as Hq.
  destruct (SF64div (S754_finite false mx ex) (S754_finite false mw ew))
    as [[]|[]| |[] mq eq]; try contradiction.
  { split; reflexivity. }
  pose proof (SFmul_hundred mq eq Hq) as Hr.
  destruct (SF64mul (S754_finite false mq eq) (S754_finite false 7036874417766400 (-46)))
    as [[]|[]| |[] mr er]; try contradiction.
  { split; reflexivity. }
  split; [reflexivity|].
  apply SFleb_of_value; [exact (valid_canonical _ _ _ Hvr) | reflexivity | exact Hr].
Qed.


Lemma SFcompare_antisym (x y : spec_float) :
  SFcompare y x = option_map CompOpp (SFcompare x y).
Proof.
  destruct x as [sx|sx| |sx mx ex], y as [sy|sy| |sy my ey];
    try destruct sx; try destruct sy; try reflexivity.
  all: cbn [SFcompare option_map]; f_equal.
  all: rewrite (Z.compare_antisym ex ey).
  all: destruct (ex ?= ey)%Z; cbn [CompOpp]; try reflexivity.
  all: change (Pos.compare_cont Eq ?a ?b) with (a ?= b)%positive.
  all: rewrite (Pos.compare_antisym mx my); destruct (mx ?= my)%positive; reflexivity.
Qed.

(** [x <= y] leaves no room for [y < x]. *)
Lemma float_leb_not_ltb (x y : float) :
  PrimFloat.leb x y = true -> PrimFloat.ltb y x = false.
Proof.
  rewrite leb_spec, ltb_spec. unfold SFleb, SFltb.
  rewrite (SFcompare_antisym (Prim2SF x) (Prim2SF y)).
  now destruct (SFcompare (Prim2SF x) (Prim2SF y)) as [[]|].
Qed.

(** Two numbers (neither is NaN) are ordered one way or the other. *)
Lemma float_not_leb_ltb (x y : float) :
  PrimFloat.eqb x x = true -> PrimFloat.eqb y y = true ->
  PrimFloat.leb x y = false -> PrimFloat.ltb y x = true.
Proof.
  rewrite !FloatAxioms.eqb_spec, leb_spec, ltb_spec. unfold SFeqb, SFleb, SFltb.
  rewrite (SFcompare_antisym (Prim2SF x) (Prim2SF y)).
  destruct (Prim2SF x) as [sx|sx| |sx mx ex], (Prim2SF y) as [sy|sy| |sy my ey];
    try discriminate; intros _ _.
  all: now destruct (SFcompare _ _) as [[]|] eqn:Hc; try discriminate.
Qed.

Lemma SFcompare_refl (x : spec_float) :
  x <> S754_nan -> SFcompare x x = Some Eq.
Proof.
  destruct x as [s|s| |s m e]; try destruct s; try reflexivity; try congruence.
  all: intros _; cbn [SFcompare]; rewrite Z.compare_refl.
  all: change (Pos.compare_cont Eq m m) with (m ?= m)%positive.
  all: now rewrite Pos.compare_refl.
Qed.

(** What [<] finds above something is a number. *)
Lemma float_ltb_number (x y : float) :
  PrimFloat.ltb x y = true -> PrimFloat.eqb y y = true.
Proof.
  rewrite ltb_spec, FloatAxioms.eqb_spec. unfold SFltb, SFeqb.
  intros H. rewrite SFcompare_refl; [reflexivity|].
  intros Hy. rewrite Hy in H.
  now destruct (Prim2SF x) as [[]|[]| |[] ? ?].
Qed.

Lemma float_zero_number : PrimFloat.eqb 0 0 = true.
Proof. reflexivity. Qed.

(** The bounds test of the code, on numbers. *)
Lemma float_outside_false (c extent : float) :
  PrimFloat.leb 0 c = true -> PrimFloat.leb c extent = true ->
  outside c extent = false.
Proof.
  intros H0 H1. unfold outside. cbn [js_lt js_zero float_JsNumber].
  now rewrite (float_leb_not_ltb 0 c H0), (float_leb_not_ltb c extent H1).
Qed.

Lemma float_outside_true (c extent : float) :
  PrimFloat.eqb c c = true -> PrimFloat.eqb extent extent = true ->
  ~ (PrimFloat.leb 0 c = true /\ PrimFloat.leb c extent = true) ->
  outside c extent = true.
Proof.
  intros Hc He Hn. unfold outside. cbn [js_lt js_zero float_JsNumber].
  destruct (PrimFloat.leb 0 c) eqn:H0.
  - destruct (PrimFloat.leb c extent) eqn:H1; [now destruct Hn|].
    rewrite (float_not_leb_ltb c extent Hc He H1). apply orb_true_r.
  - now rewrite (float_not_leb_ltb 0 c float_zero_number Hc H0).
Qed.

End FloatRounding.

(** C7, amended.  In binary64, for every container, image and point for
    which the computed rendered width and height are positive and
    finite: when the computed image-local coordinates lie in
    [0, renderedWidth] x [0, renderedHeight] (border included) the
    mapper raises the drop with xPercent and yPercent both in [0, 100];
    when the coordinates are numbers and either lies outside, it raises
    nothing: the only effect is the console warning, and
    [mapToImageSpace] is [OutOfBounds].  The coordinates and the
    rendered size are the rounded ones the code computes, not those of
    the exact geometry; positive finite sides alone do not make the
    rendered size positive. *)
Theorem mapper_percent_range (box : DOMRect float) (img : Img float)
    (clientX clientY : float) :
  validRendering box img ->
  (insideRendered box img clientX clientY ->
     exists rel : RelativePosition float,
       ImageUploader.handlePlacement (dropZoneProps img) clientX clientY box =
         [ImageUploader.OnProductDrop
            {| px := (clientX - rect_left box)%float;
               py := (clientY - rect_top box)%float |} rel] /\
       mapToImageSpace box img clientX clientY = inr rel /\
       (PrimFloat.leb 0 (xPercent rel) = true /\
        PrimFloat.leb (xPercent rel) 100 = true) /\
       (PrimFloat.leb 0 (yPercent rel) = true /\
        PrimFloat.leb (yPercent rel) 100 = true)) /\
  (areNumbers box img clientX clientY ->
   ~ insideRendered box img clientX clientY ->
     ImageUploader.handlePlacement (dropZoneProps img) clientX clientY box =
       [ImageUploader.ConsoleWarn "Action was outside the image boundaries."] /\
     mapToImageSpace box img clientX clientY = inl OutOfBounds).
Proof.
  intros Hvalid.
  rewrite (handlePlacement_mapToImageSpace (dropZoneProps img) img) by reflexivity.
  unfold validRendering, insideRendered, areNumbers, mapToImageSpace in *.
  destruct (renderedSize box img) as [rw rh].
  destruct (imageLocal box img clientX clientY) as [ix iy].
  destruct Hvalid as [[Hw0 Hw1] [Hh0 Hh1]].
  split.
  - intros [[Hx0 Hx1] [Hy0 Hy1]].
    rewrite (float_outside_false ix rw Hx0 Hx1), (float_outside_false iy rh Hy0 Hy1).
    cbn [orb]. eexists. split; [reflexivity|]. split; [reflexivity|].
    cbn [xPercent yPercent js_div js_mul js_hundred float_JsNumber].
    split; apply float_percent_range; assumption.
  - intros [Hix Hiy] Hn.
    assert (Hout : outside ix rw || outside iy rh = true).
    { apply orb_true_iff.
      destruct (outside ix rw) eqn:Hox; [now left|right].
      apply float_outside_true; [exact Hiy | exact (float_ltb_number 0 rh Hh0) |].
      intros Hy. apply Hn. split; [|exact Hy].
      destruct (PrimFloat.leb 0 ix) eqn:H0, (PrimFloat.leb ix rw) eqn:H1; auto.
      all: exfalso; rewrite float_outside_true in Hox;
        [discriminate | exact Hix | exact (float_ltb_number 0 rw Hw0) |].
      all: intros [? ?]; congruence. }
    rewrite Hout. split; reflexivity.
Qed.

(** An instance: container 800x400, image 900x900, point (300,100). *)
Lemma mapper_percent_range_witness :
  exists rel : RelativePosition float,
    ImageUploader.handlePlacement (dropZoneProps squareImage) 300%float 100%float wideBox =
      [ImageUploader.OnProductDrop
         {| px := (300 - 0)%float; py := (100 - 0)%float |} rel] /\
    mapToImageSpace wideBox squareImage 300%float 100%float = inr rel /\
    (PrimFloat.leb 0 (xPercent rel) = true /\
     PrimFloat.leb (xPercent rel) 100 = true) /\
    (PrimFloat.leb 0 (yPercent rel) = true /\
     PrimFloat.leb (yPercent rel) 100 = true).
Proof.
  apply (proj1 (mapper_percent_range wideBox squareImage 300%float 100%float
    (conj (conj eq_refl eq_refl) (conj eq_refl eq_refl)))).
  vm_compute. repeat split; reflexivity.
Defined.

(** The claim read over the exact geometry, or over every container and
    image with positive finite sides, does not hold of the code.

    Container 1280x720, image 700x500, point (136,360): in exact
    arithmetic the rendered image is 1008 wide and starts at x = 136, so
    the point is on its left border and maps to 0%; the code computes a
    rendered width just below 1008, an offset just above 136, a negative
    image-local x, and rejects the point.

    Container 100x100, image 2^1000 x 2^-1000, point (50,50): the
    computed rendered size is 100x0, the computed image-local point
    (50,0) lies within it, and the drop is raised with a vertical
    percentage that is NaN, so not in [0, 100]. *)
Lemma border_point_rejected_in_binary64 :
  (validGeometry
     {| rect_left := 0%Q; rect_top := 0%Q; rect_width := 1280%Q; rect_height := 720%Q |}
     {| naturalWidth := 700%Q; naturalHeight := 500%Q |} /\
   withinRendered
     {| rect_left := 0%Q; rect_top := 0%Q; rect_width := 1280%Q; rect_height := 720%Q |}
     {| naturalWidth := 700%Q; naturalHeight := 500%Q |} 136%Q 360%Q /\
   (exists rel : RelativePosition Q,
      mapToImageSpace
        {| rect_left := 0%Q; rect_top := 0%Q; rect_width := 1280%Q; rect_height := 720%Q |}
        {| naturalWidth := 700%Q; naturalHeight := 500%Q |} 136%Q 360%Q = inr rel /\
      (xPercent rel == 0)%Q /\ (yPercent rel == 50)%Q) /\
   ImageUploader.handlePlacement (dropZoneProps photoImage) 136%float 360%float hdBox =
     [ImageUploader.ConsoleWarn "Action was outside the image boundaries."] /\
   mapToImageSpace hdBox photoImage 136%float 360%float = inl OutOfBounds) /\
  (PrimFloat.ltb 0 (naturalWidth stripImage) = true /\
   PrimFloat.ltb (naturalWidth stripImage) infinity = true /\
   PrimFloat.ltb 0 (naturalHeight stripImage) = true /\
   PrimFloat.ltb (naturalHeight stripImage) infinity = true /\
   renderedSize squareBox stripImage = (100%float, 0%float) /\
   imageLocal squareBox stripImage 50%float 50%float = (50%float, 0%float) /\
   insideRendered squareBox stripImage 50%float 50%float /\
   ImageUploader.handlePlacement (dropZoneProps stripImage) 50%float 50%float squareBox =
     [ImageUploader.OnProductDrop {| px := 50%float; py := 50%float |}
        {| xPercent := 50%float; yPercent := nan |}] /\
   PrimFloat.leb 0 nan = false /\ PrimFloat.leb nan 100 = false).
Proof.
  split.
  - split; [repeat split|].
    split; [vm_compute; repeat split; discriminate|].
    split; [eexists; split; [vm_compute; reflexivity | split; reflexivity]|].
    split; vm_compute; reflexivity.
  - repeat split; vm_compute; reflexivity.
Qed.

(** A pointer coordinate that is NaN passes the bounds test, every
    comparison with NaN being false: the drop is raised with a NaN
    percentage. *)
Example nan_point_is_not_rejected :
  validRendering wideBox squareImage /\
  ~ insideRendered wideBox squareImage nan 100%float /\
  mapToImageSpace wideBox squareImage nan 100%float =
    inr {| xPercent := nan; yPercent := 25%float |}.
Proof.
  split; [vm_compute; repeat split; reflexivity|].
  split; [|vm_compute; reflexivity].
  vm_compute. intros [[H _] _]. discriminate.
Qed.

(** ** Drops outside the image *)

Section SilentDrop.
Context {num : Type} {JS : JsNumber num}.

Lemma clearUrlError_id (s : ImageUploader.State num) :
  ImageUploader.urlError s = None -> clearUrlError s = s.
Proof.
  destruct s as [d o f i b u]. cbn. intros ->. reflexivity.
Qed.

End SilentDrop.

(** C8. When the mapper rejects the point of a drop as out of bounds,
    the drop is a silent no-op.  In the uploader, [handlePlacement]
    raises no [onProductDrop] (it only logs a console warning), a click
    leaves the component state untouched, and a mouse drop leaves what
    every drop leaves: the drag indicator reset as by [handleDragLeave]
    and the URL warning cleared (so nothing at all besides the drag
    indicator when no URL warning was showing).  In the app, the end of
    a touch drag raises no placement request and resets the touch-drag
    indicator only: every other part of the state, the error and the
    context menu included, is unchanged. *)
Theorem out_of_bounds_drop_is_silent (num : Type) (JS : JsNumber num)
    (img : Img num) (event : ImageUploader.PointerEvent num)
    (u : ImageUploader.State num) (s : App.State num) :
  mapToImageSpace (ImageUploader.currentTarget event) img
    (ImageUploader.clientX event) (ImageUploader.clientY event) = inl OutOfBounds ->
  ImageUploader.handlePlacement (dropZoneProps img)
    (ImageUploader.clientX event) (ImageUploader.clientY event)
    (ImageUploader.currentTarget event) =
    [ImageUploader.ConsoleWarn "Action was outside the image boundaries."] /\
  ImageUploader.handleClick (dropZoneProps img) event u =
    (u, [ImageUploader.ConsoleWarn "Action was outside the image boundaries."]) /\
  ImageUploader.handleDrop (dropZoneProps img) event u =
    (clearUrlError (ImageUploader.handleDragLeave u),
     [ImageUploader.ConsoleWarn "Action was outside the image boundaries."]) /\
  (ImageUploader.urlError u = None ->
   fst (ImageUploader.handleDrop (dropZoneProps img) event u) =
     ImageUploader.handleDragLeave u) /\
  App.handleTouchEnd
    {| px := ImageUploader.clientX event; py := ImageUploader.clientY event |}
    (Some (ImageUploader.currentTarget event)) (Some img) s =
    (if App.isTouchDragging s then endTouchDrag s else s) /\
  App.handleTouchEnd
    {| px := ImageUploader.clientX event; py := ImageUploader.clientY event |}
    (Some (ImageUploader.currentTarget event)) (Some img) s =
    App.handleTouchEnd
      {| px := ImageUploader.clientX event; py := ImageUploader.clientY event |}
      None None s.
Proof.
  intros Hout.
  assert (Hp : ImageUploader.handlePlacement (dropZoneProps img)
                 (ImageUploader.clientX event) (ImageUploader.clientY event)
                 (ImageUploader.currentTarget event) =
               [ImageUploader.ConsoleWarn "Action was outside the image boundaries."]).
  { rewrite (handlePlacement_mapToImageSpace (dropZoneProps img) img) by reflexivity.
    now rewrite Hout. }
  assert (Hd : ImageUploader.handleDrop (dropZoneProps img) event u =
               (clearUrlError (ImageUploader.handleDragLeave u),
                [ImageUploader.ConsoleWarn "Action was outside the image boundaries."])).
  { unfold ImageUploader.handleDrop. cbn [dropZoneProps ImageUploader.isDropZone
      ImageUploader.hasOnProductDrop andb]. rewrite Hp. reflexivity. }
  split; [exact Hp|]. split.
  { unfold ImageUploader.handleClick. cbn [dropZoneProps ImageUploader.isDropZone
      ImageUploader.hasOnProductDrop andb]. now rewrite Hp. }
  split; [exact Hd|]. split.
  { intros Hu. rewrite Hd. cbn [fst]. now apply clearUrlError_id. }
  rewrite handleTouchEnd_mapToImageSpace. cbn [px py]. rewrite Hout.
  split; [reflexivity|].
  unfold App.handleTouchEnd, endTouchDrag.
  destruct (App.isTouchDragging s); reflexivity.
Qed.

Lemma out_of_bounds_drop_is_silent_witness :
  ImageUploader.handleDrop (dropZoneProps squareImage) letterboxDrop idleUploader =
    (clearUrlError (ImageUploader.handleDragLeave idleUploader),
     [ImageUploader.ConsoleWarn "Action was outside the image boundaries."]).
Proof.
  apply (out_of_bounds_drop_is_silent float _ squareImage letterboxDrop idleUploader
           App.initialState).
  vm_compute. reflexivity.
Defined.

(** ** Scene history *)

Section HistoryFacts.
Context {num : Type} {JS : JsNumber num}.
Import App.

Implicit Types s : State num.

Lemma pushLimited_snoc (previousScene : File) (history : list File) :
  pushLimited previousScene history =
  (if (10 <=? length history)%nat then tail history else history) ++ [previousScene].
Proof.
  unfold pushLimited. rewrite length_app. cbn [length].
  destruct (Nat.leb_spec 10 (length history)) as [Hle|Hlt].
  - destruct (Nat.ltb_spec 10 (length history + 1)) as [_|Hge]; [|lia].
    destruct history; [cbn in Hle; lia | reflexivity].
  - destruct (Nat.ltb_spec 10 (length history + 1)) as [Hgt|_]; [lia | reflexivity].
Qed.



Lemma pop_snoc (rest : list File) (top : File) :
  pop (rest ++ [top]) = (Some top, rest).
Proof.
  unfold pop. now rewrite last_snoc, removelast_last.
Qed.

Lemma length_snoc_nonzero (rest : list File) (top : File) :
  (length (rest ++ [top]) =? 0)%nat = false.
Proof.
  rewrite length_app. cbn [length]. apply Nat.eqb_neq. lia.
Qed.

(** What undo does when it acts. *)
Lemma handleUndo_acts s (current previousScene : File) (rest : list File) :
  sceneImage s = Some current ->
  undoHistory s = rest ++ [previousScene] ->
  handleUndo s =
  setCanRedo true
    (setCanUndo (0 <? length rest)%nat
       (setSceneImage (Some previousScene)
          (setRedoHistory (redoHistory s ++ [current])
             (setUndoHistory rest s)))).
Proof.
  intros Hscene Hundo. unfold handleUndo.
  rewrite Hscene, Hundo, length_snoc_nonzero, pop_snoc. reflexivity.
Qed.

Lemma handleRedo_acts s (current nextScene : File) (rest : list File) :
  sceneImage s = Some current ->
  redoHistory s = rest ++ [nextScene] ->
  handleRedo s =
  setCanUndo true
    (setCanRedo (0 <? length rest)%nat
       (setSceneImage (Some nextScene)
          (setUndoHistory (undoHistory s ++ [current])
             (setRedoHistory rest s)))).
Proof.
  intros Hscene Hredo. unfold handleRedo.
  rewrite Hscene, Hredo, length_snoc_nonzero, pop_snoc. reflexivity.
Qed.

Lemma snoc_or_nil (l : list File) :
  l = [] \/ exists rest top, l = rest ++ [top].
Proof.
  destruct l as [|x l] using rev_ind; [left; reflexivity | right; eauto].
Qed.

(** Undo either changes nothing or acts as [handleUndo_acts] says. *)
Lemma handleUndo_cases s :
  handleUndo s = s \/
  exists current previousScene rest,
    sceneImage s = Some current /\
    undoHistory s = rest ++ [previousScene] /\
    undoHistory (handleUndo s) = rest /\
    redoHistory (handleUndo s) = redoHistory s ++ [current] /\
    sceneImage (handleUndo s) = Some previousScene.
Proof.
  destruct (sceneImage s) as [current|] eqn:Hscene.
  - destruct (snoc_or_nil (undoHistory s)) as [Hnil|(rest & top & Hsnoc)].
    + left. unfold handleUndo. now rewrite Hscene, Hnil.
    + right. exists current, top, rest.
      rewrite (handleUndo_acts s current top rest Hscene Hsnoc). auto.
  - left. unfold handleUndo. now rewrite Hscene.
Qed.

Lemma handleRedo_cases s :
  handleRedo s = s \/
  exists current nextScene rest,
    sceneImage s = Some current /\
    redoHistory s = rest ++ [nextScene] /\
    redoHistory (handleRedo s) = rest /\
    undoHistory (handleRedo s) = undoHistory s ++ [current] /\
    sceneImage (handleRedo s) = Some nextScene.
Proof.
  destruct (sceneImage s) as [current|] eqn:Hscene.
  - destruct (snoc_or_nil (redoHistory s)) as [Hnil|(rest & top & Hsnoc)].
    + left. unfold handleRedo. now rewrite Hscene, Hnil.
    + right. exists current, top, rest.
      rewrite (handleRedo_acts s current top rest Hscene Hsnoc). auto.
  - left. unfold handleRedo. now rewrite Hscene.
Qed.

End HistoryFacts.

Section MutationFacts.
Context {num : Type} {JS : JsNumber num} {B : Browser}.
Import App.

Implicit Types s : State num.

Lemma handleProductDrop_starts position relativePosition placementStyle s s1 issued :
  handleProductDrop position relativePosition placementStyle s = (s1, issued) ->
  history s1 = history s /\ flags s1 = flags s /\
  (issued = [] \/
   exists c previousScene,
     issued = [{| call := c; continuation := AwaitComposite previousScene |}] /\
     sceneImage s = Some previousScene).
Proof.
  unfold handleProductDrop.
  repeat break_match; intros [= <- <-]; (split; [|split]);
    try reflexivity; eauto.
Qed.

Lemma handleSurfaceModificationSubmit_starts modificationValue s s1 issued :
  handleSurfaceModificationSubmit modificationValue s = (s1, issued) ->
  history s1 = history s /\ flags s1 = flags s /\
  (issued = [] \/
   exists c previousScene,
     issued = [{| call := c; continuation := AwaitSurface previousScene |}] /\
     sceneImage s = Some previousScene).
Proof.
  unfold handleSurfaceModificationSubmit.
  repeat break_match; intros [= <- <-]; (split; [|split]);
    try reflexivity; eauto.
Qed.

Lemma handleSceneDesignGeneration_starts s s1 issued :
  handleSceneDesignGeneration s = (s1, issued) ->
  history s1 = history s /\ flags s1 = flags s /\
  (issued = [] \/
   exists c previousScene,
     issued = [{| call := c; continuation := AwaitRedesign previousScene |}] /\
     sceneImage s = Some previousScene).
Proof.
  unfold handleSceneDesignGeneration.
  repeat break_match; intros [= <- <-]; (split; [|split]);
    try reflexivity; eauto.
Qed.

Lemma resumeProductDrop_rejected previousScene err now s :
  reportsOnly ("Failed to generate the image. " +:+ errorMessage err) s
    (resumeProductDrop previousScene (Rejected err) now s).
Proof. repeat split. Qed.

Lemma resumeSurfaceModificationSubmit_rejected previousScene err now s :
  reportsOnly ("Failed to modify the surface. " +:+ errorMessage err) s
    (resumeSurfaceModificationSubmit previousScene (Rejected err) now s).
Proof. repeat split. Qed.

Lemma resumeSceneDesignGeneration_rejected previousScene err now s :
  reportsOnly ("Failed to generate the design. " +:+ errorMessage err) s
    (resumeSceneDesignGeneration previousScene (Rejected err) now s).
Proof. repeat split. Qed.

Lemma resumeProductDrop_undecodable previousScene result err now s :
  dataURLtoFile (finalImageUrl result)
    ("generated-scene-" +:+ numberToString now +:+ ".jpeg") = Throw err ->
  reportsOnly ("Failed to generate the image. " +:+ errorMessage err) s
    (resumeProductDrop previousScene (Fulfilled result) now s).
Proof. intros Hd. unfold resumeProductDrop. rewrite Hd. repeat split. Qed.

Lemma resumeSurfaceModificationSubmit_undecodable previousScene url err now s :
  dataURLtoFile url ("modified-scene-" +:+ numberToString now +:+ ".jpeg") = Throw err ->
  reportsOnly ("Failed to modify the surface. " +:+ errorMessage err) s
    (resumeSurfaceModificationSubmit previousScene (Fulfilled url) now s).
Proof. intros Hd. unfold resumeSurfaceModificationSubmit. rewrite Hd. repeat split. Qed.

Lemma resumeSceneDesignGeneration_undecodable previousScene url err now s :
  dataURLtoFile url ("redesigned-scene-" +:+ numberToString now +:+ ".jpeg") = Throw err ->
  reportsOnly ("Failed to generate the design. " +:+ errorMessage err) s
    (resumeSceneDesignGeneration previousScene (Fulfilled url) now s).
Proof. intros Hd. unfold resumeSceneDesignGeneration. rewrite Hd. repeat split. Qed.

Lemma resumeProductDrop_fulfilled previousScene result newScene now s :
  dataURLtoFile (finalImageUrl result)
    ("generated-scene-" +:+ numberToString now +:+ ".jpeg") = Normal newScene ->
  committed previousScene newScene s
    (resumeProductDrop previousScene (Fulfilled result) now s).
Proof. intros Hd. unfold resumeProductDrop. rewrite Hd. split; reflexivity. Qed.

Lemma resumeSurfaceModificationSubmit_fulfilled previousScene url newScene now s :
  dataURLtoFile url ("modified-scene-" +:+ numberToString now +:+ ".jpeg") = Normal newScene ->
  committed previousScene newScene s
    (resumeSurfaceModificationSubmit previousScene (Fulfilled url) now s).
Proof. intros Hd. unfold resumeSurfaceModificationSubmit. rewrite Hd. split; reflexivity. Qed.

Lemma resumeSceneDesignGeneration_fulfilled previousScene url newScene now s :
  dataURLtoFile url ("redesigned-scene-" +:+ numberToString now +:+ ".jpeg") = Normal newScene ->
  committed previousScene newScene s
    (resumeSceneDesignGeneration previousScene (Fulfilled url) now s).
Proof. intros Hd. unfold resumeSceneDesignGeneration. rewrite Hd. split; reflexivity. Qed.

(** A mutation that runs to a successful end commits over the scene
    that was current when it started. *)
Lemma Commits_committed s newScene s' :
  Commits s newScene s' ->
  exists current, sceneImage s = Some current /\ committed current newScene s s'.
Proof.
  intros [position relativePosition placementStyle s1 c previousScene result now Hstart Hd
         |modificationValue s1 c previousScene url now Hstart Hd
         |s1 c previousScene url now Hstart Hd].
  - apply handleProductDrop_starts in Hstart as (Hh & _ & [Hnil|(c' & p & Heq & Hs)]);
      [discriminate Hnil|].
    injection Heq as _ Hp. subst p.
    exists previousScene. split; [exact Hs|].
    destruct (resumeProductDrop_fulfilled previousScene result newScene now s1 Hd) as [Hc Hf].
    split; [|exact Hf]. rewrite Hc. injection Hh as _ Hu _. now rewrite Hu.
  - apply handleSurfaceModificationSubmit_starts
      in Hstart as (Hh & _ & [Hnil|(c' & p & Heq & Hs)]); [discriminate Hnil|].
    injection Heq as _ Hp. subst p.
    exists previousScene. split; [exact Hs|].
    destruct (resumeSurfaceModificationSubmit_fulfilled previousScene url newScene now s1 Hd)
      as [Hc Hf].
    split; [|exact Hf]. rewrite Hc. injection Hh as _ Hu _. now rewrite Hu.
  - apply handleSceneDesignGeneration_starts
      in Hstart as (Hh & _ & [Hnil|(c' & p & Heq & Hs)]); [discriminate Hnil|].
    injection Heq as _ Hp. subst p.
    exists previousScene. split; [exact Hs|].
    destruct (resumeSceneDesignGeneration_fulfilled previousScene url newScene now s1 Hd)
      as [Hc Hf].
    split; [|exact Hf]. rewrite Hc. injection Hh as _ Hu _. now rewrite Hu.
Qed.

End MutationFacts.

(** ** A worked session *)

Example sessionWithRedo_history :
  history (App.app sessionWithRedo) =
  (Some roomPhoto,
   [],
   [{| file_name := "redesigned-scene-1.jpeg";
       file_type := "image/jpeg";
       file_data := "green" |}]).
Proof. vm_compute. reflexivity. Qed.

(** Reset and change-scene, which are not commits, empty a redo stack
    that holds an entry. *)
Lemma reset_clears_redo_stack :
  App.redoHistory (App.app sessionWithRedo) <> [] /\
  App.redoHistory (App.app (App.step (B := App.plainBrowser) sessionWithRedo App.Reset)) = [] /\
  App.redoHistory
    (App.app (App.step (B := App.plainBrowser) sessionWithRedo App.ChangeScene)) = [].
Proof.
  split; [|split].
  - vm_compute. discriminate.
  - vm_compute. reflexivity.
  - vm_compute. reflexivity.
Qed.

(** C3, amended.  Every commit leaves the redo stack empty.  Undo and
    redo never clear a stack: each either changes nothing or pops the
    scene it restores from its own stack and pushes exactly one
    element, the current scene, onto the opposite stack.  Commit is
    not the only operation that empties the redo stack: reset,
    change-scene and a completed instant start empty both stacks. *)
Theorem redo_stack_cleared_by_commit_and_resets (num : Type) (JS : JsNumber num)
    (B : Browser) (s : App.State num) :
  (forall previousScene newSceneFile,
      App.redoHistory (App.commit previousScene newSceneFile s) = []) /\
  (forall newScene s', App.Commits s newScene s' -> App.redoHistory s' = []) /\
  (App.handleUndo s = s \/
   exists current previousScene rest,
     App.sceneImage s = Some current /\
     App.undoHistory s = rest ++ [previousScene] /\
     App.undoHistory (App.handleUndo s) = rest /\
     App.redoHistory (App.handleUndo s) = App.redoHistory s ++ [current] /\
     App.sceneImage (App.handleUndo s) = Some previousScene) /\
  (App.handleRedo s = s \/
   exists current nextScene rest,
     App.sceneImage s = Some current /\
     App.redoHistory s = rest ++ [nextScene] /\
     App.redoHistory (App.handleRedo s) = rest /\
     App.undoHistory (App.handleRedo s) = App.undoHistory s ++ [current] /\
     App.sceneImage (App.handleRedo s) = Some nextScene) /\
  (App.undoHistory (App.handleReset s) = [] /\
   App.redoHistory (App.handleReset s) = []) /\
  (App.undoHistory (App.handleChangeScene s) = [] /\
   App.redoHistory (App.handleChangeScene s) = []) /\
  (forall objectFile sceneFile now,
      let s' := fst (App.resumeInstantStart (Fulfilled (objectFile, sceneFile)) now s) in
      App.undoHistory s' = [] /\ App.redoHistory s' = []).
Proof.
  split; [reflexivity|]. split.
  { intros newScene s' Hc.
    apply Commits_committed in Hc as (current & _ & Hh & _).
    now injection Hh. }
  split; [apply handleUndo_cases|].
  split; [apply handleRedo_cases|].
  repeat split.
Qed.

(** A commit performed in the worked session. *)
Lemma redo_stack_cleared_by_commit_and_resets_witness :
  App.redoHistory
    (App.resumeSceneDesignGeneration (B := App.plainBrowser) roomPhoto
       (Fulfilled (jpegUrl "blue")) 2
       (fst (App.handleSceneDesignGeneration
               (App.setSceneDesignPrompt "blue walls" (App.app sessionWithRedo))))) = [].
Proof.
  apply (proj1 (proj2 (redo_stack_cleared_by_commit_and_resets Q _ App.plainBrowser
           (App.setSceneDesignPrompt "blue walls" (App.app sessionWithRedo))))
           {| file_name := "redesigned-scene-2.jpeg";
              file_type := "image/jpeg";
              file_data := "blue" |}).
  eapply App.Commits_redesign; vm_compute; reflexivity.
Defined.

(** C5. When the generation call of a mutation is rejected, the
    handler resumes into a state whose scene, undo stack and redo stack
    (and availability flags) are those from before the submission: no
    history push occurs, the captured previous scene is dropped, the
    busy flag is lowered, and the error shown carries the upstream
    message: the handler's own prefix followed by the message of the
    [Error] that was thrown, or by "An unknown error occurred." when
    what was thrown is no [Error].  This holds for each of the three
    mutation handlers. *)
Theorem failed_generation_is_atomic (num : Type) (JS : JsNumber num) (B : Browser)
    (s : App.State num) (err : Thrown) (now : N) :
  let upstream :=
    match err with
    | ErrorObject message => message
    | OtherValue => "An unknown error occurred."
    end in
  (forall position relativePosition placementStyle previousScene,
      reportsOnly ("Failed to generate the image. " +:+ upstream) s
        (App.resumeProductDrop previousScene (Rejected err) now
           (fst (App.handleProductDrop position relativePosition placementStyle s)))) /\
  (forall modificationValue previousScene,
      reportsOnly ("Failed to modify the surface. " +:+ upstream) s
        (App.resumeSurfaceModificationSubmit previousScene (Rejected err) now
           (fst (App.handleSurfaceModificationSubmit modificationValue s)))) /\
  (forall previousScene,
      reportsOnly ("Failed to generate the design. " +:+ upstream) s
        (App.resumeSceneDesignGeneration previousScene (Rejected err) now
           (fst (App.handleSceneDesignGeneration s)))).
Proof.
  intros upstream.
  assert (Hupstream : errorMessage err = upstream) by reflexivity.
  clearbody upstream.
  split; [|split]; intros.
  - destruct (App.handleProductDrop position relativePosition placementStyle s)
      as [s1 issued] eqn:Hstart.
    apply handleProductDrop_starts in Hstart as (Hh & Hf & _).
    destruct (resumeProductDrop_rejected previousScene err now s1) as (Hh' & Hf' & He & Hl).
    rewrite Hupstream in He. cbn [fst]. repeat split; congruence.
  - destruct (App.handleSurfaceModificationSubmit modificationValue s)
      as [s1 issued] eqn:Hstart.
    apply handleSurfaceModificationSubmit_starts in Hstart as (Hh & Hf & _).
    destruct (resumeSurfaceModificationSubmit_rejected previousScene err now s1)
      as (Hh' & Hf' & He & Hl).
    rewrite Hupstream in He. cbn [fst]. repeat split; congruence.
  - destruct (App.handleSceneDesignGeneration s) as [s1 issued] eqn:Hstart.
    apply handleSceneDesignGeneration_starts in Hstart as (Hh & Hf & _).
    destruct (resumeSceneDesignGeneration_rejected previousScene err now s1)
      as (Hh' & Hf' & He & Hl).
    rewrite Hupstream in He. cbn [fst]. repeat split; congruence.
Qed.

Section RoundTrip.
Context {num : Type} {JS : JsNumber num} {B : Browser}.
Import App.

Implicit Types s : State num.

(** After a push, the entry below the new top is the old top. *)
Lemma pushLimited_twice (first second : File) (history : list File) :
  exists rest,
    pushLimited second (pushLimited first history) = (rest ++ [first]) ++ [second].
Proof.
  rewrite (pushLimited_snoc second).
  destruct (Nat.leb_spec 10 (length (pushLimited first history))) as [Hle|_].
  - rewrite pushLimited_snoc in *.
    destruct (if (10 <=? length history)%nat then tail history else history)
      as [|x kept].
    + cbn in Hle. lia.
    + exists kept. reflexivity.
  - rewrite pushLimited_snoc. eauto.
Qed.

Lemma undo_twice_after_two_commits s (S0 S1 S2 : File) (rest : list File) :
  sceneImage s = Some S2 ->
  undoHistory s = (rest ++ [S0]) ++ [S1] ->
  redoHistory s = [] ->
  sceneImage (handleUndo (handleUndo s)) = Some S0 /\
  undoHistory (handleUndo (handleUndo s)) = rest /\
  redoHistory (handleUndo (handleUndo s)) = [S2; S1].
Proof.
  intros Hscene Hundo Hredo.
  rewrite (handleUndo_acts s S2 S1 (rest ++ [S0]) Hscene Hundo).
  erewrite handleUndo_acts by reflexivity.
  cbn. rewrite Hredo. auto.
Qed.

End RoundTrip.

(** C6. From any state whose current scene is S0 (whatever was
    committed before), a mutation that commits S1, then a mutation that
    commits S2, then undo twice, leaves S0 as the current scene (and
    S2, S1 on the redo stack). *)
Theorem commit_commit_undo_undo (num : Type) (JS : JsNumber num) (B : Browser)
    (s s1 s2 : App.State num) (S0 S1 S2 : File) :
  App.sceneImage s = Some S0 ->
  App.Commits s S1 s1 ->
  App.Commits s1 S2 s2 ->
  App.sceneImage (App.handleUndo (App.handleUndo s2)) = Some S0 /\
  App.redoHistory (App.handleUndo (App.handleUndo s2)) = [S2; S1].
Proof.
  intros Hscene Hc1 Hc2.
  apply Commits_committed in Hc1 as (current & Hcur & Hh1 & _).
  rewrite Hscene in Hcur. injection Hcur as <-.
  apply Commits_committed in Hc2 as (current1 & Hcur1 & Hh2 & _).
  injection Hh1 as Hs1 Hu1 _. rewrite Hs1 in Hcur1. injection Hcur1 as <-.
  injection Hh2 as Hs2 Hu2 Hr2. rewrite Hu1 in Hu2.
  destruct (pushLimited_twice S0 S1 (App.undoHistory s)) as [rest Hrest].
  rewrite Hrest in Hu2.
  destruct (undo_twice_after_two_commits s2 S0 S1 S2 rest Hs2 Hu2 Hr2) as (? & _ & ?).
  auto.
Qed.

Lemma commit_commit_undo_undo_witness :
  App.sceneImage (App.handleUndo (App.handleUndo afterRecolour)) = Some roomPhoto /\
  App.redoHistory (App.handleUndo (App.handleUndo afterRecolour)) =
    [secondScene; firstScene].
Proof.
  apply (commit_commit_undo_undo Q _ App.plainBrowser
           uploadedRoom afterRedesign afterRecolour roomPhoto firstScene secondScene).
  - reflexivity.
  - apply App.Commits_redesign
      with (c := App.GenerateInteriorDesign roomPhoto "first");
      vm_compute; reflexivity.
  - apply App.Commits_surface
      with (modificationValue := "matte beige")
           (c := App.ModifySurface firstScene
                   {| xPercent := 50%Q; yPercent := 50%Q |} App.color "matte beige");
      vm_compute; reflexivity.
Defined.

(** C9. Undo and redo also need a current scene: with no scene, both
    return without changing anything, whatever the stacks hold.  Such
    a state arises on mount from a saved state that has history entries
    but no scene. *)
Theorem undo_redo_need_a_scene (num : Type) (JS : JsNumber num) :
  (forall s : App.State num,
      App.sceneImage s = None ->
      App.handleUndo s = s /\ App.handleRedo s = s) /\
  (forall (B : Browser) (item : App.SavedFile) (items : list App.SavedFile)
          (files : list File),
      mapThrowing App.restoreFile (item :: items) = Normal files ->
      let s : App.State num :=
        App.mount (Some {| App.saved_products := None;
                           App.saved_scene := None;
                           App.saved_undoHistory := Some (item :: items);
                           App.saved_redoHistory := None;
                           App.saved_activeProductId := None |}) in
      App.sceneImage s = None /\ App.undoHistory s = files /\ files <> [] /\
      App.canUndo s = true /\ App.handleUndo s = s).
Proof.
  split.
  - intros s Hscene. unfold App.handleUndo, App.handleRedo. now rewrite Hscene.
  - intros B item items files Hfiles s.
    assert (Hs : s = App.setCanUndo true (App.setUndoHistory files App.initialState)).
    { subst s. unfold App.mount, App.loadSavedState, App.attempt.
      cbn [App.restoreProducts App.saved_products App.restoreScene App.saved_scene].
      unfold App.restoreUndoHistory. cbn [App.saved_undoHistory].
      rewrite Hfiles. reflexivity. }
    rewrite Hs. repeat split.
    intros ->. cbn in Hfiles.
    destruct (App.restoreFile item); [|discriminate].
    cbn in Hfiles. destruct (mapThrowing App.restoreFile items); discriminate.
Qed.

Lemma undo_redo_need_a_scene_witness :
  App.undoHistory (App.mount (num := Q) (B := App.plainBrowser) (Some orphanHistory)) =
    [{| file_name := "old.jpeg"; file_type := "image/jpeg"; file_data := "old" |}] /\
  App.handleUndo (App.mount (num := Q) (B := App.plainBrowser) (Some orphanHistory)) =
    App.mount (num := Q) (B := App.plainBrowser) (Some orphanHistory) /\
  App.handleRedo (App.mount (num := Q) (B := App.plainBrowser) (Some orphanHistory)) =
    App.mount (num := Q) (B := App.plainBrowser) (Some orphanHistory).
Proof.
  split; [vm_compute; reflexivity|].
  apply (proj1 (undo_redo_need_a_scene Q _)
           (App.mount (num := Q) (B := App.plainBrowser) (Some orphanHistory))).
  vm_compute. reflexivity.
Defined.

(** ** What one event can do to the stacks *)

Section Sessions.
Context {num : Type} {JS : JsNumber num} {B : Browser}.
Import App.

Implicit Types s : State num.
Implicit Types w : World num.

Lemma handleUndo_change s : StackChange s (handleUndo s).
Proof.
  destruct (sceneImage s) as [current|] eqn:Hscene.
  - destruct (snoc_or_nil (undoHistory s)) as [Hnil|(rest & top & Hsnoc)].
    + unfold handleUndo. rewrite Hscene, Hnil. now apply Untouched.
    + rewrite (handleUndo_acts s current top rest Hscene Hsnoc).
      now apply (Undone _ _ rest top current).
  - unfold handleUndo. rewrite Hscene. now apply Untouched.
Qed.

Lemma handleRedo_change s : StackChange s (handleRedo s).
Proof.
  destruct (sceneImage s) as [current|] eqn:Hscene.
  - destruct (snoc_or_nil (redoHistory s)) as [Hnil|(rest & top & Hsnoc)].
    + unfold handleRedo. rewrite Hscene, Hnil. now apply Untouched.
    + rewrite (handleRedo_acts s current top rest Hscene Hsnoc).
      now apply (Redone _ _ rest top current).
  - unfold handleRedo. rewrite Hscene. now apply Untouched.
Qed.

Lemma resumeProductDrop_change previousScene reply now s :
  StackChange s (resumeProductDrop previousScene reply now s).
Proof.
  unfold resumeProductDrop. repeat break_match;
    solve [now apply Untouched | now apply (Pushed _ _ previousScene)].
Qed.

Lemma resumeSurfaceModificationSubmit_change previousScene reply now s :
  StackChange s (resumeSurfaceModificationSubmit previousScene reply now s).
Proof.
  unfold resumeSurfaceModificationSubmit. repeat break_match;
    solve [now apply Untouched | now apply (Pushed _ _ previousScene)].
Qed.

Lemma resumeSceneDesignGeneration_change previousScene reply now s :
  StackChange s (resumeSceneDesignGeneration previousScene reply now s).
Proof.
  unfold resumeSceneDesignGeneration. repeat break_match;
    solve [now apply Untouched | now apply (Pushed _ _ previousScene)].
Qed.

Lemma handleTouchEnd_change touch dropZone sceneImg s :
  StackChange s (handleTouchEnd touch dropZone sceneImg s).
Proof.
  unfold handleTouchEnd, handlePlacementRequest.
  repeat break_match; now apply Untouched.
Qed.

Lemma app_async (f : State num -> State num * list (Issued num)) w :
  app (async f w) = fst (f (app w)).
Proof. unfold async. now destruct (f (app w)). Qed.

Lemma app_settle i (resume : Pending -> option (State num -> State num * list (Issued num))) w :
  app (settle i resume w) =
  match inflight w !! i with
  | Some issued =>
      match resume (continuation issued) with
      | Some k => fst (k (app w))
      | None => app w
      end
  | None => app w
  end.
Proof.
  unfold settle. destruct (inflight w !! i) as [issued|]; [|reflexivity].
  destruct (resume (continuation issued)) as [k|]; [|reflexivity].
  now destruct (k (app w)).
Qed.

Lemma handleAddProduct_change file now s : StackChange s (fst (handleAddProduct file now s)).
Proof. now apply Untouched. Qed.

Lemma handleProductDrop_change position relativePosition placementStyle s :
  StackChange s (fst (handleProductDrop position relativePosition placementStyle s)).
Proof.
  unfold handleProductDrop. repeat break_match; now apply Untouched.
Qed.

Lemma handlePlaceProductAction_change placementStyle s :
  StackChange s (fst (handlePlaceProductAction placementStyle s)).
Proof.
  unfold handlePlaceProductAction.
  destruct (placementContextMenu s) as [menu|]; [|now apply Untouched].
  destruct (activeProduct s); [|now apply Untouched].
  destruct (handleProductDrop _ _ placementStyle s) as [s1 issued] eqn:Hdrop.
  apply handleProductDrop_starts in Hdrop as (Hh & Hf & _).
  injection Hh as _ Hu Hr. now apply Untouched.
Qed.

Lemma handleSurfaceModificationSubmit_change modificationValue s :
  StackChange s (fst (handleSurfaceModificationSubmit modificationValue s)).
Proof.
  unfold handleSurfaceModificationSubmit. repeat break_match; now apply Untouched.
Qed.

Lemma handleSceneDesignGeneration_change s :
  StackChange s (fst (handleSceneDesignGeneration s)).
Proof.
  unfold handleSceneDesignGeneration. repeat break_match; now apply Untouched.
Qed.

Lemma resumeInstantStart_change reply now s :
  StackChange s (fst (resumeInstantStart reply now s)).
Proof.
  unfold resumeInstantStart.
  destruct reply as [[objectFile sceneFile]|err]; [now apply Cleared | now apply Untouched].
Qed.

(** Every event treats the stacks in one of the five ways. *)
Lemma step_change w (e : Event num) : StackChange (app w) (app (step w e)).
Proof.
  destruct e; cbn [step]; unfold sync; rewrite ?app_async, ?app_settle; cbn [app].
  - apply handleAddProduct_change.
  - now apply Untouched.
  - now apply Untouched.
  - now apply Untouched.
  - unfold handlePlacementRequest. break_match; now apply Untouched.
  - apply handlePlaceProductAction_change.
  - unfold handleModifySurfaceRequest. break_match; now apply Untouched.
  - now apply Untouched.
  - now apply Untouched.
  - apply handleSurfaceModificationSubmit_change.
  - now apply Untouched.
  - apply handleSceneDesignGeneration_change.
  - now apply Cleared.
  - apply handleUndo_change.
  - apply handleRedo_change.
  - now apply Cleared.
  - unfold handleTouchStart. repeat break_match; now apply Untouched.
  - unfold handleTouchMove. repeat break_match; now apply Untouched.
  - apply handleTouchEnd_change.
  - destruct (inflight w !! i) as [issued|]; [|now apply Untouched].
    destruct (continuation issued); try (now apply Untouched).
    apply resumeProductDrop_change.
  - destruct (inflight w !! i) as [issued|]; [|now apply Untouched].
    destruct (continuation issued); try (now apply Untouched); cbn [fst].
    + apply resumeSceneDesignGeneration_change.
    + apply resumeSurfaceModificationSubmit_change.
    + unfold resumeAddProduct. break_match; now apply Untouched.
  - destruct (inflight w !! i) as [issued|]; [|now apply Untouched].
    destruct (continuation issued); try (now apply Untouched).
    apply resumeInstantStart_change.
Qed.

End Sessions.

(** ** Invariants of every session *)

Section Invariants.
Context {num : Type} {JS : JsNumber num} {B : Browser}.
Import App.

Implicit Types s : State num.
Implicit Types w : World num.

Lemma length_snoc_pos (l : list File) (x : File) : (0 <? length (l ++ [x]))%nat = true.
Proof. rewrite length_app. cbn [length]. apply Nat.ltb_lt. lia. Qed.

Lemma StackChange_flagsAgree s s' : StackChange s s' -> flagsAgree s -> flagsAgree s'.
Proof.
  unfold flagsAgree, flags.
  intros [Hu Hr Hf|p Hu Hr Hf|rest p c Hs Hu Hr Hf|rest n c Hs Hr Hu Hf|Hu Hr Hf] [Hcu Hcr];
    injection Hf as Hfu Hfr; rewrite Hfu, Hfr, Hu, Hr.
  - auto.
  - rewrite pushLimited_snoc, length_snoc_pos. auto.
  - rewrite length_snoc_pos. auto.
  - rewrite length_snoc_pos. auto.
  - auto.
Qed.


(** A property of the component state that every event preserves holds
    throughout a session. *)
Lemma run_invariant (P : State num -> Prop) :
  (forall w e, P (app w) -> P (app (step w e))) ->
  forall events w, P (app w) -> P (app (run events w)).
Proof.
  intros Hstep events. unfold run.
  induction events as [|e events IH]; intros w Hw; cbn [fold_left].
  - exact Hw.
  - apply IH, Hstep, Hw.
Qed.

Lemma mapThrowing_length {X Y : Type} (f : X -> Completion Y) (xs : list X) (ys : list Y) :
  mapThrowing f xs = Normal ys -> length ys = length xs.
Proof.
  revert ys. induction xs as [|x xs IH]; intros ys Hmap; cbn in Hmap.
  - now injection Hmap as <-.
  - destruct (f x) as [y|]; [|discriminate]. cbn in Hmap.
    destruct (mapThrowing f xs) as [ys'|]; [|discriminate]. cbn in Hmap.
    injection Hmap as <-. cbn [length]. now rewrite (IH ys').
Qed.

(** The stages of the load effect, one at a time. *)
Lemma restoreProducts_stacks saved s s1 :
  restoreProducts saved s = Normal s1 ->
  undoHistory s1 = undoHistory s /\ redoHistory s1 = redoHistory s /\ flags s1 = flags s.
Proof.
  unfold restoreProducts.
  destruct (saved_products saved) as [items|]; [|now intros [= <-]].
  destruct (restoreProductItems items [] ∅) as [[ps files]|]; [|discriminate].
  cbn. destruct (saved_activeProductId saved) as [i|];
    [destruct (_ && _)|]; now intros [= <-].
Qed.

Lemma restoreScene_stacks saved s s1 :
  restoreScene saved s = Normal s1 ->
  undoHistory s1 = undoHistory s /\ redoHistory s1 = redoHistory s /\ flags s1 = flags s.
Proof.
  unfold restoreScene.
  destruct (saved_scene saved) as [scene|]; [|now intros [= <-]].
  destruct (restoreFile scene); [|discriminate]. now intros [= <-].
Qed.

Lemma restoreUndoHistory_stacks saved s s1 :
  restoreUndoHistory saved s = Normal s1 ->
  redoHistory s1 = redoHistory s /\ canRedo s1 = canRedo s /\
  ((undoHistory s1 = undoHistory s /\ canUndo s1 = canUndo s) \/
   (canUndo s1 = true /\ length (undoHistory s1) <> 0 /\
    length (undoHistory s1) = length (default [] (saved_undoHistory saved)))).
Proof.
  unfold restoreUndoHistory.
  destruct (saved_undoHistory saved) as [[|item items]|]; try (intros [= <-]; now auto).
  destruct (mapThrowing restoreFile (item :: items)) as [files|] eqn:Hmap; [|discriminate].
  intros [= <-]. apply mapThrowing_length in Hmap.
  cbn in *. repeat split. right. rewrite Hmap. auto.
Qed.

Lemma restoreRedoHistory_stacks saved s s1 :
  restoreRedoHistory saved s = Normal s1 ->
  undoHistory s1 = undoHistory s /\ canUndo s1 = canUndo s /\
  ((redoHistory s1 = redoHistory s /\ canRedo s1 = canRedo s) \/
   (canRedo s1 = true /\ length (redoHistory s1) <> 0 /\
    length (redoHistory s1) = length (default [] (saved_redoHistory saved)))).
Proof.
  unfold restoreRedoHistory.
  destruct (saved_redoHistory saved) as [[|item items]|]; try (intros [= <-]; now auto).
  destruct (mapThrowing restoreFile (item :: items)) as [files|] eqn:Hmap; [|discriminate].
  intros [= <-]. apply mapThrowing_length in Hmap.
  cbn in *. repeat split. right. rewrite Hmap. auto.
Qed.

Lemma loadSavedState_stacks saved :
  let s : State num := loadSavedState saved initialState in
  loadedStack (canUndo s) (undoHistory s) (saved_undoHistory saved) /\
  loadedStack (canRedo s) (redoHistory s) (saved_redoHistory saved).
Proof.
  unfold loadSavedState, attempt, loadedStack.
  destruct (restoreProducts saved initialState) as [s1|] eqn:H1; [|cbn; auto].
  apply restoreProducts_stacks in H1 as (Hu1 & Hr1 & [= Hcu1 Hcr1]).
  destruct (restoreScene saved s1) as [s2|] eqn:H2;
    [|rewrite Hu1, Hr1, Hcu1, Hcr1; cbn; auto].
  apply restoreScene_stacks in H2 as (Hu2 & Hr2 & [= Hcu2 Hcr2]).
  destruct (restoreUndoHistory saved s2) as [s3|] eqn:H3;
    [|rewrite Hu2, Hr2, Hcu2, Hcr2, Hu1, Hr1, Hcu1, Hcr1; cbn; auto].
  apply restoreUndoHistory_stacks in H3 as (Hr3 & Hcr3 & Hu3).
  assert (Hundo : (undoHistory s3 = [] /\ canUndo s3 = false) \/
                  (canUndo s3 = true /\ length (undoHistory s3) <> 0 /\
                   length (undoHistory s3) = length (default [] (saved_undoHistory saved)))).
  { destruct Hu3 as [[Hu3 Hcu3]|Hu3]; [left|right; exact Hu3].
    rewrite Hu3, Hcu3, Hu2, Hcu2, Hu1, Hcu1. cbn. auto. }
  destruct (restoreRedoHistory saved s3) as [s4|] eqn:H4.
  - apply restoreRedoHistory_stacks in H4 as (Hu4 & Hcu4 & Hr4).
    unfold id. rewrite Hu4, Hcu4. split; [exact Hundo|].
    destruct Hr4 as [[Hr4 Hcr4]|Hr4]; [left|right; exact Hr4].
    rewrite Hr4, Hcr4, Hr3, Hcr3, Hr2, Hcr2, Hr1, Hcr1. cbn. auto.
  - split; [exact Hundo|]. left.
    rewrite Hr3, Hcr3, Hr2, Hcr2, Hr1, Hcr1. cbn. auto.
Qed.

Lemma loadedStack_agrees flag stack saved :
  loadedStack flag stack saved -> flag = (0 <? length stack)%nat.
Proof.
  intros [[-> ->]|(-> & Hlen & _)]; [reflexivity|].
  symmetry. apply Nat.ltb_lt. lia.
Qed.


Lemma mount_flagsAgree stored : flagsAgree (mount (num := num) stored).
Proof.
  destruct stored as [saved|]; [|split; reflexivity].
  destruct (loadSavedState_stacks saved) as [Hu Hr].
  split; eapply loadedStack_agrees; eassumption.
Qed.



End Invariants.

Section SavedHistory.
Context {num : Type} {JS : JsNumber num} {B : Browser} {L : App.LocalStorage}.
Import App.

Implicit Types s : State num.


End SavedHistory.

Example twelveRedesigns_undo_stack :
  map file_name
    (App.undoHistory
       (App.app (App.run (B := App.plainBrowser) twelveRedesigns
                   (App.start (B := App.plainBrowser) None)))) =
  ["redesigned-scene-2.jpeg"; "redesigned-scene-3.jpeg"; "redesigned-scene-4.jpeg";
   "redesigned-scene-5.jpeg"; "redesigned-scene-6.jpeg"; "redesigned-scene-7.jpeg";
   "redesigned-scene-8.jpeg"; "redesigned-scene-9.jpeg"; "redesigned-scene-10.jpeg";
   "redesigned-scene-11.jpeg"].
Proof. vm_compute. reflexivity. Qed.


(** A save whose two reads straddle an undo: ten snapshots are read
    from the undo stack, then, after the undo, one from the redo stack.
    What is stored holds eleven, and a session that loads it and redoes
    has an undo stack of eleven. *)
Example torn_save_exceeds_ten :
  exists saved,
    App.saveState (B := App.plainBrowser) (L := App.plainStorage)
      tenRedesigned tenRedesigned (App.handleUndo tenRedesigned) = Normal saved /\
    length (default [] (App.saved_undoHistory saved)) = 10 /\
    length (default [] (App.saved_redoHistory saved)) = 1 /\
    length (App.undoHistory
              (App.app (App.run (num := Q) (B := App.plainBrowser) [App.Redo]
                          (App.start (B := App.plainBrowser) (Some saved))))) = 11.
Proof. eexists. split; [vm_compute; reflexivity|]. repeat split. Qed.



(** C10. The availability flags follow the stacks: in every session,
    started from any saved state, [canUndo] tells whether the undo
    stack holds an entry and [canRedo] whether the redo stack does.
    The load effect, a commit, a reset and a change of scene establish
    this; every event - undo and redo among them - preserves it. *)
Theorem availability_flags_agree (num : Type) (JS : JsNumber num) (B : Browser) :
  (forall (stored : option App.SavedState) (events : list (App.Event num)),
      flagsAgree (App.app (App.run events (App.start stored)))) /\
  (forall stored : option App.SavedState, flagsAgree (App.mount (num := num) stored)) /\
  (forall (s : App.State num) (previousScene newSceneFile : File),
      flagsAgree (App.commit previousScene newSceneFile s)) /\
  (forall (s s' : App.State num) (newScene : File),
      App.Commits s newScene s' -> flagsAgree s') /\
  (forall s : App.State num, flagsAgree (App.handleReset s)) /\
  (forall s : App.State num, flagsAgree (App.handleChangeScene s)) /\
  (forall s : App.State num,
      flagsAgree s -> flagsAgree (App.handleUndo s) /\ flagsAgree (App.handleRedo s)) /\
  (forall (w : App.World num) (e : App.Event num),
      flagsAgree (App.app w) -> flagsAgree (App.app (App.step w e))).
Proof.
  assert (Hstep : forall (w : App.World num) (e : App.Event num),
             flagsAgree (App.app w) -> flagsAgree (App.app (App.step w e))).
  { intros w e. apply StackChange_flagsAgree, step_change. }
  repeat apply conj.
  - intros stored events. apply (run_invariant flagsAgree Hstep), mount_flagsAgree.
  - apply mount_flagsAgree.
  - intros s previousScene newSceneFile. unfold flagsAgree.
    change (App.undoHistory (App.commit previousScene newSceneFile s))
      with (App.pushLimited previousScene (App.undoHistory s)).
    rewrite pushLimited_snoc, length_snoc_pos. split; reflexivity.
  - intros s s' newScene Hc.
    apply Commits_committed in Hc as (current & _ & Hh & Hf).
    injection Hh as _ Hu Hr. injection Hf as Hcu Hcr.
    split; [rewrite Hcu, Hu, pushLimited_snoc, length_snoc_pos | rewrite Hcr, Hr];
      reflexivity.
  - intros s. split; reflexivity.
  - intros s. split; reflexivity.
  - intros s Hs. split.
    + apply (StackChange_flagsAgree s); [apply handleUndo_change | exact Hs].
    + apply (StackChange_flagsAgree s); [apply handleRedo_change | exact Hs].
  - exact Hstep.
Qed.

Lemma availability_flags_agree_witness :
  flagsAgree (App.handleUndo afterRecolour) /\ flagsAgree (App.handleRedo afterRecolour).
Proof.
  apply (proj1 (proj2 (proj2 (proj2 (proj2 (proj2 (proj2
           (availability_flags_agree Q _ App.plainBrowser))))))) afterRecolour).
  split; vm_compute; reflexivity.
Defined.

(** ** The busy flag *)

(** While busy, a second submission is not turned away: the handler
    sends a second call to the generator. *)
Lemma busy_submit_reaches_generator :
  App.isLoading (App.app busySession) = true /\
  snd (App.handleSceneDesignGeneration (App.app busySession)) =
    [{| App.call := App.GenerateInteriorDesign roomPhoto "sage green walls";
        App.continuation := App.AwaitRedesign roomPhoto |}] /\
  App.inflight (App.step (B := App.plainBrowser) busySession App.SceneDesignGeneration) =
    [{| App.call := App.GenerateInteriorDesign roomPhoto "sage green walls";
        App.continuation := App.AwaitRedesign roomPhoto |};
     {| App.call := App.GenerateInteriorDesign roomPhoto "sage green walls";
        App.continuation := App.AwaitRedesign roomPhoto |}].
Proof. repeat split; vm_compute; reflexivity. Qed.

(** Blank strings by their code units. *)
Lemma isWhitespace_codes (c : ascii) :
  isWhitespace c = true <-> In (nat_of_ascii c) [9; 10; 11; 12; 13; 32; 160].
Proof.
  unfold isWhitespace. generalize (nat_of_ascii c). intros n.
  rewrite !orb_true_iff, andb_true_iff, !Nat.leb_le, !Nat.eqb_eq. cbn [In]. lia.
Qed.

Lemma isBlank_codes (s : string) :
  isBlank s = true <->
  Forall (fun c => In (nat_of_ascii c) [9; 10; 11; 12; 13; 32; 160])
    (list_ascii_of_string s).
Proof.
  unfold isBlank. induction s as [|c rest IH]; cbn [list_ascii_of_string forallb].
  - split; [constructor | reflexivity].
  - rewrite andb_true_iff, IH, isWhitespace_codes. split.
    + intros [Hc Hrest]. now constructor.
    + intros Hall. inversion Hall. now split.
Qed.

Section BusyGate.
Context {num : Type} {JS : JsNumber num}.
Import App.

Implicit Types s : State num.

Lemma handleProductDrop_ignores_busy b position relativePosition placementStyle s :
  snd (handleProductDrop position relativePosition placementStyle (setIsLoading b s)) =
  snd (handleProductDrop position relativePosition placementStyle s).
Proof.
  unfold handleProductDrop. cbn [setIsLoading activeProductId productFiles sceneImage products].
  repeat match goal with
         | |- context [match ?x with _ => _ end] => destruct x eqn:?
         end; reflexivity.
Qed.

Lemma handleSurfaceModificationSubmit_ignores_busy b modificationValue s :
  snd (handleSurfaceModificationSubmit modificationValue (setIsLoading b s)) =
  snd (handleSurfaceModificationSubmit modificationValue s).
Proof.
  unfold handleSurfaceModificationSubmit. cbn [setIsLoading surfaceModificationState sceneImage].
  destruct (surfaceModificationState s); destruct (sceneImage s); reflexivity.
Qed.

Lemma handlePlaceProductAction_ignores_busy b placementStyle s :
  snd (handlePlaceProductAction placementStyle (setIsLoading b s)) =
  snd (handlePlaceProductAction placementStyle s).
Proof.
  unfold handlePlaceProductAction, activeProduct.
  cbn [setIsLoading placementContextMenu activeProductId products].
  destruct (placementContextMenu s) as [menu|]; [|reflexivity].
  destruct (find _ (products s)); [|reflexivity].
  pose proof (handleProductDrop_ignores_busy b
                {| px := containerX menu; py := containerY menu |}
                {| xPercent := relativeX menu; yPercent := relativeY menu |}
                placementStyle s) as Hdrop.
  destruct (handleProductDrop _ _ placementStyle (setIsLoading b s)).
  destruct (handleProductDrop _ _ placementStyle s).
  exact Hdrop.
Qed.

Lemma handleSceneDesignGeneration_ignores_busy b s :
  snd (handleSceneDesignGeneration (setIsLoading b s)) =
  snd (handleSceneDesignGeneration s).
Proof.
  unfold handleSceneDesignGeneration. cbn [setIsLoading sceneDesignPrompt sceneImage].
  destruct (sceneImage s); [destruct (isBlank _)|]; reflexivity.
Qed.

End BusyGate.

(** C4, amended.  There is no Busy error and the mutation handlers
    do not look at the busy flag: the call each sends out is the same
    whether the flag is up or down, and each sends its call whenever
    its own preconditions hold (a scene and an instruction that is not
    empty once trimmed, so with a code unit other than tab, line feed,
    vertical tab, form feed, carriage return, space and no-break
    space; a scene and an open surface modal; a scene, an
    active product and its file; for the menu action an open menu as
    well).  When [isLoading] is set, what is closed are the ways in:
    [handlePlacementRequest] ignores the request (no menu opens), and
    the render withdraws controls - the scene is no drop zone, the
    redesign panel is not shown, its button and the undo and redo
    buttons are disabled.  A menu that is already open is not closed
    by the flag: its placement action sends the generator its call
    while [isLoading] is set.  Mutations are thus not kept single. *)
Theorem busy_gate_is_at_the_request (num : Type) (JS : JsNumber num) (s : App.State num) :
  (App.isLoading s = true ->
     (forall position relativePosition,
         App.handlePlacementRequest position relativePosition s = s) /\
     App.sceneIsDropZone s = false /\
     App.redesignPanelShown s = false /\
     App.redesignDisabled s = true /\
     App.undoDisabled s = true /\
     App.redoDisabled s = true) /\
  (forall b position relativePosition placementStyle,
      snd (App.handleProductDrop position relativePosition placementStyle
             (App.setIsLoading b s)) =
      snd (App.handleProductDrop position relativePosition placementStyle s)) /\
  (forall b modificationValue,
      snd (App.handleSurfaceModificationSubmit modificationValue (App.setIsLoading b s)) =
      snd (App.handleSurfaceModificationSubmit modificationValue s)) /\
  (forall b,
      snd (App.handleSceneDesignGeneration (App.setIsLoading b s)) =
      snd (App.handleSceneDesignGeneration s)) /\
  (forall b placementStyle,
      snd (App.handlePlaceProductAction placementStyle (App.setIsLoading b s)) =
      snd (App.handlePlaceProductAction placementStyle s)) /\
  (forall scene,
      App.sceneImage s = Some scene ->
      ~ Forall (fun c => In (nat_of_ascii c) [9; 10; 11; 12; 13; 32; 160])
          (list_ascii_of_string (App.sceneDesignPrompt s)) ->
      snd (App.handleSceneDesignGeneration s) =
        [{| App.call := App.GenerateInteriorDesign scene (App.sceneDesignPrompt s);
            App.continuation := App.AwaitRedesign scene |}]) /\
  (forall scene modification modificationValue,
      App.sceneImage s = Some scene ->
      App.surfaceModificationState s = Some modification ->
      snd (App.handleSurfaceModificationSubmit modificationValue s) =
        [{| App.call := App.ModifySurface scene (App.mod_position modification)
                          (App.mod_type modification) modificationValue;
            App.continuation := App.AwaitSurface scene |}]) /\
  (forall scene product productFile i position relativePosition placementStyle,
      App.sceneImage s = Some scene ->
      App.activeProductId s = Some i ->
      i <> 0%N ->
      App.productFiles s !! i = Some productFile ->
      App.activeProduct s = Some product ->
      snd (App.handleProductDrop position relativePosition placementStyle s) =
        [{| App.call := App.GenerateCompositeImage productFile (App.product_name product)
                          scene (file_name scene) relativePosition placementStyle;
            App.continuation := App.AwaitComposite scene |}]) /\
  (forall menu scene product productFile i placementStyle,
      App.isLoading s = true ->
      App.placementContextMenu s = Some menu ->
      App.sceneImage s = Some scene ->
      App.activeProductId s = Some i ->
      i <> 0%N ->
      App.productFiles s !! i = Some productFile ->
      App.activeProduct s = Some product ->
      snd (App.handlePlaceProductAction placementStyle s) =
        [{| App.call := App.GenerateCompositeImage productFile (App.product_name product)
                          scene (file_name scene)
                          {| xPercent := App.relativeX menu;
                             yPercent := App.relativeY menu |}
                          placementStyle;
            App.continuation := App.AwaitComposite scene |}]).
Proof.
  assert (Hdrop : forall scene product productFile i position relativePosition placementStyle,
             App.sceneImage s = Some scene ->
             App.activeProductId s = Some i ->
             i <> 0%N ->
             App.productFiles s !! i = Some productFile ->
             App.activeProduct s = Some product ->
             snd (App.handleProductDrop position relativePosition placementStyle s) =
               [{| App.call := App.GenerateCompositeImage productFile
                                 (App.product_name product)
                                 scene (file_name scene) relativePosition placementStyle;
                   App.continuation := App.AwaitComposite scene |}]).
  { intros scene product productFile i position relativePosition placementStyle
      Hscene Hid Hnz Hfile Hproduct.
    unfold App.handleProductDrop. unfold App.activeProduct in Hproduct.
    rewrite Hproduct, Hid, Hscene, Hfile.
    destruct (N.eqb_spec i 0) as [->|_]; [contradiction|reflexivity]. }
  repeat apply conj.
  - intros Hbusy.
    unfold App.handlePlacementRequest, App.sceneIsDropZone, App.redesignPanelShown,
      App.redesignDisabled, App.undoDisabled, App.redoDisabled.
    rewrite Hbusy.
    repeat split; try reflexivity; try (now destruct (App.sceneImage s));
      apply orb_true_r.
  - intros. apply handleProductDrop_ignores_busy.
  - intros. apply handleSurfaceModificationSubmit_ignores_busy.
  - intros. apply handleSceneDesignGeneration_ignores_busy.
  - intros. apply handlePlaceProductAction_ignores_busy.
  - intros scene Hscene Hblank. rewrite <- isBlank_codes in Hblank.
    unfold App.handleSceneDesignGeneration. rewrite Hscene.
    now destruct (isBlank (App.sceneDesignPrompt s)).
  - intros scene modification modificationValue Hscene Hmod.
    unfold App.handleSurfaceModificationSubmit. now rewrite Hmod, Hscene.
  - exact Hdrop.
  - intros menu scene product productFile i placementStyle
      _ Hmenu Hscene Hid Hnz Hfile Hproduct.
    specialize (Hdrop scene product productFile i
                  {| px := App.containerX menu; py := App.containerY menu |}
                  {| xPercent := App.relativeX menu; yPercent := App.relativeY menu |}
                  placementStyle Hscene Hid Hnz Hfile Hproduct).
    unfold App.handlePlaceProductAction. rewrite Hmenu, Hproduct.
    destruct (App.handleProductDrop _ _ placementStyle s). exact Hdrop.
Qed.

(** A session in which the menu was opened before a redesign was
    asked for: the controls are withdrawn, and the menu still sends a
    placement to the generator. *)
Lemma busy_gate_is_at_the_request_witness :
  ((forall position relativePosition,
       App.handlePlacementRequest position relativePosition (App.app busyWithMenu) =
       App.app busyWithMenu) /\
   App.sceneIsDropZone (App.app busyWithMenu) = false /\
   App.redesignPanelShown (App.app busyWithMenu) = false /\
   App.redesignDisabled (App.app busyWithMenu) = true /\
   App.undoDisabled (App.app busyWithMenu) = true /\
   App.redoDisabled (App.app busyWithMenu) = true) /\
  snd (App.handlePlaceProductAction App.on_surface (App.app busyWithMenu)) =
    [{| App.call := App.GenerateCompositeImage sofaFile "sofa.png" roomPhoto "room.jpeg"
                      centre App.on_surface;
        App.continuation := App.AwaitComposite roomPhoto |}].
Proof.
  split.
  - apply (proj1 (busy_gate_is_at_the_request Q _ (App.app busyWithMenu))).
    vm_compute. reflexivity.
  - apply (proj2 (proj2 (proj2 (proj2 (proj2 (proj2 (proj2 (proj2
             (busy_gate_is_at_the_request Q _ (App.app busyWithMenu))))))))))
      with (menu := {| App.screenX := 500%Q; App.screenY := 300%Q;
                       App.containerX := 400%Q; App.containerY := 200%Q;
                       App.relativeX := 50%Q; App.relativeY := 50%Q |})
           (product := {| App.product_id := 1700; App.product_name := "sofa.png";
                          App.product_imageUrl := "blob:sofa.png";
                          App.product_silhouetteUrl := None |})
           (i := 1700%N);
      try reflexivity.
    discriminate.
Defined.

(** The calls in flight after that choice: the silhouette of the
    product, the redesign, and the placement sent while busy. *)
Example menu_opened_before_busy_submits :
  App.isLoading (App.app busyWithMenu) = true /\
  map App.continuation
    (App.inflight
       (App.step (B := App.plainBrowser) busyWithMenu
          (App.PlaceProductAction App.on_surface))) =
  [App.AwaitSilhouette 1700; App.AwaitRedesign roomPhoto; App.AwaitComposite roomPhoto].
Proof. split; vm_compute; reflexivity. Qed.

(** * Further properties *)

(** ** Strings *)

Lemma append_nil_l (s : string) : "" +:+ s = s.
Proof. reflexivity. Qed.

Lemma append_cons (c : ascii) (a b : string) : String c a +:+ b = String c (a +:+ b).
Proof. reflexivity. Qed.

Lemma append_assoc (a b c : string) : (a +:+ b) +:+ c = a +:+ (b +:+ c).
Proof.
  induction a as [|d rest IH]; [reflexivity|].
  now rewrite !append_cons, IH.
Qed.

Lemma split_lacks (sep : ascii) (s : string) :
  lacks sep s = true -> split sep s = [s].
Proof.
  induction s as [|c rest IH]; [reflexivity|]. cbn.
  intros [Hc Hrest]%andb_prop. apply negb_true_iff in Hc.
  rewrite Hc, (IH Hrest). reflexivity.
Qed.

Lemma split_append (sep : ascii) (a b : string) :
  lacks sep a = true -> split sep (a +:+ String sep b) = a :: split sep b.
Proof.
  induction a as [|c rest IH]; rewrite ?append_nil_l, ?append_cons; cbn [split lacks].
  - intros _. now rewrite Ascii.eqb_refl.
  - intros [Hc Hrest]%andb_prop. apply negb_true_iff in Hc.
    rewrite Hc, (IH Hrest). reflexivity.
Qed.

Lemma split_head_lacks (sep : ascii) (s : string) :
  lacks sep (hd "" (split sep s)) = true.
Proof.
  induction s as [|c rest IH]; [reflexivity|]. cbn.
  destruct (Ascii.eqb c sep) eqn:Hc; [reflexivity|].
  destruct (split sep rest) as [|piece pieces]; cbn in *; now rewrite Hc.
Qed.

Lemma split_head_keeps_lacks (c sep : ascii) (s : string) :
  lacks c s = true -> lacks c (hd "" (split sep s)) = true.
Proof.
  induction s as [|d rest IH]; [reflexivity|]. cbn.
  intros [Hd Hrest]%andb_prop.
  destruct (Ascii.eqb d sep); [reflexivity|].
  specialize (IH Hrest).
  destruct (split sep rest) as [|piece pieces]; cbn in *; now rewrite Hd.
Qed.

Lemma lazyUntilSemicolon_lacks (s captured : string) :
  lazyUntilSemicolon s = Some captured -> lacks ";"%char captured = true.
Proof.
  revert captured. induction s as [|c rest IH]; intros captured; cbn; [discriminate|].
  destruct (Ascii.eqb c ";"%char) eqn:Hc; [now intros [= <-]|].
  destruct (isLineTerminator c); [discriminate|].
  destruct (lazyUntilSemicolon rest) as [inner|]; [|discriminate].
  intros [= <-]. cbn. now rewrite Hc, (IH inner).
Qed.

Lemma mimeMatch_lacks (s captured : string) :
  mimeMatch s = Some captured -> lacks ";"%char captured = true.
Proof.
  induction s as [|c rest IH]; cbn; [discriminate|].
  destruct (Ascii.eqb c ":"%char); [|exact IH].
  destruct (lazyUntilSemicolon rest) as [inner|] eqn:Hinner; [|exact IH].
  intros [= <-]. now apply (lazyUntilSemicolon_lacks rest).
Qed.

Lemma lazyUntilSemicolon_append (mime rest : string) :
  lacks ";"%char mime = true ->
  lacks "010"%char mime = true ->
  lacks "013"%char mime = true ->
  lazyUntilSemicolon (mime +:+ String ";"%char rest) = Some mime.
Proof.
  induction mime as [|c more IH]; rewrite ?append_nil_l, ?append_cons;
    cbn [lazyUntilSemicolon lacks]; [reflexivity|].
  intros [Hs Hs']%andb_prop [Hn Hn']%andb_prop [Hr Hr']%andb_prop.
  apply negb_true_iff in Hs, Hn, Hr.
  unfold isLineTerminator. rewrite Hs, Hn, Hr, (IH Hs' Hn' Hr'). reflexivity.
Qed.

Lemma wellFormedMime_parts (mime : string) :
  wellFormedMime mime = true ->
  String.eqb mime "" = false /\ lacks ","%char mime = true /\
  lacks ";"%char mime = true /\ lacks "010"%char mime = true /\
  lacks "013"%char mime = true.
Proof.
  unfold wellFormedMime. rewrite !andb_true_iff, negb_true_iff. tauto.
Qed.

Lemma lacks_append (c : ascii) (a b : string) :
  lacks c (a +:+ b) = lacks c a && lacks c b.
Proof.
  induction a as [|d rest IH]; rewrite ?append_nil_l, ?append_cons; cbn [lacks];
    [reflexivity|].
  now rewrite IH, andb_assoc.
Qed.

(** ** Data URLs *)

Lemma toAsciiLower_semicolon (c : ascii) :
  Ascii.eqb (toAsciiLower c) ";"%char = Ascii.eqb c ";"%char.
Proof. destruct c as [[] [] [] [] [] [] [] []]; reflexivity. Qed.

Lemma toAsciiLower_canonical (c : ascii) :
  isPrintableAscii c = true ->
  isPrintableAscii (toAsciiLower c) && negb (isAsciiUpper (toAsciiLower c)) = true.
Proof. destruct c as [[] [] [] [] [] [] [] []]; vm_compute; congruence. Qed.

Lemma toAsciiLower_lower (c : ascii) : isAsciiUpper c = false -> toAsciiLower c = c.
Proof. unfold toAsciiLower. now intros ->. Qed.

Lemma blobType_lacks_semicolon (type : string) :
  lacks ";"%char type = true -> lacks ";"%char (blobType type) = true.
Proof.
  unfold blobType. intros Hlacks.
  destruct (forallb isPrintableAscii (list_ascii_of_string type)); [|reflexivity].
  induction type as [|c rest IH]; [reflexivity|].
  cbn [lacks asciiLowercase] in *. rewrite toAsciiLower_semicolon.
  apply andb_true_iff in Hlacks as [-> Hrest]. now rewrite IH.
Qed.

Lemma blobType_canonical (type : string) : canonicalType (blobType type) = true.
Proof.
  unfold blobType, canonicalType.
  destruct (forallb isPrintableAscii (list_ascii_of_string type)) eqn:Hprintable;
    [|reflexivity].
  induction type as [|c rest IH]; [reflexivity|].
  cbn [list_ascii_of_string forallb asciiLowercase] in *.
  apply andb_true_iff in Hprintable as [Hc Hrest].
  now rewrite (toAsciiLower_canonical c Hc), IH.
Qed.

Lemma blobType_of_canonical (type : string) :
  canonicalType type = true -> blobType type = type.
Proof.
  unfold blobType, canonicalType. intros Hcanonical.
  assert (Hprintable : forallb isPrintableAscii (list_ascii_of_string type) = true).
  { induction type as [|c rest IH]; [reflexivity|].
    cbn [list_ascii_of_string forallb] in *.
    apply andb_true_iff in Hcanonical as [[-> _]%andb_true_iff Hrest]. now apply IH. }
  rewrite Hprintable.
  induction type as [|c rest IH]; [reflexivity|].
  cbn [list_ascii_of_string forallb asciiLowercase] in *.
  apply andb_true_iff in Hcanonical as [[_ Hlower%negb_true_iff]%andb_true_iff Hrest].
  apply andb_true_iff in Hprintable as [_ Hprintable].
  now rewrite (toAsciiLower_lower c Hlower), IH.
Qed.

Section DataUrls.
Context {B : Browser}.

(** X1. [dataURLtoFile] fails in three ways only: a URL without a
    comma is "Invalid data URL"; a header without a [:type;] part is
    "Could not parse MIME type from data URL"; otherwise what [atob]
    throws on the payload.  When it succeeds the file bears the given
    name and its content is the decoded text between the first and the
    second comma.  Its type comes from the part of the header between
    the first [:] and the next [;] - a part that is not empty and
    holds no [;], so parameters such as a charset are dropped - as the
    [File] constructor keeps it: in lower case, or empty when that part
    holds a character outside printable ASCII. *)
Theorem dataURLtoFile_outcomes (dataurl filename : string) :
  (lacks ","%char dataurl = true ->
   dataURLtoFile dataurl filename = Throw (ErrorObject "Invalid data URL")) /\
  (forall file,
      dataURLtoFile dataurl filename = Normal file ->
      file_name file = filename /\
      lacks ";"%char (file_type file) = true /\
      canonicalType (file_type file) = true /\
      exists header payload rest mime,
        split ","%char dataurl = header :: payload :: rest /\
        mimeMatch header = Some mime /\
        mime <> "" /\
        lacks ";"%char mime = true /\
        file_type file =
          (if forallb isPrintableAscii (list_ascii_of_string mime)
           then asciiLowercase mime else "") /\
        atob payload = Normal (file_data file)) /\
  (forall err,
      dataURLtoFile dataurl filename = Throw err ->
      err = ErrorObject "Invalid data URL" \/
      err = ErrorObject "Could not parse MIME type from data URL" \/
      exists header payload rest,
        split ","%char dataurl = header :: payload :: rest /\
        atob payload = Throw err).
Proof.
  unfold dataURLtoFile. split; [|split].
  - intros Hlacks. now rewrite (split_lacks _ _ Hlacks).
  - intros file.
    destruct (split ","%char dataurl) as [|header [|payload rest]]; try discriminate.
    destruct (mimeMatch header) as [mime|] eqn:Hmime; [|discriminate].
    destruct (String.eqb_spec mime "") as [->|Hne]; [discriminate|].
    destruct (atob payload) as [bstr|] eqn:Hatob; [|discriminate].
    intros [= <-]. cbn [file_name file_type file_data].
    pose proof (mimeMatch_lacks header mime Hmime) as Hsemi.
    split; [reflexivity|].
    split; [now apply blobType_lacks_semicolon|].
    split; [apply blobType_canonical|].
    now exists header, payload, rest, mime.
  - intros err.
    destruct (split ","%char dataurl) as [|header [|payload rest]];
      try (intros [= <-]; now left).
    destruct (mimeMatch header) as [mime|]; [|intros [= <-]; right; now left].
    destruct (String.eqb mime ""); [intros [= <-]; right; now left|].
    destruct (atob payload) as [bstr|] eqn:Hatob; [discriminate|].
    intros [= <-]. right. right. now exists header, payload, rest.
Qed.

(** X2. A data URL of the usual shape decodes: for a well-formed MIME
    type, any parameters without a comma (such as [base64], or a
    charset before it) and a payload without a comma that [atob]
    decodes, [dataURLtoFile] returns the file of the given name and the
    decoded content, typed as the [File] constructor keeps the MIME
    type: unchanged when it is printable ASCII without capitals, in
    lower case when it is printable ASCII, and empty otherwise. *)
Theorem dataURLtoFile_decodes (mime params payload decoded filename : string) :
  wellFormedMime mime = true ->
  lacks ","%char params = true ->
  lacks ","%char payload = true ->
  atob payload = Normal decoded ->
  dataURLtoFile
    ("data:" +:+ mime +:+ String ";"%char params +:+ String ","%char payload) filename =
  Normal {| file_name := filename;
            file_type :=
              if forallb isPrintableAscii (list_ascii_of_string mime)
              then asciiLowercase mime else "";
            file_data := decoded |} /\
  (canonicalType mime = true ->
   dataURLtoFile
     ("data:" +:+ mime +:+ String ";"%char params +:+ String ","%char payload) filename =
   Normal {| file_name := filename; file_type := mime; file_data := decoded |}).
Proof.
  intros (Hne & Hcomma & Hsemi & Hlf & Hcr)%wellFormedMime_parts Hparams Hpayload Hatob.
  assert (Hdecodes :
            dataURLtoFile
              ("data:" +:+ mime +:+ String ";"%char params +:+ String ","%char payload)
              filename =
            Normal {| file_name := filename; file_type := blobType mime;
                      file_data := decoded |}).
  { unfold dataURLtoFile.
    replace ("data:" +:+ mime +:+ String ";"%char params +:+ String ","%char payload)
      with (("data:" +:+ mime +:+ String ";"%char params) +:+ String ","%char payload)
      by now rewrite !append_assoc.
    rewrite split_append.
    2:{ rewrite !lacks_append. cbn [lacks]. now rewrite Hcomma, Hparams. }
    rewrite (split_lacks _ _ Hpayload).
    rewrite !append_cons, append_nil_l. cbn [mimeMatch].
    change (Ascii.eqb "d" ":") with false. change (Ascii.eqb "a" ":") with false.
    change (Ascii.eqb "t" ":") with false. change (Ascii.eqb ":" ":") with true.
    cbv iota.
    rewrite (lazyUntilSemicolon_append mime params Hsemi Hlf Hcr), Hne.
    cbn. now rewrite Hatob. }
  split; [exact Hdecodes|].
  intros Hcanonical. now rewrite Hdecodes, blobType_of_canonical.
Qed.

End DataUrls.

Lemma dataURLtoFile_outcomes_witness :
  dataURLtoFile (B := App.plainBrowser) "no comma here" "x.png" =
  Throw (ErrorObject "Invalid data URL").
Proof.
  apply (proj1 (dataURLtoFile_outcomes (B := App.plainBrowser) "no comma here" "x.png")).
  reflexivity.
Defined.

Lemma dataURLtoFile_decodes_witness :
  dataURLtoFile (B := App.plainBrowser)
    ("data:" +:+ "IMAGE/PNG" +:+ String ";"%char "charset=utf-8;base64"
     +:+ String ","%char "iVBORw0KGgo=") "pixel.png" =
  Normal {| file_name := "pixel.png"; file_type := "image/png";
            file_data := "iVBORw0KGgo=" |}.
Proof.
  apply (proj1 (dataURLtoFile_decodes (B := App.plainBrowser)
                  "IMAGE/PNG" "charset=utf-8;base64" "iVBORw0KGgo=" "iVBORw0KGgo="
                  "pixel.png" eq_refl eq_refl eq_refl eq_refl)).
Defined.

(** The type as the [File] constructor keeps it, at the edges: a code
    unit outside U+0020..U+007E empties the type; only [A]..[Z] change
    in lower-casing. *)
Example dataURLtoFile_unprintable_type :
  dataURLtoFile (B := App.plainBrowser)
    ("data:image/" +:+ String "233"%char "" +:+ ";base64,AA==") "e.png" =
    Normal {| file_name := "e.png"; file_type := ""; file_data := "AA==" |} /\
  map isPrintableAscii [" "; "~"; "031"; "127"; "233"]%char =
    [true; true; false; false; false] /\
  blobType "@AZ[`az{ 09~" = "@az[`az{ 09~" /\
  blobType (String "127"%char "") = "".
Proof. repeat split; vm_compute; reflexivity. Qed.

Lemma get_list_ascii (bstr : string) (i : nat) :
  String.get i bstr = list_ascii_of_string bstr !! i.
Proof.
  revert i. induction bstr as [|c rest IH]; intros [|i]; cbn; auto.
Qed.

Lemma length_list_ascii (bstr : string) :
  length (list_ascii_of_string bstr) = String.length bstr.
Proof. induction bstr as [|c rest IH]; cbn; auto. Qed.

Lemma copyCharCodes_length (bstr : string) (n : nat) (u8arr : list N) :
  length (copyCharCodes bstr n u8arr) = length u8arr.
Proof.
  revert u8arr. induction n as [|m IH]; intros u8arr; cbn; [reflexivity|].
  now rewrite IH, length_insert.
Qed.

Lemma copyCharCodes_lookup (bstr : string) (n : nat) (u8arr : list N) (i : nat) :
  n <= length u8arr ->
  copyCharCodes bstr n u8arr !! i =
  if decide (i < n) then Some (charCodeAt bstr i) else u8arr !! i.
Proof.
  revert u8arr. induction n as [|m IH]; intros u8arr Hlen; cbn [copyCharCodes].
  - destruct (decide (i < 0)); [lia | reflexivity].
  - rewrite IH by (rewrite length_insert; lia).
    destruct (decide (i < m)) as [Hlt|Hge].
    + destruct (decide (i < S m)); [reflexivity | lia].
    + destruct (decide (i = m)) as [->|Hne].
      * rewrite list_lookup_insert_eq by lia.
        destruct (decide (m < S m)); [reflexivity | lia].
      * rewrite list_lookup_insert_ne by congruence.
        destruct (decide (i < S m)); [lia | reflexivity].
Qed.

(** X3. The byte array that [dataURLtoFile] builds from the decoded
    string holds, cell for cell, the character codes of the string:
    the backwards [while (n--)] loop fills every cell and no other. *)
Theorem binaryStringToBytes_char_codes (bstr : string) :
  binaryStringToBytes bstr = map N_of_ascii (list_ascii_of_string bstr).
Proof.
  unfold binaryStringToBytes. apply list_eq. intros i.
  rewrite copyCharCodes_lookup by (rewrite length_replicate; lia).
  rewrite list_lookup_fmap, <- get_list_ascii.
  destruct (decide (i < String.length bstr)) as [Hlt|Hge].
  - unfold charCodeAt. rewrite get_list_ascii.
    destruct (list_ascii_of_string bstr !! i) as [c|] eqn:Hc; [reflexivity|].
    apply lookup_ge_None in Hc. rewrite length_list_ascii in Hc. lia.
  - rewrite get_list_ascii.
    rewrite (proj2 (lookup_ge_None (list_ascii_of_string bstr) i))
      by (rewrite length_list_ascii; lia).
    apply lookup_ge_None. rewrite length_replicate. lia.
Qed.

(** ** Trimming *)












(** ** File names of fetched images *)

Lemma lastIndexOfFrom_lacks (c : ascii) (s : string) (index found : Z) :
  lacks c s = true -> lastIndexOfFrom c s index found = found.
Proof.
  revert index found. induction s as [|d rest IH]; intros index found; cbn;
    [reflexivity|].
  intros [Hd Hrest]%andb_prop. apply negb_true_iff in Hd.
  now rewrite Hd, IH.
Qed.

Lemma lastIndexOfFrom_append (c : ascii) (a t : string) (index found : Z) :
  lacks c t = true ->
  lastIndexOfFrom c (a +:+ String c t) index found =
  (index + Z.of_nat (String.length a))%Z.
Proof.
  intros Ht. revert index found.
  induction a as [|d rest IH]; intros index found;
    rewrite ?append_nil_l, ?append_cons; cbn [lastIndexOfFrom String.length].
  - rewrite Ascii.eqb_refl, (lastIndexOfFrom_lacks c t _ _ Ht). lia.
  - rewrite IH. lia.
Qed.

Lemma dropChars_append (a t : string) :
  dropChars (String.length a) (a +:+ t) = t.
Proof.
  induction a as [|d rest IH]; rewrite ?append_nil_l, ?append_cons; cbn.
  - now destruct t.
  - exact IH.
Qed.

Lemma after_last_append (c : ascii) (a t : string) :
  lacks c t = true ->
  substringFrom (lastIndexOf c (a +:+ String c t) + 1) (a +:+ String c t) = t.
Proof.
  intros Ht. unfold substringFrom, lastIndexOf.
  rewrite (lastIndexOfFrom_append c a t 0 (-1) Ht).
  replace (Z.to_nat (0 + Z.of_nat (String.length a) + 1))
    with (String.length (a +:+ String c "")).
  - replace (a +:+ String c t) with ((a +:+ String c "") +:+ t)
      by now rewrite append_assoc.
    apply dropChars_append.
  - induction a as [|d rest IH]; rewrite ?append_nil_l, ?append_cons; cbn [String.length];
      [reflexivity|]. rewrite IH. lia.
Qed.

Lemma lastIndexOfFrom_tail (c : ascii) (s : string) (index found : Z) :
  (lacks c s = true /\ lastIndexOfFrom c s index found = found) \/
  ((index <= lastIndexOfFrom c s index found)%Z /\
   lacks c (dropChars (Z.to_nat (lastIndexOfFrom c s index found - index + 1)) s) = true).
Proof.
  revert index found. induction s as [|d rest IH]; intros index found;
    cbn [lastIndexOfFrom lacks]; [left; auto|].
  destruct (IH (index + 1)%Z (if Ascii.eqb d c then index else found))
    as [[Hlacks Hr]|[Hle Htail]].
  - rewrite Hr. destruct (Ascii.eqb d c) eqn:Hd.
    + right. split; [lia|].
      replace (Z.to_nat (index - index + 1)) with 1 by lia. exact Hlacks.
    + left. cbn. now rewrite Hlacks.
  - right. split; [lia|].
    set (r := lastIndexOfFrom c rest (index + 1) (if Ascii.eqb d c then index else found)) in *.
    replace (Z.to_nat (r - index + 1)) with (S (Z.to_nat (r - (index + 1) + 1))) by lia.
    exact Htail.
Qed.

Lemma after_last_lacks (c : ascii) (s : string) :
  lacks c (substringFrom (lastIndexOf c s + 1) s) = true.
Proof.
  unfold substringFrom, lastIndexOf.
  destruct (lastIndexOfFrom_tail c s 0 (-1)) as [[Hlacks Hr]|[Hle Htail]].
  - rewrite Hr. exact Hlacks.
  - replace (lastIndexOfFrom c s 0 (-1) + 1)%Z
      with (lastIndexOfFrom c s 0 (-1) - 0 + 1)%Z by lia.
    exact Htail.
Qed.

(** X5. The file name given to an image fetched by URL is never
    empty and holds neither [/] nor [?]; for a URL that ends in
    [/name] or [/name?query], with no slash in the name or the query,
    it is the name, and it is [downloaded-image] when that name is
    empty. *)
Theorem filenameFromUrl_is_a_name :
  (forall url,
      ImageUploader.filenameFromUrl url <> "" /\
      lacks "/"%char (ImageUploader.filenameFromUrl url) = true /\
      lacks "?"%char (ImageUploader.filenameFromUrl url) = true) /\
  (forall base name,
      lacks "/"%char name = true -> lacks "?"%char name = true ->
      ImageUploader.filenameFromUrl (base +:+ String "/"%char name) =
      if String.eqb name "" then "downloaded-image" else name) /\
  (forall base name query,
      lacks "/"%char name = true -> lacks "?"%char name = true ->
      lacks "/"%char query = true ->
      ImageUploader.filenameFromUrl
        (base +:+ String "/"%char (name +:+ String "?"%char query)) =
      if String.eqb name "" then "downloaded-image" else name).
Proof.
  split; [|split].
  - intros url. unfold ImageUploader.filenameFromUrl.
    set (tail := substringFrom (lastIndexOf "/"%char url + 1) url).
    destruct (String.eqb_spec (hd "" (split "?"%char tail)) "") as [Hempty|Hne].
    + repeat split. discriminate.
    + split; [exact Hne|]. split.
      * apply split_head_keeps_lacks, after_last_lacks.
      * apply split_head_lacks.
  - intros base name Hslash Hquery. unfold ImageUploader.filenameFromUrl.
    rewrite (after_last_append _ base name Hslash), (split_lacks _ _ Hquery).
    reflexivity.
  - intros base name query Hslash Hquery Hqslash. unfold ImageUploader.filenameFromUrl.
    rewrite after_last_append
      by (rewrite lacks_append; cbn [lacks]; now rewrite Hslash, Hqslash).
    rewrite (split_append _ name query Hquery). reflexivity.
Qed.

Lemma filenameFromUrl_is_a_name_witness :
  ImageUploader.filenameFromUrl
    ("https://example.com/rooms" +:+ String "/"%char ("sofa.png" +:+ String "?"%char "w=800")) =
  "sofa.png".
Proof.
  apply (proj2 (proj2 filenameFromUrl_is_a_name) "https://example.com/rooms" "sofa.png" "w=800");
    reflexivity.
Defined.

(** ** Files handed to the uploader *)

Section UploaderFiles.
Context {num : Type} {JS : JsNumber num}.

(** X6. A drop on an uploader that is not a drop zone looks at the
    first dropped file only: an image (type starting with [image/]) is
    passed to [onFileSelect], with the format warning exactly when it is
    neither JPEG nor PNG; anything else, or no file, is ignored.  No
    drop of this kind raises a product drop, and every drop resets the
    drag indicator and clears the URL warning. *)
Theorem file_drop_takes_first_image (props : ImageUploader.Props num)
    (event : ImageUploader.PointerEvent num) (u : ImageUploader.State num) :
  ImageUploader.isDropZone props && ImageUploader.hasOnProductDrop props = false ->
  let '(u', effects) := ImageUploader.handleDrop props event u in
  ImageUploader.isDraggingOver u' = false /\
  ImageUploader.orbPosition u' = None /\
  ImageUploader.urlError u' = None /\
  match ImageUploader.files event with
  | file :: _ =>
      if String.prefix "image/" (file_type file) then
        effects = [ImageUploader.OnFileSelect file] /\
        (ImageUploader.fileTypeError u' = None <->
         file_type file = "image/jpeg" \/ file_type file = "image/png")
      else effects = [] /\ ImageUploader.fileTypeError u' = ImageUploader.fileTypeError u
  | [] => effects = [] /\ ImageUploader.fileTypeError u' = ImageUploader.fileTypeError u
  end.
Proof.
  intros Hzone. unfold ImageUploader.handleDrop. rewrite Hzone.
  destruct (ImageUploader.files event) as [|file others]; [now repeat split|].
  destruct (String.prefix "image/" (file_type file)); [|now repeat split].
  cbn. repeat split; trivial.
  - unfold ImageUploader.allowedTypes. cbn [existsb].
    destruct (String.eqb_spec (file_type file) "image/jpeg") as [Hj|Hj]; [now left|].
    destruct (String.eqb_spec (file_type file) "image/png") as [Hp|Hp]; [now right|].
    discriminate.
  - unfold ImageUploader.allowedTypes. cbn [existsb].
    intros [->| ->]; reflexivity.
Qed.

(** X7. The file dialog is laxer than a drop: whatever file is chosen
    is passed to [onFileSelect], with the format warning exactly when
    it is neither JPEG nor PNG, while the same file dropped on the
    uploader is passed on only if its type starts with [image/]. *)
Theorem file_dialog_passes_any_file (props : ImageUploader.Props num)
    (event : ImageUploader.PointerEvent num) (file : File) (others : list File)
    (u : ImageUploader.State num) :
  ImageUploader.isDropZone props && ImageUploader.hasOnProductDrop props = false ->
  ImageUploader.files event = file :: others ->
  snd (ImageUploader.handleFileChange (file :: others) u) = [ImageUploader.OnFileSelect file] /\
  (ImageUploader.fileTypeError (fst (ImageUploader.handleFileChange (file :: others) u)) = None
   <-> file_type file = "image/jpeg" \/ file_type file = "image/png") /\
  ImageUploader.urlError (fst (ImageUploader.handleFileChange (file :: others) u)) = None /\
  (String.prefix "image/" (file_type file) = false ->
   snd (ImageUploader.handleDrop props event u) = []) /\
  (String.prefix "image/" (file_type file) = true ->
   ImageUploader.handleDrop props event u =
   (ImageUploader.handleDragLeave (fst (ImageUploader.handleFileChange (file :: others) u)),
    [ImageUploader.OnFileSelect file])).
Proof.
  intros Hzone Hfiles. unfold ImageUploader.handleDrop, ImageUploader.handleFileChange.
  rewrite Hzone, Hfiles. cbn [fst snd].
  split; [reflexivity|]. split.
  { cbn. unfold ImageUploader.allowedTypes. cbn [existsb]. split.
    - destruct (String.eqb_spec (file_type file) "image/jpeg") as [Hj|Hj]; [now left|].
      destruct (String.eqb_spec (file_type file) "image/png") as [Hp|Hp]; [now right|].
      discriminate.
    - intros [->| ->]; reflexivity. }
  split; [reflexivity|].
  split; intros ->; reflexivity.
Qed.

End UploaderFiles.

Lemma file_drop_takes_first_image_witness :
  let '(u', effects) :=
    ImageUploader.handleDrop uploadProps (fileDrop [webpPhoto; roomPhoto]) restingUploader in
  ImageUploader.isDraggingOver u' = false /\
  ImageUploader.orbPosition u' = None /\
  ImageUploader.urlError u' = None /\
  effects = [ImageUploader.OnFileSelect webpPhoto] /\
  (ImageUploader.fileTypeError u' = None <->
   file_type webpPhoto = "image/jpeg" \/ file_type webpPhoto = "image/png").
Proof.
  apply (file_drop_takes_first_image uploadProps (fileDrop [webpPhoto; roomPhoto])
           restingUploader).
  reflexivity.
Defined.

Lemma file_dialog_passes_any_file_witness :
  snd (ImageUploader.handleFileChange [manualPdf] restingUploader) =
    [ImageUploader.OnFileSelect manualPdf] /\
  snd (ImageUploader.handleDrop uploadProps (fileDrop [manualPdf]) restingUploader) = [].
Proof.
  destruct (file_dialog_passes_any_file uploadProps (fileDrop [manualPdf]) manualPdf []
              restingUploader eq_refl eq_refl) as (Hdialog & _ & _ & Hdrop & _).
  split; [exact Hdialog | apply Hdrop; reflexivity].
Defined.

(** ** Loading an image by URL *)

Section UrlLoad.
Context {num : Type} {JS : JsNumber num}.


End UrlLoad.


(** ** The interior designer *)

Section Designer.
Context {B : Browser}.


(** X10. Uploading a room starts over: the new room is what is
    displayed, whatever result was showing, the instruction is emptied
    and the error cleared - so a generation asked for right after the
    upload is refused, and its button is disabled, until an instruction
    is typed.  A result that is the empty string leaves the room on
    display. *)
Theorem designer_upload_starts_over (s : InteriorDesigner.State) (file : File) :
  InteriorDesigner.displayImageUrl (InteriorDesigner.handleImageUpload file s) =
    Some (createObjectURL file) /\
  InteriorDesigner.error (InteriorDesigner.handleImageUpload file s) = None /\
  snd (InteriorDesigner.handleGenerate (InteriorDesigner.handleImageUpload file s)) = None /\
  InteriorDesigner.generateDisabled (InteriorDesigner.handleImageUpload file s) = true /\
  InteriorDesigner.displayImageUrl
    (InteriorDesigner.resumeGenerate (Fulfilled "")
       (InteriorDesigner.handleImageUpload file s)) = Some (createObjectURL file) /\
  InteriorDesigner.displayImageUrl (InteriorDesigner.handleReset s) = None.
Proof.
  repeat split.
  unfold InteriorDesigner.generateDisabled. cbn. apply orb_true_r.
Qed.

End Designer.


(** ** Loading messages *)

Lemma iter_nextLoadingMessageIndex (ticks : nat) :
  Nat.iter ticks App.nextLoadingMessageIndex 0 = ticks mod 6.
Proof.
  induction ticks as [|n IH]; [reflexivity|].
  change (Nat.iter (S n) App.nextLoadingMessageIndex 0)
    with (App.nextLoadingMessageIndex (Nat.iter n App.nextLoadingMessageIndex 0)).
  rewrite IH. unfold App.nextLoadingMessageIndex.
  change (length App.loadingMessages) with 6.
  rewrite Nat.Div0.add_mod_idemp_l. f_equal. lia.
Qed.

(** X11. The loading message index, started at 0 and advanced by the
    interval tick, is after [ticks] ticks the remainder of [ticks] by
    6: it always names one of the six loading messages, and the
    messages come round again every six ticks. *)
Theorem loading_message_always_defined (ticks : nat) :
  Nat.iter ticks App.nextLoadingMessageIndex 0 = ticks mod 6 /\
  is_Some (App.loadingMessages !! Nat.iter ticks App.nextLoadingMessageIndex 0) /\
  Nat.iter (ticks + 6) App.nextLoadingMessageIndex 0 =
    Nat.iter ticks App.nextLoadingMessageIndex 0.
Proof.
  rewrite !iter_nextLoadingMessageIndex. split; [reflexivity|]. split.
  - apply lookup_lt_is_Some. change (length App.loadingMessages) with 6.
    apply Nat.mod_upper_bound. lia.
  - replace (ticks + 6) with (ticks + 1 * 6) by lia. apply Nat.Div0.mod_add.
Qed.

(** ** Undo and redo as inverses *)

Section UndoRedo.
Context {num : Type} {JS : JsNumber num}.
Import App.

Implicit Types s : State num.

Lemma handleRedo_handleUndo s (current previousScene : File) (rest : list File) :
  sceneImage s = Some current ->
  undoHistory s = rest ++ [previousScene] ->
  flagsAgree s ->
  handleRedo (handleUndo s) = s.
Proof.
  intros Hscene Hundo [Hcu Hcr].
  rewrite (handleUndo_acts s current previousScene rest Hscene Hundo).
  erewrite handleRedo_acts; [|reflexivity|reflexivity].
  rewrite Hundo, length_snoc_pos in Hcu.
  destruct s. cbn in *. subst. reflexivity.
Qed.

Lemma handleUndo_handleRedo s (current nextScene : File) (rest : list File) :
  sceneImage s = Some current ->
  redoHistory s = rest ++ [nextScene] ->
  flagsAgree s ->
  handleUndo (handleRedo s) = s.
Proof.
  intros Hscene Hredo [Hcu Hcr].
  rewrite (handleRedo_acts s current nextScene rest Hscene Hredo).
  erewrite handleUndo_acts; [|reflexivity|reflexivity].
  rewrite Hredo, length_snoc_pos in Hcr.
  destruct s. cbn in *. subst. reflexivity.
Qed.

End UndoRedo.

(** X12. Undo and redo are inverse to each other on the whole state:
    when there is a scene and the availability flags follow the stacks,
    an undo followed by a redo, and a redo followed by an undo, each
    give back exactly the state they started from - scene, both stacks
    and both flags. *)
Theorem undo_redo_inverse (num : Type) (JS : JsNumber num) (s : App.State num) :
  flagsAgree s ->
  App.sceneImage s <> None ->
  (App.undoHistory s <> [] -> App.handleRedo (App.handleUndo s) = s) /\
  (App.redoHistory s <> [] -> App.handleUndo (App.handleRedo s) = s).
Proof.
  intros Hflags Hscene.
  destruct (App.sceneImage s) as [current|] eqn:Hcur; [|contradiction].
  split; intros Hne.
  - destruct (snoc_or_nil (App.undoHistory s)) as [Hnil|(rest & top & Hsnoc)];
      [contradiction|].
    now apply (handleRedo_handleUndo s current top rest).
  - destruct (snoc_or_nil (App.redoHistory s)) as [Hnil|(rest & top & Hsnoc)];
      [contradiction|].
    now apply (handleUndo_handleRedo s current top rest).
Qed.

Lemma undo_redo_inverse_witness :
  App.handleRedo (App.handleUndo afterRecolour) = afterRecolour.
Proof.
  apply (proj1 (undo_redo_inverse Q _ afterRecolour
                  (conj eq_refl eq_refl) (fun H => Some_ne_None _ H))).
  discriminate.
Defined.

(** ** Starting a mutation *)

Section Starting.
Context {num : Type} {JS : JsNumber num} {B : Browser}.
Import App.

Implicit Types s : State num.

Lemma find_active_fresh (ps : list Product) (newProduct : Product) :
  Forall (fun p => product_id p <> product_id newProduct) ps ->
  find (fun p => bool_decide (Some (product_id p) = Some (product_id newProduct)))
    (ps ++ [newProduct]) = Some newProduct.
Proof.
  induction 1 as [|p ps Hp _ IH]; cbn.
  - now rewrite bool_decide_eq_true_2.
  - rewrite bool_decide_eq_false_2 by congruence. exact IH.
Qed.

(** X13. A product just added can be placed at once: after
    [handleAddProduct] with a time stamp that is not 0 and that no
    listed product already bears, and with a scene present, a product
    drop sends the generator the file that was added, under its own
    file name. *)
Theorem added_product_is_placed (s : State num) (file scene : File) (now : N)
    (position : Point num) (relativePosition : RelativePosition num)
    (placementStyle : PlacementStyle) :
  now <> 0%N ->
  sceneImage s = Some scene ->
  Forall (fun p => product_id p <> now) (products s) ->
  snd (handleProductDrop position relativePosition placementStyle
         (fst (handleAddProduct file now s))) =
  [{| call := GenerateCompositeImage file (file_name file) scene (file_name scene)
                relativePosition placementStyle;
      continuation := AwaitComposite scene |}].
Proof.
  intros Hnow Hscene Hfresh.
  unfold handleProductDrop, handleAddProduct.
  cbn [fst activeProductId products productFiles sceneImage
       setError setProducts setProductFiles setActiveProductId product_id].
  rewrite (find_active_fresh (products s)
             {| product_id := now; product_name := file_name file;
                product_imageUrl := createObjectURL file;
                product_silhouetteUrl := None |} Hfresh).
  destruct (N.eqb_spec now 0) as [|_]; [contradiction|].
  rewrite lookup_insert_eq, Hscene. reflexivity.
Qed.


End Starting.

Lemma added_product_is_placed_witness :
  snd (App.handleProductDrop {| px := 400%Q; py := 200%Q |} centre App.on_surface roomWithSofa) =
  [{| App.call := App.GenerateCompositeImage sofaFile "sofa.png" roomPhoto "room.jpeg"
                    centre App.on_surface;
      App.continuation := App.AwaitComposite roomPhoto |}].
Proof.
  apply (added_product_is_placed (B := App.plainBrowser)
           (App.setSceneImage (Some roomPhoto) App.initialState)
           sofaFile roomPhoto 1700 {| px := 400%Q; py := 200%Q |} centre App.on_surface).
  - discriminate.
  - reflexivity.
  - constructor.
Defined.


(** ** Silhouettes *)

Section Silhouettes.
Context {num : Type} {JS : JsNumber num}.
Import App.

Implicit Types s : State num.

Lemma setProducts_same s : setProducts (products s) s = s.
Proof. now destruct s. Qed.

(** X15. A silhouette that arrives is attached by product id and
    changes nothing else: the catalogue keeps its products in order
    with their ids, names and images, the files, the selection and the
    scene history stay as they are, products with the awaited id get
    the silhouette and the others keep theirs.  When no listed product
    has that id any more (the catalogue was reset meanwhile), or when
    the silhouette call fails, the state is left exactly as it was. *)
Theorem silhouette_attaches_by_id (s : State num) (newProductId : N) :
  (forall silhouetteUrl,
      let s' := resumeAddProduct newProductId (Fulfilled silhouetteUrl) s in
      Forall2 (withSilhouette newProductId silhouetteUrl) (products s) (products s') /\
      productFiles s' = productFiles s /\
      activeProductId s' = activeProductId s /\
      history s' = history s /\
      (Forall (fun p => product_id p <> newProductId) (products s) -> s' = s)) /\
  (forall err, resumeAddProduct newProductId (Rejected err) s = s).
Proof.
  split; [|reflexivity].
  intros silhouetteUrl s'. subst s'. cbn [resumeAddProduct].
  split; [|split; [reflexivity|split; [reflexivity|split; [reflexivity|]]]].
  - cbn. induction (products s) as [|p ps IH]; cbn; constructor; [|exact IH].
    unfold withSilhouette.
    destruct (product_id p =? newProductId)%N eqn:Hid; cbn; rewrite ?Hid; auto.
  - intros Hnone.
    replace (map _ (products s)) with (products s); [apply setProducts_same|].
    induction Hnone as [|p ps Hp _ IH]; cbn; [reflexivity|].
    rewrite <- IH. f_equal.
    destruct (N.eqb_spec (product_id p) newProductId); [contradiction | reflexivity].
Qed.

End Silhouettes.

Lemma silhouette_attaches_by_id_witness :
  App.resumeAddProduct 1700 (Fulfilled "blob:silhouette") (App.handleReset roomWithSofa) =
  App.handleReset roomWithSofa.
Proof.
  apply (proj1 (silhouette_attaches_by_id (App.handleReset roomWithSofa) 1700)
           "blob:silhouette").
  constructor.
Defined.

(** ** From the click to the call *)

Section MenuChoices.
Context {num : Type} {JS : JsNumber num}.
Import App.

Implicit Types s : State num.

(** X16. The position clicked is the position sent.  When the app is
    not busy, a placement request opens the menu; choosing a surface
    change there and submitting a description sends [modifySurface]
    the scene, the relative position of the request, the chosen kind
    and the description; choosing a placement sends
    [generateCompositeImage] the active product's file and name, the
    scene and the same relative position.  Either way the menu and the
    modal are closed and the busy flag is up afterwards. *)
Theorem menu_choice_carries_position (s : State num) (scene : File)
    (position : RequestPosition num) (relativePosition : RelativePosition num) :
  isLoading s = false ->
  sceneImage s = Some scene ->
  let s1 := handlePlacementRequest position relativePosition s in
  (forall kind modificationValue,
      let '(s3, issued) :=
        handleSurfaceModificationSubmit modificationValue
          (handleModifySurfaceRequest kind s1) in
      issued = [{| call := ModifySurface scene relativePosition kind modificationValue;
                   continuation := AwaitSurface scene |}] /\
      placementContextMenu s3 = None /\ surfaceModificationState s3 = None /\
      isLoading s3 = true) /\
  (forall placementStyle product productFile i,
      activeProduct s = Some product ->
      activeProductId s = Some i ->
      i <> 0%N ->
      productFiles s !! i = Some productFile ->
      let '(s3, issued) := handlePlaceProductAction placementStyle s1 in
      issued = [{| call := GenerateCompositeImage productFile (product_name product)
                             scene (file_name scene) relativePosition placementStyle;
                   continuation := AwaitComposite scene |}] /\
      placementContextMenu s3 = None /\ isLoading s3 = true /\
      persistedOrbPosition s3 =
        Some {| px := req_containerX position; py := req_containerY position |}).
Proof.
  intros Hidle Hscene s1. subst s1. unfold handlePlacementRequest. rewrite Hidle.
  split.
  - intros kind modificationValue.
    unfold handleModifySurfaceRequest, handleSurfaceModificationSubmit, closeContextMenu.
    cbn. rewrite Hscene. destruct relativePosition. now repeat split.
  - intros placementStyle product productFile i Hproduct Hid Hnz Hfile.
    unfold handlePlaceProductAction, handleProductDrop, activeProduct in *.
    cbn. rewrite Hproduct, Hid, Hscene, Hfile.
    destruct (N.eqb_spec i 0) as [|_]; [contradiction|].
    destruct relativePosition. now repeat split.
Qed.

End MenuChoices.

Lemma menu_choice_carries_position_witness :
  let '(s3, issued) :=
    App.handlePlaceProductAction App.against_wall
      (App.handlePlacementRequest centreClick centre roomWithSofa) in
  issued = [{| App.call := App.GenerateCompositeImage sofaFile "sofa.png" roomPhoto
                             "room.jpeg" centre App.against_wall;
               App.continuation := App.AwaitComposite roomPhoto |}] /\
  App.placementContextMenu s3 = None /\ App.isLoading s3 = true /\
  App.persistedOrbPosition s3 = Some {| px := 400%Q; py := 200%Q |}.
Proof.
  apply (proj2 (menu_choice_carries_position roomWithSofa roomPhoto centreClick centre
                  eq_refl eq_refl) App.against_wall
           {| App.product_id := 1700; App.product_name := "sofa.png";
              App.product_imageUrl := "blob:sofa.png";
              App.product_silhouetteUrl := None |} sofaFile 1700%N).
  - reflexivity.
  - reflexivity.
  - discriminate.
  - reflexivity.
Defined.

(** ** A result that arrives after a reset *)

Section LateResults.
Context {num : Type} {JS : JsNumber num} {B : Browser}.
Import App.

Implicit Types s : State num.
Implicit Types w : World num.

Lemma committed_on_cleared previousScene newScene s s' :
  undoHistory s = [] ->
  committed previousScene newScene s s' ->
  sceneImage s' = Some newScene /\ undoHistory s' = [previousScene] /\
  redoHistory s' = [] /\ canUndo s' = true /\
  sceneImage (handleUndo s') = Some previousScene.
Proof.
  intros Hempty [Hh Hf]. rewrite Hempty in Hh.
  injection Hh as Hs Hu Hr. injection Hf as Hcu _.
  repeat split; trivial.
  rewrite (handleUndo_acts s' newScene previousScene [] Hs Hu). reflexivity.
Qed.

(** X17. Nothing cancels a call in flight.  If the user resets, or
    changes the scene, while a mutation is pending and the call is then
    fulfilled, the handler resumes on the emptied state: the generated
    image becomes the scene, and the scene the mutation started from -
    the one just discarded - is the single entry of the undo stack, so
    that an undo brings it back. *)
Theorem late_result_lands_after_reset w (i : nat) (e : Event num)
    (previousScene newScene : File) (now : N) :
  e = Reset \/ e = ChangeScene ->
  (forall c result,
      inflight w !! i = Some {| call := c; continuation := AwaitComposite previousScene |} ->
      dataURLtoFile (finalImageUrl result)
        ("generated-scene-" +:+ numberToString now +:+ ".jpeg") = Normal newScene ->
      let s' := app (step (step w e) (CompositeSettled i (Fulfilled result) now)) in
      sceneImage s' = Some newScene /\ undoHistory s' = [previousScene] /\
      redoHistory s' = [] /\ canUndo s' = true /\
      sceneImage (handleUndo s') = Some previousScene) /\
  (forall c url,
      inflight w !! i = Some {| call := c; continuation := AwaitSurface previousScene |} ->
      dataURLtoFile url ("modified-scene-" +:+ numberToString now +:+ ".jpeg") =
        Normal newScene ->
      let s' := app (step (step w e) (ImageSettled i (Fulfilled url) now)) in
      sceneImage s' = Some newScene /\ undoHistory s' = [previousScene] /\
      redoHistory s' = [] /\ canUndo s' = true /\
      sceneImage (handleUndo s') = Some previousScene) /\
  (forall c url,
      inflight w !! i = Some {| call := c; continuation := AwaitRedesign previousScene |} ->
      dataURLtoFile url ("redesigned-scene-" +:+ numberToString now +:+ ".jpeg") =
        Normal newScene ->
      let s' := app (step (step w e) (ImageSettled i (Fulfilled url) now)) in
      sceneImage s' = Some newScene /\ undoHistory s' = [previousScene] /\
      redoHistory s' = [] /\ canUndo s' = true /\
      sceneImage (handleUndo s') = Some previousScene).
Proof.
  intros He.
  assert (Hcleared : undoHistory (app (step w e)) = [] /\ inflight (step w e) = inflight w).
  { destruct He as [-> | ->]; split; reflexivity. }
  destruct Hcleared as [Hempty Hsame].
  split; [|split]; intros c reply Hpending Hdecodes s'; subst s';
    cbn [step]; rewrite app_settle, Hsame, Hpending; cbn [continuation fst].
  - apply (committed_on_cleared previousScene newScene (app (step w e))); [exact Hempty|].
    now apply resumeProductDrop_fulfilled.
  - apply (committed_on_cleared previousScene newScene (app (step w e))); [exact Hempty|].
    now apply resumeSurfaceModificationSubmit_fulfilled.
  - apply (committed_on_cleared previousScene newScene (app (step w e))); [exact Hempty|].
    now apply resumeSceneDesignGeneration_fulfilled.
Qed.

End LateResults.

Lemma late_result_lands_after_reset_witness :
  let s' :=
    App.app (App.step (B := App.plainBrowser)
               (App.step (B := App.plainBrowser) busySession App.Reset)
               (App.ImageSettled 0 (Fulfilled (jpegUrl "green")) 7)) in
  App.sceneImage s' =
    Some {| file_name := "redesigned-scene-7.jpeg"; file_type := "image/jpeg";
            file_data := "green" |} /\
  App.undoHistory s' = [roomPhoto] /\
  App.redoHistory s' = [] /\ App.canUndo s' = true /\
  App.sceneImage (App.handleUndo s') = Some roomPhoto.
Proof.
  apply (proj2 (proj2 (late_result_lands_after_reset (B := App.plainBrowser)
                         busySession 0 App.Reset roomPhoto
                         {| file_name := "redesigned-scene-7.jpeg";
                            file_type := "image/jpeg"; file_data := "green" |} 7
                         (or_introl eq_refl)))
           (App.GenerateInteriorDesign roomPhoto "sage green walls") (jpegUrl "green")).
  - reflexivity.
  - reflexivity.
Defined.

(** ** Fresh sessions *)

Section FreshSessions.
Context {num : Type} {JS : JsNumber num} {B : Browser}.
Import App.

Implicit Types s : State num.
Implicit Types w : World num.

Lemma SceneKept_same s s' : history s' = history s -> SceneKept s s'.
Proof. intros Hh. right. now right. Qed.

Lemma SceneKept_committed previousScene newScene s s' :
  committed previousScene newScene s s' -> SceneKept s s'.
Proof. intros [Hh _]. left. injection Hh as Hs _ _. rewrite Hs. discriminate. Qed.

Lemma resumeProductDrop_keeps previousScene reply now s :
  SceneKept s (resumeProductDrop previousScene reply now s).
Proof.
  destruct reply as [result|err].
  - destruct (dataURLtoFile (finalImageUrl result)
                ("generated-scene-" +:+ numberToString now +:+ ".jpeg")) as [f|err] eqn:Hd.
    + apply (SceneKept_committed previousScene f).
      now apply resumeProductDrop_fulfilled.
    + apply SceneKept_same.
      now destruct (resumeProductDrop_undecodable previousScene result err now s Hd).
  - apply SceneKept_same. now destruct (resumeProductDrop_rejected previousScene err now s).
Qed.

Lemma resumeSurfaceModificationSubmit_keeps previousScene reply now s :
  SceneKept s (resumeSurfaceModificationSubmit previousScene reply now s).
Proof.
  destruct reply as [url|err].
  - destruct (dataURLtoFile url ("modified-scene-" +:+ numberToString now +:+ ".jpeg"))
      as [f|err] eqn:Hd.
    + apply (SceneKept_committed previousScene f).
      now apply resumeSurfaceModificationSubmit_fulfilled.
    + apply SceneKept_same.
      now destruct (resumeSurfaceModificationSubmit_undecodable previousScene url err now s Hd).
  - apply SceneKept_same.
    now destruct (resumeSurfaceModificationSubmit_rejected previousScene err now s).
Qed.

Lemma resumeSceneDesignGeneration_keeps previousScene reply now s :
  SceneKept s (resumeSceneDesignGeneration previousScene reply now s).
Proof.
  destruct reply as [url|err].
  - destruct (dataURLtoFile url ("redesigned-scene-" +:+ numberToString now +:+ ".jpeg"))
      as [f|err] eqn:Hd.
    + apply (SceneKept_committed previousScene f).
      now apply resumeSceneDesignGeneration_fulfilled.
    + apply SceneKept_same.
      now destruct (resumeSceneDesignGeneration_undecodable previousScene url err now s Hd).
  - apply SceneKept_same.
    now destruct (resumeSceneDesignGeneration_rejected previousScene err now s).
Qed.

Lemma handleUndo_keeps s : SceneKept s (handleUndo s).
Proof.
  destruct (handleUndo_cases s) as [->|(c & p & rest & _ & _ & _ & _ & Hs)].
  - now apply SceneKept_same.
  - left. rewrite Hs. discriminate.
Qed.

Lemma handleRedo_keeps s : SceneKept s (handleRedo s).
Proof.
  destruct (handleRedo_cases s) as [->|(c & p & rest & _ & _ & _ & _ & Hs)].
  - now apply SceneKept_same.
  - left. rewrite Hs. discriminate.
Qed.

Lemma handlePlaceProductAction_history placementStyle s :
  history (fst (handlePlaceProductAction placementStyle s)) = history s.
Proof.
  unfold handlePlaceProductAction.
  destruct (placementContextMenu s) as [menu|]; [|reflexivity].
  destruct (activeProduct s); [|reflexivity].
  destruct (handleProductDrop _ _ placementStyle s) as [s1 issued] eqn:Hdrop.
  apply handleProductDrop_starts in Hdrop as (Hh & _ & _). exact Hh.
Qed.

Lemma step_keeps w (e : Event num) : SceneKept (app w) (app (step w e)).
Proof.
  destruct e; cbn [step]; unfold sync; rewrite ?app_async, ?app_settle; cbn [app].
  - now apply SceneKept_same.
  - now apply SceneKept_same.
  - left. discriminate.
  - now apply SceneKept_same.
  - apply SceneKept_same. unfold handlePlacementRequest. now break_match.
  - apply SceneKept_same, handlePlaceProductAction_history.
  - apply SceneKept_same. unfold handleModifySurfaceRequest. now break_match.
  - now apply SceneKept_same.
  - now apply SceneKept_same.
  - apply SceneKept_same.
    destruct (handleSurfaceModificationSubmit modificationValue (app w)) eqn:Hstart.
    now apply handleSurfaceModificationSubmit_starts in Hstart.
  - now apply SceneKept_same.
  - apply SceneKept_same.
    destruct (handleSceneDesignGeneration (app w)) eqn:Hstart.
    now apply handleSceneDesignGeneration_starts in Hstart.
  - right. left. now split.
  - apply handleUndo_keeps.
  - apply handleRedo_keeps.
  - right. left. now split.
  - apply SceneKept_same. unfold handleTouchStart. now repeat break_match.
  - apply SceneKept_same. unfold handleTouchMove. now repeat break_match.
  - apply SceneKept_same. unfold handleTouchEnd, handlePlacementRequest.
    now repeat break_match.
  - destruct (inflight w !! i) as [issued|]; [|now apply SceneKept_same].
    destruct (continuation issued); try (now apply SceneKept_same).
    apply resumeProductDrop_keeps.
  - destruct (inflight w !! i) as [issued|]; [|now apply SceneKept_same].
    destruct (continuation issued); try (now apply SceneKept_same); cbn [fst].
    + apply resumeSceneDesignGeneration_keeps.
    + apply resumeSurfaceModificationSubmit_keeps.
    + apply SceneKept_same. unfold resumeAddProduct. now break_match.
  - destruct (inflight w !! i) as [issued|]; [|now apply SceneKept_same].
    destruct (continuation issued); try (now apply SceneKept_same).
    unfold resumeInstantStart.
    destruct reply as [[objectFile sceneFile]|err]; [left; discriminate|].
    now apply SceneKept_same.
Qed.

Lemma SceneKept_backs s s' : SceneKept s s' -> sceneBacksHistory s -> sceneBacksHistory s'.
Proof.
  unfold sceneBacksHistory. intros [Hsome|[Hempty|Hsame]] Hs Hnone.
  - contradiction.
  - exact Hempty.
  - injection Hsame as Hscene Hu Hr. rewrite Hu, Hr. apply Hs. congruence.
Qed.

End FreshSessions.

(** X18. In a session started without saved state the history never
    outlives the scene: whenever there is no scene both stacks are
    empty.  So the Undo button tells the truth there: whenever
    [canUndo] is up, undo acts - it restores the top of the undo stack
    and pushes the scene it replaces onto the redo stack - and likewise
    redo whenever [canRedo] is up. *)
Theorem fresh_session_buttons_act (num : Type) (JS : JsNumber num) (B : Browser)
    (events : list (App.Event num)) :
  let s := App.app (App.run events (App.start None)) in
  (App.sceneImage s = None -> App.undoHistory s = [] /\ App.redoHistory s = []) /\
  (App.canUndo s = true ->
   exists current previousScene rest,
     App.sceneImage s = Some current /\
     App.undoHistory s = rest ++ [previousScene] /\
     App.sceneImage (App.handleUndo s) = Some previousScene /\
     App.redoHistory (App.handleUndo s) = App.redoHistory s ++ [current]) /\
  (App.canRedo s = true ->
   exists current nextScene rest,
     App.sceneImage s = Some current /\
     App.redoHistory s = rest ++ [nextScene] /\
     App.sceneImage (App.handleRedo s) = Some nextScene /\
     App.undoHistory (App.handleRedo s) = App.undoHistory s ++ [current]).
Proof.
  intros s.
  assert (Hbacks : sceneBacksHistory s).
  { apply (run_invariant sceneBacksHistory).
    - intros w e. apply SceneKept_backs, step_keeps.
    - intros _. now split. }
  assert (Hflags : flagsAgree s).
  { apply (run_invariant flagsAgree).
    - intros w e. apply StackChange_flagsAgree, step_change.
    - apply mount_flagsAgree. }
  destruct Hflags as [Hcu Hcr].
  split; [exact Hbacks|]. split.
  - intros Hup. rewrite Hcu in Hup. apply Nat.ltb_lt in Hup.
    destruct (App.sceneImage s) as [current|] eqn:Hscene.
    2:{ destruct (Hbacks Hscene) as [Hu _]. rewrite Hu in Hup. cbn in Hup. lia. }
    destruct (snoc_or_nil (App.undoHistory s)) as [Hnil|(rest & top & Hsnoc)].
    { rewrite Hnil in Hup. cbn in Hup. lia. }
    exists current, top, rest.
    rewrite (handleUndo_acts s current top rest Hscene Hsnoc). auto.
  - intros Hup. rewrite Hcr in Hup. apply Nat.ltb_lt in Hup.
    destruct (App.sceneImage s) as [current|] eqn:Hscene.
    2:{ destruct (Hbacks Hscene) as [_ Hr]. rewrite Hr in Hup. cbn in Hup. lia. }
    destruct (snoc_or_nil (App.redoHistory s)) as [Hnil|(rest & top & Hsnoc)].
    { rewrite Hnil in Hup. cbn in Hup. lia. }
    exists current, top, rest.
    rewrite (handleRedo_acts s current top rest Hscene Hsnoc). auto.
Qed.

Lemma fresh_session_buttons_act_witness :
  exists current nextScene rest,
    App.sceneImage (App.app sessionWithRedo) = Some current /\
    App.redoHistory (App.app sessionWithRedo) = rest ++ [nextScene] /\
    App.sceneImage (App.handleRedo (App.app sessionWithRedo)) = Some nextScene /\
    App.undoHistory (App.handleRedo (App.app sessionWithRedo)) =
      App.undoHistory (App.app sessionWithRedo) ++ [current].
Proof.
  apply (proj2 (proj2 (fresh_session_buttons_act Q _ App.plainBrowser
           ([App.SelectSceneFile roomPhoto] ++ redesign "sage green walls" "green" 1
            ++ [App.Undo])))).
  reflexivity.
Defined.

(** ** The catalogue and its files *)

Section Catalogue.
Context {num : Type} {JS : JsNumber num} {B : Browser}.
Import App.

Implicit Types s : State num.
Implicit Types w : World num.

Lemma productsHaveFiles_same s s' :
  products s' = products s -> productFiles s' = productFiles s ->
  productsHaveFiles s -> productsHaveFiles s'.
Proof. unfold productsHaveFiles. now intros -> ->. Qed.

Lemma handleAddProduct_listed file now s :
  productsHaveFiles s -> productsHaveFiles (fst (handleAddProduct file now s)).
Proof.
  unfold productsHaveFiles. cbn. intros Hs. apply Forall_app. split.
  - eapply Forall_impl; [exact Hs|]. cbn. intros p Hp.
    apply lookup_insert_is_Some. destruct (decide (now = product_id p)); auto.
  - constructor; [|constructor]. cbn. rewrite lookup_insert_eq. eauto.
Qed.

Lemma resumeAddProduct_listed newProductId reply s :
  productsHaveFiles s -> productsHaveFiles (resumeAddProduct newProductId reply s).
Proof.
  unfold productsHaveFiles. destruct reply as [url|err]; [|trivial]. cbn.
  intros Hs. apply Forall_map. eapply Forall_impl; [exact Hs|]. cbn.
  intros p Hp. now destruct (product_id p =? newProductId)%N.
Qed.

Lemma handleProductDrop_catalogue position relativePosition placementStyle s s1 issued :
  handleProductDrop position relativePosition placementStyle s = (s1, issued) ->
  products s1 = products s /\ productFiles s1 = productFiles s.
Proof.
  unfold handleProductDrop. repeat break_match; now intros [= <- <-].
Qed.

Lemma step_listed w (e : Event num) :
  productsHaveFiles (app w) -> productsHaveFiles (app (step w e)).
Proof.
  intros Hw.
  assert (Hsame : forall s' : State num,
             products s' = products (app w) ->
             productFiles s' = productFiles (app w) -> productsHaveFiles s').
  { intros s' Hp Hf. now apply (productsHaveFiles_same (app w)). }
  destruct e; cbn [step]; unfold sync; rewrite ?app_async, ?app_settle; cbn [app].
  - now apply handleAddProduct_listed.
  - now apply Hsame.
  - now apply Hsame.
  - now apply Hsame.
  - apply Hsame; unfold handlePlacementRequest; now break_match.
  - unfold handlePlaceProductAction.
    destruct (placementContextMenu (app w)) as [menu|]; [|exact Hw].
    destruct (activeProduct (app w)); [|exact Hw].
    destruct (handleProductDrop _ _ placementStyle (app w)) as [s1 issued] eqn:Hdrop.
    apply handleProductDrop_catalogue in Hdrop as [Hp Hf].
    now apply Hsame.
  - apply Hsame; unfold handleModifySurfaceRequest; now break_match.
  - now apply Hsame.
  - now apply Hsame.
  - apply Hsame; unfold handleSurfaceModificationSubmit; now repeat break_match.
  - now apply Hsame.
  - apply Hsame; unfold handleSceneDesignGeneration; now repeat break_match.
  - unfold productsHaveFiles.
    replace (products (handleReset (app w))) with (@nil Product) by reflexivity.
    constructor.
  - apply Hsame; unfold handleUndo, pop; repeat break_match; reflexivity.
  - apply Hsame; unfold handleRedo, pop; repeat break_match; reflexivity.
  - now apply Hsame.
  - apply Hsame; unfold handleTouchStart; repeat break_match; reflexivity.
  - apply Hsame; unfold handleTouchMove; repeat break_match; reflexivity.
  - apply Hsame; unfold handleTouchEnd, handlePlacementRequest;
      repeat break_match; reflexivity.
  - destruct (inflight w !! i) as [issued|]; [|exact Hw].
    destruct (continuation issued); try exact Hw.
    cbn [fst]. apply Hsame; unfold resumeProductDrop; repeat break_match; reflexivity.
  - destruct (inflight w !! i) as [issued|]; [|exact Hw].
    destruct (continuation issued); try exact Hw; cbn [fst].
    + apply Hsame; unfold resumeSceneDesignGeneration; repeat break_match; reflexivity.
    + apply Hsame; unfold resumeSurfaceModificationSubmit; repeat break_match; reflexivity.
    + now apply resumeAddProduct_listed.
  - destruct (inflight w !! i) as [issued|]; [|exact Hw].
    destruct (continuation issued); try exact Hw.
    unfold resumeInstantStart.
    destruct reply as [[objectFile sceneFile]|err]; [|exact Hw].
    apply handleAddProduct_listed. constructor.
Qed.

Lemma restoreProductItems_listed items loadedProducts loadedFiles ps files :
  Forall (fun p => is_Some (loadedFiles !! product_id p)) loadedProducts ->
  restoreProductItems items loadedProducts loadedFiles = Normal (ps, files) ->
  Forall (fun p => is_Some (files !! product_id p)) ps.
Proof.
  revert loadedProducts loadedFiles.
  induction items as [|item items IH]; intros loadedProducts loadedFiles Hacc; cbn.
  - now intros [= <- <-].
  - destruct (String.eqb (saved_productDataUrl item) ""); [now apply IH|].
    destruct (dataURLtoFile _ _) as [productFile|]; [|discriminate]. cbn.
    apply IH. apply Forall_app. split.
    + eapply Forall_impl; [exact Hacc|]. cbn. intros p Hp.
      apply lookup_insert_is_Some. destruct (decide (saved_id item = product_id p)); auto.
    + constructor; [|constructor]. cbn. rewrite lookup_insert_eq. eauto.
Qed.

(** A property kept by each stage of the load effect holds after it. *)
Lemma loadSavedState_preserves (P : State num -> Prop) saved s :
  (forall s0 s1, restoreProducts saved s0 = Normal s1 -> P s0 -> P s1) ->
  (forall s0 s1, restoreScene saved s0 = Normal s1 -> P s0 -> P s1) ->
  (forall s0 s1, restoreUndoHistory saved s0 = Normal s1 -> P s0 -> P s1) ->
  (forall s0 s1, restoreRedoHistory saved s0 = Normal s1 -> P s0 -> P s1) ->
  P s -> P (loadSavedState saved s).
Proof.
  intros H1 H2 H3 H4 Hs. unfold loadSavedState, attempt.
  destruct (restoreProducts saved s) as [s1|] eqn:E1; [|exact Hs].
  pose proof (H1 _ _ E1 Hs) as Hs1.
  destruct (restoreScene saved s1) as [s2|] eqn:E2; [|exact Hs1].
  pose proof (H2 _ _ E2 Hs1) as Hs2.
  destruct (restoreUndoHistory saved s2) as [s3|] eqn:E3; [|exact Hs2].
  pose proof (H3 _ _ E3 Hs2) as Hs3.
  destruct (restoreRedoHistory saved s3) as [s4|] eqn:E4; [|exact Hs3].
  exact (H4 _ _ E4 Hs3).
Qed.

Lemma mount_listed stored : productsHaveFiles (mount (num := num) stored).
Proof.
  destruct stored as [saved|]; cbn [mount]; [|constructor].
  apply (loadSavedState_preserves productsHaveFiles); [| | | |constructor].
  - intros s0 s1. unfold restoreProducts.
    destruct (saved_products saved) as [items|]; [|now intros [= <-]].
    destruct (restoreProductItems items [] ∅) as [[ps files]|] eqn:Hitems; [|discriminate].
    cbn. intros Hs1 _.
    apply restoreProductItems_listed in Hitems; [|constructor].
    destruct (saved_activeProductId saved) as [i|]; [destruct (_ && _)|];
      injection Hs1 as <-; exact Hitems.
  - intros s0 s1. unfold restoreScene.
    destruct (saved_scene saved) as [scene|]; [|now intros [= <-]].
    destruct (restoreFile scene); [|discriminate]. now intros [= <-].
  - intros s0 s1. unfold restoreUndoHistory.
    destruct (saved_undoHistory saved) as [[|item items]|]; try now intros [= <-].
    destruct (mapThrowing restoreFile (item :: items)); [|discriminate]. now intros [= <-].
  - intros s0 s1. unfold restoreRedoHistory.
    destruct (saved_redoHistory saved) as [[|item items]|]; try now intros [= <-].
    destruct (mapThrowing restoreFile (item :: items)); [|discriminate]. now intros [= <-].
Qed.

End Catalogue.

(** X19. In every session, from any saved state, each listed product
    has its file.  So a product drop with an active product (of an id
    other than 0) and a scene is never turned away for a missing file:
    it sends the generator that product's file and name with the scene. *)
Theorem listed_products_have_files (num : Type) (JS : JsNumber num) (B : Browser)
    (stored : option App.SavedState) (events : list (App.Event num)) :
  let s := App.app (App.run events (App.start stored)) in
  Forall (fun p => is_Some (App.productFiles s !! App.product_id p)) (App.products s) /\
  (forall product scene position relativePosition placementStyle,
      App.activeProduct s = Some product ->
      App.product_id product <> 0%N ->
      App.sceneImage s = Some scene ->
      exists productFile,
        App.productFiles s !! App.product_id product = Some productFile /\
        snd (App.handleProductDrop position relativePosition placementStyle s) =
          [{| App.call := App.GenerateCompositeImage productFile (App.product_name product)
                            scene (file_name scene) relativePosition placementStyle;
              App.continuation := App.AwaitComposite scene |}]).
Proof.
  intros s.
  assert (Hlisted : productsHaveFiles s).
  { apply (run_invariant productsHaveFiles).
    - apply step_listed.
    - apply mount_listed. }
  split; [exact Hlisted|].
  intros product scene position relativePosition placementStyle Hactive Hnz Hscene.
  pose proof Hactive as Hfound. unfold App.activeProduct in Hfound.
  apply find_some in Hfound as [Hin Hid]. apply bool_decide_eq_true in Hid.
  unfold productsHaveFiles in Hlisted. rewrite Forall_forall in Hlisted.
  destruct (Hlisted product) as [productFile Hfile]; [now apply list_elem_of_In|].
  exists productFile. split; [exact Hfile|].
  unfold App.handleProductDrop. unfold App.activeProduct in Hactive.
  rewrite Hactive, <- Hid, Hscene, Hfile.
  destruct (N.eqb_spec (App.product_id product) 0); [contradiction | reflexivity].
Qed.

Lemma listed_products_have_files_witness :
  exists productFile,
    App.productFiles (App.app (App.run (B := App.plainBrowser)
                                 [App.SelectSceneFile roomPhoto; App.AddProduct sofaFile 1700]
                                 (App.start (B := App.plainBrowser) None)))
      !! 1700%N = Some productFile /\
    snd (App.handleProductDrop {| px := 400%Q; py := 200%Q |} centre App.on_surface
           (App.app (App.run (B := App.plainBrowser)
                       [App.SelectSceneFile roomPhoto; App.AddProduct sofaFile 1700]
                       (App.start (B := App.plainBrowser) None)))) =
      [{| App.call := App.GenerateCompositeImage productFile "sofa.png" roomPhoto
                        "room.jpeg" centre App.on_surface;
          App.continuation := App.AwaitComposite roomPhoto |}].
Proof.
  apply (proj2 (listed_products_have_files Q _ App.plainBrowser None
                  [App.SelectSceneFile roomPhoto; App.AddProduct sofaFile 1700])
           {| App.product_id := 1700; App.product_name := "sofa.png";
              App.product_imageUrl := "blob:sofa.png";
              App.product_silhouetteUrl := None |} roomPhoto).
  - reflexivity.
  - discriminate.
  - reflexivity.
Defined.

(** ** The busy flag and the calls in flight *)

Section BusyFlag.
Context {num : Type} {JS : JsNumber num} {B : Browser}.
Import App.

Implicit Types s : State num.
Implicit Types w : World num.

Lemma generating_delete i issued (calls : list (Issued num)) :
  calls !! i = Some issued ->
  raisesBusy (continuation issued) = false ->
  generating calls -> generating (delete i calls).
Proof.
  unfold generating. revert i.
  induction calls as [|c calls IH]; intros [|i] Hi Hquiet Hcalls; cbn in *.
  - discriminate.
  - discriminate.
  - injection Hi as ->. apply Exists_cons in Hcalls as [Hc|Hrest]; [congruence | exact Hrest].
  - apply Exists_cons in Hcalls as [Hc|Hrest].
    + now apply Exists_cons_hd.
    + apply Exists_cons_tl. now apply IH.
Qed.

Lemma sync_busy (f : State num -> State num) w :
  (isLoading (f (app w)) = true -> isLoading (app w) = true) ->
  busyBacked w -> busyBacked (sync f w).
Proof. unfold busyBacked, sync. cbn [app inflight]. auto. Qed.

Lemma async_busy (f : State num -> State num * list (Issued num)) w :
  (isLoading (fst (f (app w))) = true ->
   isLoading (app w) = true \/ generating (snd (f (app w)))) ->
  busyBacked w -> busyBacked (async f w).
Proof.
  unfold busyBacked, async, generating. destruct (f (app w)) as [s issued].
  cbn [app inflight fst snd]. intros Hf Hw Hs. apply Exists_app.
  destruct (Hf Hs) as [Hbefore|Hissued]; [left; now apply Hw | now right].
Qed.

Lemma settle_busy i (resume : Pending -> option (State num -> State num * list (Issued num))) w :
  (forall issued k,
      inflight w !! i = Some issued ->
      resume (continuation issued) = Some k ->
      isLoading (fst (k (app w))) = true ->
      raisesBusy (continuation issued) = false /\ isLoading (app w) = true) ->
  busyBacked w -> busyBacked (settle i resume w).
Proof.
  unfold busyBacked, settle. intros Hk Hw.
  destruct (inflight w !! i) as [issued|] eqn:Hi; [|exact Hw].
  destruct (resume (continuation issued)) as [k|] eqn:Hresume; [|exact Hw].
  specialize (Hk issued k eq_refl Hresume).
  destruct (k (app w)) as [s more]. cbn [app inflight fst] in *. intros Hs.
  destruct (Hk Hs) as [Hquiet Hbefore].
  unfold generating. apply Exists_app. left.
  now apply (generating_delete i issued); [| |apply Hw].
Qed.

Lemma resumeProductDrop_idle previousScene reply now s :
  isLoading (resumeProductDrop previousScene reply now s) = false.
Proof. unfold resumeProductDrop. repeat break_match; reflexivity. Qed.

Lemma resumeSceneDesignGeneration_idle previousScene reply now s :
  isLoading (resumeSceneDesignGeneration previousScene reply now s) = false.
Proof. unfold resumeSceneDesignGeneration. repeat break_match; reflexivity. Qed.

Lemma resumeSurfaceModificationSubmit_idle previousScene reply now s :
  isLoading (resumeSurfaceModificationSubmit previousScene reply now s) = false.
Proof. unfold resumeSurfaceModificationSubmit. repeat break_match; reflexivity. Qed.

Lemma handleProductDrop_busy position relativePosition placementStyle s :
  let r := handleProductDrop position relativePosition placementStyle s in
  isLoading (fst r) = isLoading s \/ generating (snd r).
Proof.
  unfold handleProductDrop. repeat break_match; cbn [fst snd]; try (now left).
  right. now constructor.
Qed.

Lemma step_busy w (e : Event num) : busyBacked w -> busyBacked (step w e).
Proof.
  destruct e; cbn [step].
  - apply async_busy. now left.
  - now apply sync_busy.
  - now apply sync_busy.
  - apply async_busy. now left.
  - apply sync_busy. unfold handlePlacementRequest. break_match; cbn; congruence.
  - apply async_busy. unfold handlePlaceProductAction.
    destruct (placementContextMenu (app w)) as [menu|]; [|now left].
    destruct (activeProduct (app w)); [|now left].
    pose proof (handleProductDrop_busy
                  {| px := containerX menu; py := containerY menu |}
                  {| xPercent := relativeX menu; yPercent := relativeY menu |}
                  placementStyle (app w)) as Hdrop.
    cbn zeta in Hdrop.
    destruct (handleProductDrop _ _ placementStyle (app w)) as [s1 issued].
    cbn [fst snd] in *. intros Hs.
    destruct Hdrop as [Hsame|Hissued]; [left | now right].
    rewrite <- Hsame. exact Hs.
  - apply sync_busy. unfold handleModifySurfaceRequest. now break_match.
  - now apply sync_busy.
  - now apply sync_busy.
  - apply async_busy. unfold handleSurfaceModificationSubmit.
    repeat break_match; cbn [fst snd]; try (now left).
    intros _. right. now constructor.
  - now apply sync_busy.
  - apply async_busy. unfold handleSceneDesignGeneration.
    repeat break_match; cbn [fst snd]; try (now left).
    intros _. right. now constructor.
  - apply sync_busy.
    replace (isLoading (handleReset (app w))) with false by reflexivity. discriminate.
  - apply sync_busy. unfold handleUndo, pop. now repeat break_match.
  - apply sync_busy. unfold handleRedo, pop. now repeat break_match.
  - now apply sync_busy.
  - apply sync_busy. unfold handleTouchStart. now repeat break_match.
  - apply sync_busy. unfold handleTouchMove. now repeat break_match.
  - apply sync_busy. unfold handleTouchEnd, handlePlacementRequest.
    repeat break_match; cbn; congruence.
  - apply settle_busy. intros issued k _ Hk.
    destruct (continuation issued); try discriminate.
    injection Hk as <-. cbn [fst]. now rewrite resumeProductDrop_idle.
  - apply settle_busy. intros issued k _ Hk.
    destruct (continuation issued); try discriminate; injection Hk as <-; cbn [fst].
    + now rewrite resumeSceneDesignGeneration_idle.
    + now rewrite resumeSurfaceModificationSubmit_idle.
    + split; [reflexivity|]. unfold resumeAddProduct in *. now destruct reply.
  - apply settle_busy. intros issued k _ Hk.
    destruct (continuation issued); try discriminate. injection Hk as <-.
    split; [reflexivity|]. unfold resumeInstantStart in *.
    now destruct reply as [[objectFile sceneFile]|err].
Qed.

Lemma run_busy events w : busyBacked w -> busyBacked (run events w).
Proof.
  unfold run. revert w.
  induction events as [|e events IH]; intros w Hw; cbn [fold_left].
  - exact Hw.
  - apply IH, step_busy, Hw.
Qed.

Lemma mount_idle stored : isLoading (mount (num := num) stored) = false.
Proof.
  destruct stored as [saved|]; cbn [mount]; [|reflexivity].
  apply (loadSavedState_preserves (fun s => isLoading s = false)); [| | | |reflexivity].
  - intros s0 s1. unfold restoreProducts.
    destruct (saved_products saved) as [items|]; [|now intros [= <-]].
    destruct (restoreProductItems items [] ∅) as [[ps files]|]; [|discriminate].
    cbn. destruct (saved_activeProductId saved) as [i|]; [destruct (_ && _)|];
      now intros [= <-].
  - intros s0 s1. unfold restoreScene.
    destruct (saved_scene saved) as [scene|]; [|now intros [= <-]].
    destruct (restoreFile scene); [|discriminate]. now intros [= <-].
  - intros s0 s1. unfold restoreUndoHistory.
    destruct (saved_undoHistory saved) as [[|item items]|]; try now intros [= <-].
    destruct (mapThrowing restoreFile (item :: items)); [|discriminate]. now intros [= <-].
  - intros s0 s1. unfold restoreRedoHistory.
    destruct (saved_redoHistory saved) as [[|item items]|]; try now intros [= <-].
    destruct (mapThrowing restoreFile (item :: items)); [|discriminate]. now intros [= <-].
Qed.

End BusyFlag.

(** X20. The busy flag is never left on without a cause: in every
    session, from any saved state, while [isLoading] is set one of the
    calls still in flight is a placement, a redesign or a surface
    change (whose settling clears the flag). *)
Theorem busy_flag_has_call_in_flight (num : Type) (JS : JsNumber num) (B : Browser)
    (stored : option App.SavedState) (events : list (App.Event num)) :
  let w := App.run events (App.start stored) in
  App.isLoading (App.app w) = true ->
  exists issued previousScene,
    In issued (App.inflight w) /\
    (App.continuation issued = App.AwaitComposite previousScene \/
     App.continuation issued = App.AwaitRedesign previousScene \/
     App.continuation issued = App.AwaitSurface previousScene).
Proof.
  intros w Hbusy.
  assert (Hw : busyBacked w).
  { apply run_busy. unfold busyBacked, App.start. cbn [App.app].
    now rewrite mount_idle. }
  apply Hw, Exists_exists in Hbusy as (issued & Hin & Hraises).
  exists issued. apply list_elem_of_In in Hin.
  destruct (App.continuation issued) as [scene|scene|scene| |] eqn:Hc; try discriminate;
    exists scene; auto.
Qed.

Lemma busy_flag_has_call_in_flight_witness :
  exists issued previousScene,
    In issued (App.inflight busySession) /\
    (App.continuation issued = App.AwaitComposite previousScene \/
     App.continuation issued = App.AwaitRedesign previousScene \/
     App.continuation issued = App.AwaitSurface previousScene).
Proof.
  apply (busy_flag_has_call_in_flight Q _ App.plainBrowser None
           [App.SelectSceneFile roomPhoto;
            App.EditSceneDesignPrompt "sage green walls";
            App.SceneDesignGeneration]).
  reflexivity.
Defined.

(** ** Saving and loading *)

Section Storage.
Context {num : Type} {JS : JsNumber num} {B : Browser}.
Import App.

Implicit Types s : State num.

Lemma saveFile_restoreFile file :
  survivesStorage file ->
  exists item, saveFile file = Normal item /\ restoreFile item = Normal file.
Proof.
  intros (dataUrl & Hread & Hdecode). unfold saveFile, restoreFile. rewrite Hread. cbn.
  eexists. split; [reflexivity|]. cbn. rewrite Hdecode. now destruct file.
Qed.

Lemma saveFiles_restoreFiles files :
  Forall survivesStorage files ->
  exists items,
    mapThrowing saveFile files = Normal items /\
    mapThrowing restoreFile items = Normal files /\
    length items = length files.
Proof.
  induction 1 as [|file files Hfile _ (items & Hsave & Hrestore & Hlen)]; cbn.
  - now exists [].
  - destruct (saveFile_restoreFile file Hfile) as (item & Hs & Hr).
    exists (item :: items). rewrite Hs. cbn. rewrite Hsave. cbn.
    rewrite Hr. cbn. rewrite Hrestore. cbn. now rewrite Hlen.
Qed.

Lemma saveProducts_restoreProductItems files ps :
  Forall (storable files) ps ->
  exists items,
    saveProducts files ps = Normal items /\
    forall loadedProducts loadedFiles,
      exists restored files',
        restoreProductItems items loadedProducts loadedFiles =
          Normal (loadedProducts ++ restored, files') /\
        map product_id restored = map product_id ps /\
        map product_name restored = map product_name ps /\
        map product_silhouetteUrl restored = map product_silhouetteUrl ps /\
        (forall i, sameContentAt files loadedFiles i -> sameContentAt files files' i) /\
        Forall (fun p => sameContentAt files files' (product_id p)) ps.
Proof.
  induction 1 as [|p ps (file & Hfile & dataUrl & Hread & Hdecode) _ (items & Hsave & IH)].
  - exists []. split; [reflexivity|]. intros loadedProducts loadedFiles.
    exists [], loadedFiles. cbn. rewrite app_nil_r.
    split; [reflexivity|]. do 3 (split; [reflexivity|]). split; [auto | constructor].
  - eexists. split.
    { cbn. rewrite Hfile, Hread. cbn. rewrite Hsave. cbn. reflexivity. }
    intros loadedProducts loadedFiles.
    cbn [restoreProductItems saved_productDataUrl saved_productName saved_id
           saved_silhouetteUrl].
    destruct (String.eqb_spec dataUrl "") as [->|_].
    { specialize (Hdecode ""). discriminate Hdecode. }
    rewrite Hdecode. cbn.
    set (restoredFile := {| file_name := product_name p;
                            file_type := file_type file;
                            file_data := file_data file |}).
    set (restoredProduct := {| product_id := product_id p;
                               product_name := product_name p;
                               product_imageUrl := createObjectURL restoredFile;
                               product_silhouetteUrl := product_silhouetteUrl p |}).
    destruct (IH (loadedProducts ++ [restoredProduct])
                 (<[product_id p := restoredFile]> loadedFiles))
      as (restored & files' & Hrestore & Hid & Hname & Hsil & Hkeep & Hall).
    exists (restoredProduct :: restored), files'.
    assert (Hhere : sameContentAt files (<[product_id p := restoredFile]> loadedFiles)
                      (product_id p)).
    { exists file, restoredFile. now rewrite lookup_insert_eq. }
    split; [now rewrite Hrestore, <- app_assoc|].
    split; [cbn; now rewrite Hid|].
    split; [cbn; now rewrite Hname|].
    split; [cbn; now rewrite Hsil|].
    split.
    + intros i Hi. apply Hkeep.
      destruct (decide (i = product_id p)) as [->|Hne]; [exact Hhere|].
      destruct Hi as (f & f' & Hf & Hf' & Hsame).
      exists f, f'. now rewrite lookup_insert_ne.
    + constructor; [now apply Hkeep | exact Hall].
Qed.

Lemma existsb_product_id (a : N) (ps : list Product) :
  existsb (fun p => (product_id p =? a)%N) ps =
  existsb (fun i => (i =? a)%N) (map product_id ps).
Proof. induction ps as [|p ps IH]; cbn; [reflexivity | now rewrite IH]. Qed.

Lemma attempt_normal (stage : State num -> Completion (State num))
    (continue : State num -> State num) s s1 :
  stage s = Normal s1 -> attempt stage continue s = continue s1.
Proof. unfold attempt. now intros ->. Qed.

Lemma saveScene_restoreScene s :
  (forall scene, sceneImage s = Some scene -> survivesStorage scene) ->
  exists savedScene,
    match sceneImage s with
    | Some file => saved ← saveFile file; Normal (Some saved)
    | None => Normal None
    end = Normal savedScene /\
    forall saved s0,
      saved_scene saved = savedScene ->
      sceneImage s0 = None ->
      restoreScene saved s0 = Normal (setSceneImage (sceneImage s) s0).
Proof.
  intros Hscene. destruct (sceneImage s) as [scene|].
  - destruct (saveFile_restoreFile scene (Hscene _ eq_refl)) as (item & Hs & Hr).
    exists (Some item). rewrite Hs. split; [reflexivity|].
    intros saved s0 Hsaved _. unfold restoreScene. now rewrite Hsaved, Hr.
  - exists None. split; [reflexivity|].
    intros saved s0 Hsaved Hs0. unfold restoreScene. rewrite Hsaved.
    destruct s0; cbn in *; now subst.
Qed.

Lemma restoreUndoHistory_saved saved items files s0 :
  saved_undoHistory saved = Some items ->
  mapThrowing restoreFile items = Normal files ->
  undoHistory s0 = [] -> canUndo s0 = false ->
  restoreUndoHistory saved s0 =
  Normal (setCanUndo (0 <? length files)%nat (setUndoHistory files s0)).
Proof.
  intros Hsaved Hrestore Hstack Hflag. unfold restoreUndoHistory. rewrite Hsaved.
  destruct items as [|item items].
  - injection Hrestore as <-. destruct s0; cbn in *; now subst.
  - rewrite Hrestore. apply mapThrowing_length in Hrestore.
    destruct files; [discriminate | reflexivity].
Qed.

Lemma restoreRedoHistory_saved saved items files s0 :
  saved_redoHistory saved = Some items ->
  mapThrowing restoreFile items = Normal files ->
  redoHistory s0 = [] -> canRedo s0 = false ->
  restoreRedoHistory saved s0 =
  Normal (setCanRedo (0 <? length files)%nat (setRedoHistory files s0)).
Proof.
  intros Hsaved Hrestore Hstack Hflag. unfold restoreRedoHistory. rewrite Hsaved.
  destruct items as [|item items].
  - injection Hrestore as <-. destruct s0; cbn in *; now subst.
  - rewrite Hrestore. apply mapThrowing_length in Hrestore.
    destruct files; [discriminate | reflexivity].
Qed.

End Storage.

(** X21. What the auto-save writes, the loader restores.  The save
    takes the products, the scene and the selection from the render it
    belongs to and reads the undo stack and the redo stack later, each
    at its own moment.  When every file it reads survives storage (its
    data URL decodes to its type and content) and every listed product
    has such a file, all the reads succeed and the save is the one
    write of what they gave: it fails exactly when that write throws
    (no room in the storage), with what the write threw.  A mount from
    what was written has the scene of that render, the undo stack and
    the redo stack as each was read, each flag up exactly when its
    stack holds an entry, the products in the same order with their
    ids, names and silhouettes, a file of the same type and content for
    each of them, and the same active product when its id is not 0. *)
Theorem saved_session_is_restored (num : Type) (JS : JsNumber num) (B : Browser)
    (L : App.LocalStorage) (s atUndoRead atRedoRead : App.State num) :
  (forall scene, App.sceneImage s = Some scene -> survivesStorage scene) ->
  Forall survivesStorage (App.undoHistory atUndoRead) ->
  Forall survivesStorage (App.redoHistory atRedoRead) ->
  Forall (storable (App.productFiles s)) (App.products s) ->
  exists stateToSave,
    App.saveState s atUndoRead atRedoRead =
      match App.setItem stateToSave with
      | Normal _ => Normal stateToSave
      | Throw err => Throw err
      end /\
    App.sceneImage (App.mount (num := num) (Some stateToSave)) = App.sceneImage s /\
    App.undoHistory (App.mount (num := num) (Some stateToSave)) =
      App.undoHistory atUndoRead /\
    App.redoHistory (App.mount (num := num) (Some stateToSave)) =
      App.redoHistory atRedoRead /\
    App.canUndo (App.mount (num := num) (Some stateToSave)) =
      (0 <? length (App.undoHistory atUndoRead))%nat /\
    App.canRedo (App.mount (num := num) (Some stateToSave)) =
      (0 <? length (App.redoHistory atRedoRead))%nat /\
    map App.product_id (App.products (App.mount (num := num) (Some stateToSave))) =
      map App.product_id (App.products s) /\
    map App.product_name (App.products (App.mount (num := num) (Some stateToSave))) =
      map App.product_name (App.products s) /\
    map App.product_silhouetteUrl
      (App.products (App.mount (num := num) (Some stateToSave))) =
      map App.product_silhouetteUrl (App.products s) /\
    Forall (fun p => sameContentAt (App.productFiles s)
                       (App.productFiles (App.mount (num := num) (Some stateToSave)))
                       (App.product_id p))
      (App.products s) /\
    (forall product,
        App.activeProduct s = Some product ->
        App.product_id product <> 0%N ->
        App.activeProductId (App.mount (num := num) (Some stateToSave)) =
        App.activeProductId s).
Proof.
  intros Hscene Hundo Hredo Hproducts.
  destruct (saveProducts_restoreProductItems _ _ Hproducts) as (productData & HsaveP & HrestoreP).
  destruct (HrestoreP [] ∅) as (restored & files' & Hitems & Hid & Hname & Hsil & _ & Hfiles).
  cbn [app] in Hitems.
  destruct (saveFiles_restoreFiles _ Hundo) as (undoItems & HsaveU & HrestoreU & _).
  destruct (saveFiles_restoreFiles _ Hredo) as (redoItems & HsaveR & HrestoreR & _).
  destruct (saveScene_restoreScene s Hscene) as (savedScene & HsaveS & HrestoreS).
  set (saved := {| App.saved_products := Some productData;
                   App.saved_scene := savedScene;
                   App.saved_undoHistory := Some undoItems;
                   App.saved_redoHistory := Some redoItems;
                   App.saved_activeProductId := App.activeProductId s |}).
  exists saved. split.
  { unfold App.saveState. rewrite HsaveP. cbn. rewrite HsaveS. cbn.
    rewrite HsaveU. cbn. rewrite HsaveR. cbn. fold saved.
    now destruct (App.setItem saved). }
  destruct (App.restoreProducts saved (App.initialState (num := num))) as [sP|] eqn:HP.
  2: { unfold App.restoreProducts in HP. cbn [saved App.saved_products] in HP.
       rewrite Hitems in HP. discriminate HP. }
  assert (HsP : App.products sP = restored /\ App.productFiles sP = files' /\
                App.sceneImage sP = None /\
                App.undoHistory sP = [] /\ App.canUndo sP = false /\
                App.redoHistory sP = [] /\ App.canRedo sP = false /\
                (forall product,
                    App.activeProduct s = Some product ->
                    App.product_id product <> 0%N ->
                    App.activeProductId sP = App.activeProductId s)).
  { unfold App.restoreProducts in HP.
    cbn [saved App.saved_products App.saved_activeProductId] in HP.
    rewrite Hitems in HP. cbn [mbind Completion_bind] in HP.
    injection HP as <-.
    do 7 (split; [repeat break_match; reflexivity|]).
    intros product Hactive Hnz. unfold App.activeProduct in Hactive.
    apply find_some in Hactive as [Hin Hactive]. apply bool_decide_eq_true in Hactive.
    rewrite <- Hactive.
    assert (Hlisted : existsb (fun p => (App.product_id p =? App.product_id product)%N)
                        restored = true).
    { rewrite existsb_product_id, Hid, <- existsb_product_id.
      apply existsb_exists. exists product. split; [exact Hin | apply N.eqb_refl]. }
    rewrite Hlisted. apply N.eqb_neq in Hnz. now rewrite Hnz. }
  destruct HsP as (HsPp & HsPf & HsPs & HsPu & HsPcu & HsPr & HsPcr & HsPa).
  cbn [App.mount]. unfold App.loadSavedState.
  rewrite (attempt_normal _ _ _ _ HP).
  rewrite (attempt_normal _ _ _ _ (HrestoreS saved sP eq_refl HsPs)).
  set (sS := App.setSceneImage (App.sceneImage s) sP).
  rewrite (attempt_normal _ _ _ _
             (restoreUndoHistory_saved saved undoItems (App.undoHistory atUndoRead) sS
                eq_refl HrestoreU HsPu HsPcu)).
  set (sU := App.setCanUndo _ (App.setUndoHistory _ sS)).
  rewrite (attempt_normal _ _ _ _
             (restoreRedoHistory_saved saved redoItems (App.redoHistory atRedoRead) sU
                eq_refl HrestoreR HsPr HsPcr)).
  subst sU sS.
  unfold id. cbn -[saved Nat.ltb].
  rewrite HsPp, HsPf.
  do 9 (split; [reflexivity || assumption|]).
  exact HsPa.
Qed.

Lemma saved_session_is_restored_witness :
  exists saved,
    App.saveState (B := App.plainBrowser) (L := App.plainStorage)
      furnishedSession furnishedSession furnishedSession = Normal saved /\
    App.sceneImage (App.mount (num := Q) (B := App.plainBrowser) (Some saved)) =
      App.sceneImage furnishedSession /\
    App.undoHistory (App.mount (num := Q) (B := App.plainBrowser) (Some saved)) =
      App.undoHistory furnishedSession /\
    App.redoHistory (App.mount (num := Q) (B := App.plainBrowser) (Some saved)) =
      App.redoHistory furnishedSession /\
    App.canUndo (App.mount (num := Q) (B := App.plainBrowser) (Some saved)) =
      (0 <? length (App.undoHistory furnishedSession))%nat /\
    App.canRedo (App.mount (num := Q) (B := App.plainBrowser) (Some saved)) =
      (0 <? length (App.redoHistory furnishedSession))%nat /\
    map App.product_id
      (App.products (App.mount (num := Q) (B := App.plainBrowser) (Some saved))) =
      map App.product_id (App.products furnishedSession) /\
    map App.product_name
      (App.products (App.mount (num := Q) (B := App.plainBrowser) (Some saved))) =
      map App.product_name (App.products furnishedSession) /\
    map App.product_silhouetteUrl
      (App.products (App.mount (num := Q) (B := App.plainBrowser) (Some saved))) =
      map App.product_silhouetteUrl (App.products furnishedSession) /\
    Forall (fun p => sameContentAt (App.productFiles furnishedSession)
                       (App.productFiles
                          (App.mount (num := Q) (B := App.plainBrowser) (Some saved)))
                       (App.product_id p))
      (App.products furnishedSession) /\
    (forall product,
        App.activeProduct furnishedSession = Some product ->
        App.product_id product <> 0%N ->
        App.activeProductId (App.mount (num := Q) (B := App.plainBrowser) (Some saved)) =
        App.activeProductId furnishedSession).
Proof.
  apply (saved_session_is_restored Q _ App.plainBrowser App.plainStorage
           furnishedSession furnishedSession furnishedSession).
  - intros scene Hscene. vm_compute in Hscene. injection Hscene as <-.
    exists "data:image/jpeg;base64,green". split; [reflexivity|].
    intros filename. reflexivity.
  - replace (App.undoHistory furnishedSession) with [roomPhoto] by reflexivity.
    constructor; [|constructor].
    exists "data:image/jpeg;base64,room". split; [reflexivity|].
    intros filename. reflexivity.
  - replace (App.redoHistory furnishedSession)
      with [{| file_name := "redesigned-scene-2.jpeg";
               file_type := "image/jpeg";
               file_data := "oak" |}] by reflexivity.
    constructor; [|constructor].
    exists "data:image/jpeg;base64,oak". split; [reflexivity|].
    intros filename. reflexivity.
  - replace (App.products furnishedSession)
      with [{| App.product_id := 1700; App.product_name := "sofa.png";
               App.product_imageUrl := "blob:sofa.png";
               App.product_silhouetteUrl := None |}] by reflexivity.
    constructor; [|constructor].
    exists sofaFile. split; [reflexivity|].
    exists "data:image/png;base64,sofa". split; [reflexivity|].
    intros filename. reflexivity.
Defined.
